(** * Change-detection monitor: a shallow embedding

    The development embeds the pure core of the YouTube monitor:
    the video classifier ([video-classifier.ts]), the cross-feed
    deduplication of the scraper ([youtube-scraper.ts]), the retry loop of
    the HTTP client ([http-client.ts]), the video and event tables of the
    store ([db/database.ts], [db/schema.ts]) and one channel check of the
    monitor ([services/monitor.ts]).

    Conventions.  Timestamps ([Date], [TIMESTAMP]) are integers (epoch
    milliseconds); SQL [INTEGER] columns are [Z]; an optional TypeScript
    field is an [option]; a SQL table is the list of its rows in insertion
    order; promises are run to completion, one after the other. *)

From Stdlib Require Import List String Ascii ZArith Bool Arith Lia.
From Stdlib Require Import Permutation Sorting.Sorted DecimalString.
Import ListNotations.

Local Open Scope Z_scope.

(* ===================================================================== *)
(** * Part I: definitions                                                 *)
(* ===================================================================== *)

(** ** [types.ts] *)

(** [type VideoType = 'video' | 'short' | 'live' | 'scheduled' | 'vod'] *)
Inductive VideoType : Type :=
  | TVideo | TShort | TLive | TScheduled | TVod.

Definition VideoType_eqb (a b : VideoType) : bool :=
  match a, b with
  | TVideo, TVideo | TShort, TShort | TLive, TLive
  | TScheduled, TScheduled | TVod, TVod => true
  | _, _ => false
  end.

(** [type FeedType = 'videos' | 'lives' | 'shorts'] *)
Inductive FeedType : Type :=
  | FVideos | FLives | FShorts.

(** The [feedHint?: 'shorts' | 'lives'] argument of the classifier. *)
Inductive FeedHint : Type :=
  | HintShorts | HintLives.

Module VideoInfo.
Record t : Type := mk {
  videoId : string;
  title : string;
  publishedAt : Z;
  thumbnailUrl : string;
  type : VideoType;
  duration : option Z;
  scheduledStartTime : option Z;
  isLive : bool;
  isLiveContent : bool;
  isUpcoming : bool
}.
End VideoInfo.

Module RSSItem.
Record t : Type := mk {
  videoId : string;
  title : string;
  publishedAt : Z;
  updatedAt : Z;
  thumbnailUrl : string;
  description : option string;
  viewCount : option Z
}.
End RSSItem.

Module YTPlayerResponse.
Record t : Type := mk {
  isLive : option bool;
  isLiveContent : option bool;
  isUpcoming : option bool;
  duration : option Z;
  scheduledStartTime : option Z
}.
End YTPlayerResponse.

(** JavaScript truthiness of the values the code tests. *)
Definition truthy_flag (b : option bool) : bool :=
  match b with Some true => true | _ => false end.

Definition truthy_num (n : option Z) : bool :=
  match n with Some d => negb (d =? 0) | None => false end.

Definition truthy_int (n : Z) : bool := negb (n =? 0).

Definition defined {A : Type} (x : option A) : bool :=
  match x with Some _ => true | None => false end.

(** ** [video-classifier.ts] *)

Module Classifier.

Definition SHORTS_MAX_DURATION : Z := 90.

Definition classifyVideo (props : YTPlayerResponse.t)
                         (feedHint : option FeedHint) : VideoType :=
  let isLive := YTPlayerResponse.isLive props in
  let isLiveContent := YTPlayerResponse.isLiveContent props in
  let isUpcoming := YTPlayerResponse.isUpcoming props in
  let scheduledStartTime := YTPlayerResponse.scheduledStartTime props in
  let duration := YTPlayerResponse.duration props in
  if truthy_flag isUpcoming && defined scheduledStartTime then TScheduled
  else if truthy_flag isLive then TLive
  else if truthy_flag isLiveContent then TVod
  else if match duration with
          | Some d => d <=? SHORTS_MAX_DURATION
          | None => false
          end then TShort
  else if match feedHint with Some HintShorts => true | _ => false end
       then TShort
  else TVideo.

End Classifier.

(** ** [youtube-scraper.ts] *)

Module YouTubeScraper.

(** [getTypeFromFeed] *)
Definition getTypeFromFeed (feedType : FeedType) : VideoType :=
  match feedType with
  | FShorts => TShort
  | FLives => TVod
  | FVideos => TVideo
  end.

(** The [Map<string, VideoInfo>] named [seen]: a JavaScript [Map] iterates
    in the order in which its keys were first inserted, and [set] on a
    key that is present overwrites the value in place. *)
Definition SeenMap : Type := list VideoInfo.t.

Fixpoint seen_get (key : string) (seen : SeenMap) : option VideoInfo.t :=
  match seen with
  | [] => None
  | e :: rest =>
      if String.eqb (VideoInfo.videoId e) key then Some e
      else seen_get key rest
  end.

Fixpoint seen_set (video : VideoInfo.t) (seen : SeenMap) : SeenMap :=
  match seen with
  | [] => [video]
  | e :: rest =>
      if String.eqb (VideoInfo.videoId e) (VideoInfo.videoId video)
      then video :: rest
      else e :: seen_set video rest
  end.

(** The expression bound to [shouldReplace]. *)
Definition shouldReplace (video existing : VideoInfo.t) : bool :=
  (VideoInfo.isLive video && negb (VideoInfo.isLive existing))
  || (VideoInfo.isLiveContent video && negb (VideoInfo.isLiveContent existing))
  || (VideoInfo.isUpcoming video && negb (VideoInfo.isUpcoming existing))
  || (VideoType_eqb (VideoInfo.type video) TVod
      && VideoType_eqb (VideoInfo.type existing) TVideo)
  || (VideoType_eqb (VideoInfo.type video) TLive
      && VideoType_eqb (VideoInfo.type existing) TVideo)
  || (VideoType_eqb (VideoInfo.type video) TScheduled
      && VideoType_eqb (VideoInfo.type existing) TVideo).

(** One iteration of the [for (const video of videos)] loop. *)
Definition dedup_step (seen : SeenMap) (video : VideoInfo.t) : SeenMap :=
  match seen_get (VideoInfo.videoId video) seen with
  | None => seen_set video seen
  | Some existing =>
      if shouldReplace video existing then seen_set video seen else seen
  end.

Definition deduplicateVideos (videos : list VideoInfo.t) : list VideoInfo.t :=
  fold_left dedup_step videos [].

(** The stub pushed for one feed item in [getChannelVideos]. *)
Definition stubOfItem (feedType : FeedType) (item : RSSItem.t) : VideoInfo.t :=
  {| VideoInfo.videoId := RSSItem.videoId item;
     VideoInfo.title := RSSItem.title item;
     VideoInfo.publishedAt := RSSItem.publishedAt item;
     VideoInfo.thumbnailUrl := RSSItem.thumbnailUrl item;
     VideoInfo.type := getTypeFromFeed feedType;
     VideoInfo.duration := None;
     VideoInfo.scheduledStartTime := None;
     VideoInfo.isLive := false;
     VideoInfo.isLiveContent :=
       match feedType with FLives => true | _ => false end;
     VideoInfo.isUpcoming := false |}.

(** [getChannelVideos] with [classifyVideos: false], the way the monitor
    calls it.  [feedResults] is the [Map<FeedType, RSSItem[]>] returned by
    [getAllChannelVideos], in its iteration order; [items.slice(0, n)] is
    [firstn]. *)
Definition getChannelVideos_unclassified
    (maxVideosPerFeed : nat)
    (feedResults : list (FeedType * list RSSItem.t)) : list VideoInfo.t :=
  deduplicateVideos
    (flat_map (fun '(feedType, items) =>
                 map (stubOfItem feedType) (firstn maxVideosPerFeed items))
              feedResults).

End YouTubeScraper.

(** ** [http-client.ts] *)

Module HttpClient.

(** [Error & { status?: number }] *)
Record Error : Type := mkError {
  name : string;
  message : string;
  status : option Z
}.

(** What the code reads of a [Response].  [retryAfter] is
    [parseInt(headers.get('Retry-After'))] when the header is present and
    not empty, [None] otherwise (the code then parses ['60']). *)
Record Response : Type := mkResponse {
  resp_status : Z;
  statusText : string;
  retryAfter : option Z;
  text : string
}.

(** The outcome of one [await fetch(...)] followed by the reading of the
    body: a response, or an exception (network failure, abort on timeout). *)
Inductive Outcome : Type :=
  | Responds (r : Response)
  | Throws (e : Error).

(** [response.ok] *)
Definition ok (r : Response) : bool :=
  (200 <=? resp_status r) && (resp_status r <=? 299).

Inductive Result : Type :=
  | Returns (body : string)
  | Rejects (e : Error).

(** Observable steps of one call of [get]. *)
Inductive Effect : Type :=
  | Acquire
  | RandomDelay
  | Fetch (attempt : nat)
  | SleepRateLimit (ms : Z)
  | SleepBackoff (ms : Z)
  | Release.

Definition string_of_Z (z : Z) : string :=
  NilZero.string_of_int (Z.to_int z).

(** [new Error(`HTTP ${response.status}: ${response.statusText}`)] with
    its [status] set. *)
Definition httpError (r : Response) : Error :=
  {| name := "Error";
     message := "HTTP " ++ string_of_Z (resp_status r) ++ ": " ++ statusText r;
     status := Some (resp_status r) |}.

(** [new Error('Request failed')] *)
Definition requestFailed : Error :=
  {| name := "Error"; message := "Request failed"; status := None |}.


(** [getBackoffDelay] *)
Definition getBackoffDelay (attempt : nat) : Z :=
  Z.min (1000 * 2 ^ Z.of_nat attempt) 30000.

Definition nonRetryable (e : Error) : bool :=
  match status e with
  | Some s => (s =? 404) || (s =? 403)
  | None => false
  end.

(** The steps taken so far, put in front of those of the rest of the run. *)
Definition after (steps : list Effect) (rest : Result * list Effect)
    : Result * list Effect :=
  (fst rest, steps ++ snd rest).

(** The [for (let attempt = 0; attempt < maxRetries; attempt++)] loop.
    [remaining] is [maxRetries - attempt], the number of iterations the
    loop condition still allows; [env attempt] is what the request of
    that iteration meets.  Both [continue] and the end of the [catch]
    block go through [attempt++]. *)
Fixpoint get_loop (maxRetries : nat) (env : nat -> Outcome)
    (remaining attempt : nat) (lastError : option Error)
    : Result * list Effect :=
  match remaining with
  | O =>
      (Rejects (match lastError with Some e => e | None => requestFailed end),
       [])
  | S remaining' =>
      let catch (e : Error) :=
        if nonRetryable e then (Rejects e, [Fetch attempt])
        else if (attempt <? maxRetries - 1)%nat then
          after [Fetch attempt; SleepBackoff (getBackoffDelay attempt)]
                (get_loop maxRetries env remaining' (S attempt) (Some e))
        else
          after [Fetch attempt]
                (get_loop maxRetries env remaining' (S attempt) (Some e)) in
      match env attempt with
      | Responds r =>
          if ok r then (Returns (text r), [Fetch attempt])
          else if resp_status r =? 429 then
            let secs := match retryAfter r with Some s => s | None => 60 end in
            after [Fetch attempt; SleepRateLimit (secs * 1000)]
                  (get_loop maxRetries env remaining' (S attempt) lastError)
          else catch (httpError r)
      | Throws e => catch e
      end
  end.

(** [get]: the semaphore is taken, the throttle delay waited for, the loop
    run, and the semaphore given back in the [finally] block. *)
Definition get (maxRetries : nat) (env : nat -> Outcome)
    : Result * list Effect :=
  let run := get_loop maxRetries env maxRetries 0%nat None in
  (fst run, Acquire :: RandomDelay :: snd run ++ [Release]).

Definition fetches (tr : list Effect) : list nat :=
  flat_map (fun e => match e with Fetch n => [n] | _ => [] end) tr.

Definition backoffSleeps (tr : list Effect) : list Z :=
  flat_map (fun e => match e with SleepBackoff ms => [ms] | _ => [] end) tr.

End HttpClient.

(** ** [db/schema.ts] *)

(** [EventType = DBEvent['event_type']] *)
Inductive EventType : Type :=
  | new_video | live_started | live_ended | scheduled_live | video_updated.

Module DBChannel.
Record t : Type := mk {
  id : Z;
  channel_id : string;
  title : string;
  description : option string;
  thumbnail_url : option string;
  created_at : Z;
  updated_at : Z;
  last_checked_at : option Z;
  is_active : Z
}.
End DBChannel.

Module DBVideo.
Record t : Type := mk {
  id : Z;
  video_id : string;
  channel_id : string;
  title : string;
  description : option string;
  thumbnail_url : string;
  published_at : Z;
  type : VideoType;
  duration : option Z;
  scheduled_start_time : option Z;
  is_live : Z;
  is_live_content : Z;
  is_upcoming : Z;
  bookmarked : Z;
  created_at : Z;
  updated_at : Z
}.
End DBVideo.

(** The object that [upsertVideo] serialises into the [data] column. *)
Record EventData : Type := mkEventData {
  previousType : option VideoType;
  newType : VideoType;
  wasLive : bool;
  data_isLive : bool
}.

Module DBEvent.
Record t : Type := mk {
  id : Z;
  event_type : EventType;
  video_id : string;
  channel_id : string;
  data : option EventData;
  created_at : Z
}.
End DBEvent.

(** ** [db/database.ts] *)

Module DatabaseService.

(** The three tables the monitor touches and the sequences behind the
    [SERIAL] columns of two of them. *)
Record DB : Type := mkDB {
  channels : list DBChannel.t;
  videos : list DBVideo.t;
  events : list DBEvent.t;
  videos_id_seq : Z;
  events_id_seq : Z
}.

(** [getChannel]: [rows[0]] of the selection. *)
Definition getChannel (channelId : string) (db : DB) : option DBChannel.t :=
  find (fun c => String.eqb (DBChannel.channel_id c) channelId) (channels db).

(** [updateChannelLastChecked] *)
Definition updateChannelLastChecked (now : Z) (channelId : string) (db : DB) : DB :=
  {| channels :=
       map (fun c =>
              if String.eqb (DBChannel.channel_id c) channelId
              then {| DBChannel.id := DBChannel.id c;
                      DBChannel.channel_id := DBChannel.channel_id c;
                      DBChannel.title := DBChannel.title c;
                      DBChannel.description := DBChannel.description c;
                      DBChannel.thumbnail_url := DBChannel.thumbnail_url c;
                      DBChannel.created_at := DBChannel.created_at c;
                      DBChannel.updated_at := DBChannel.updated_at c;
                      DBChannel.last_checked_at := Some now;
                      DBChannel.is_active := DBChannel.is_active c |}
              else c)
           (channels db);
     videos := videos db;
     events := events db;
     videos_id_seq := videos_id_seq db;
     events_id_seq := events_id_seq db |}.

(** [getVideo]: [rows[0]] of the selection. *)
Definition getVideo (videoId : string) (db : DB) : option DBVideo.t :=
  find (fun r => String.eqb (DBVideo.video_id r) videoId) (videos db).

(** [x || null] on an optional number. *)
Definition or_null (x : option Z) : option Z :=
  match x with
  | Some d => if d =? 0 then None else Some d
  | None => None
  end.

Definition flag (b : bool) : Z := if b then 1 else 0.

(** The row [INSERT] proposes: every column that the statement does not
    list takes its default ([description] NULL, [bookmarked] 0,
    [created_at] now, [id] the next value of the sequence).  The
    [scheduled_start_time] of a [Date] is never the empty string, so
    [|| null] only maps [undefined] to NULL there.  A [TIMESTAMP] column
    holds a wall clock without zone: [toISOString()] writes the wall clock
    of UTC, which is the number of the instant itself; what the code gets
    back when it reads the column is [Driver.read] of it, below. *)
Definition proposed_row (now : Z) (video : VideoInfo.t) (channelId : string)
    (db : DB) : DBVideo.t :=
  {| DBVideo.id := videos_id_seq db;
     DBVideo.video_id := VideoInfo.videoId video;
     DBVideo.channel_id := channelId;
     DBVideo.title := VideoInfo.title video;
     DBVideo.description := None;
     DBVideo.thumbnail_url := VideoInfo.thumbnailUrl video;
     DBVideo.published_at := VideoInfo.publishedAt video;
     DBVideo.type := VideoInfo.type video;
     DBVideo.duration := or_null (VideoInfo.duration video);
     DBVideo.scheduled_start_time := VideoInfo.scheduledStartTime video;
     DBVideo.is_live := flag (VideoInfo.isLive video);
     DBVideo.is_live_content := flag (VideoInfo.isLiveContent video);
     DBVideo.is_upcoming := flag (VideoInfo.isUpcoming video);
     DBVideo.bookmarked := 0;
     DBVideo.created_at := now;
     DBVideo.updated_at := now |}.

(** [ON CONFLICT(video_id) DO UPDATE SET ...]: the nine listed columns
    are taken from [EXCLUDED], every other column keeps its value. *)
Definition conflict_update (now : Z) (old excluded : DBVideo.t) : DBVideo.t :=
  {| DBVideo.id := DBVideo.id old;
     DBVideo.video_id := DBVideo.video_id old;
     DBVideo.channel_id := DBVideo.channel_id old;
     DBVideo.title := DBVideo.title excluded;
     DBVideo.description := DBVideo.description old;
     DBVideo.thumbnail_url := DBVideo.thumbnail_url excluded;
     DBVideo.published_at := DBVideo.published_at old;
     DBVideo.type := DBVideo.type excluded;
     DBVideo.duration := DBVideo.duration excluded;
     DBVideo.scheduled_start_time := DBVideo.scheduled_start_time excluded;
     DBVideo.is_live := DBVideo.is_live excluded;
     DBVideo.is_live_content := DBVideo.is_live_content excluded;
     DBVideo.is_upcoming := DBVideo.is_upcoming excluded;
     DBVideo.bookmarked := DBVideo.bookmarked old;
     DBVideo.created_at := DBVideo.created_at old;
     DBVideo.updated_at := now |}.

(** The [INSERT ... ON CONFLICT ... RETURNING *] statement on the rows of
    [videos]: the conflicting row is updated where it stands, and without
    a conflict the proposed row is appended.  The result is the new table
    and the returned row. *)
Fixpoint insert_on_conflict (now : Z) (excluded : DBVideo.t)
    (rows : list DBVideo.t) : list DBVideo.t * DBVideo.t :=
  match rows with
  | [] => ([excluded], excluded)
  | r :: rest =>
      if String.eqb (DBVideo.video_id r) (DBVideo.video_id excluded)
      then let r' := conflict_update now r excluded in (r' :: rest, r')
      else let '(rest', ret) := insert_on_conflict now excluded rest in
           (r :: rest', ret)
  end.

(** [addEvent] *)
Definition addEvent (now : Z) (eventType : EventType) (videoId channelId : string)
    (data : option EventData) (db : DB) : DB * DBEvent.t :=
  let row := {| DBEvent.id := events_id_seq db;
                DBEvent.event_type := eventType;
                DBEvent.video_id := videoId;
                DBEvent.channel_id := channelId;
                DBEvent.data := data;
                DBEvent.created_at := now |} in
  ({| channels := channels db;
      videos := videos db;
      events := events db ++ [row];
      videos_id_seq := videos_id_seq db;
      events_id_seq := events_id_seq db + 1 |}, row).

(** The event chosen by [upsertVideo] from the row found before the
    statement ran and the incoming video. *)
Definition determineEvent (existing : option DBVideo.t) (video : VideoInfo.t)
    : option EventType :=
  match existing with
  | None =>
      if VideoInfo.isLive video then Some live_started
      else if VideoInfo.isUpcoming video then Some scheduled_live
      else Some new_video
  | Some existing =>
      if negb (truthy_int (DBVideo.is_live existing)) && VideoInfo.isLive video
      then Some live_started
      else if truthy_int (DBVideo.is_live existing) && negb (VideoInfo.isLive video)
      then Some live_ended
      else if negb (VideoType_eqb (DBVideo.type existing) (VideoInfo.type video))
              || negb (String.eqb (DBVideo.title existing) (VideoInfo.title video))
      then Some video_updated
      else None
  end.

(** [upsertVideo]: the sequence behind [id] advances on every [INSERT],
    also on one that ends in the conflict branch.  This is the call on the
    path on which both of its statements go through.  A statement that
    breaks a constraint of the schema (the foreign key of [channel_id], the
    range of a column) makes the call throw instead; [Database.accepts]
    below gives conditions under which neither does. *)
Definition upsertVideo (now : Z) (video : VideoInfo.t) (channelId : string)
    (db : DB) : DB * (DBVideo.t * option EventType) :=
  let existing := getVideo (VideoInfo.videoId video) db in
  let '(rows, dbVideo) :=
    insert_on_conflict now (proposed_row now video channelId db) (videos db) in
  let db1 := {| channels := channels db;
                videos := rows;
                events := events db;
                videos_id_seq := videos_id_seq db + 1;
                events_id_seq := events_id_seq db |} in
  let event := determineEvent existing video in
  match event with
  | Some e =>
      let data :=
        {| previousType := option_map DBVideo.type existing;
           newType := VideoInfo.type video;
           wasLive := match existing with
                      | Some x => DBVideo.is_live x =? 1
                      | None => false
                      end;
           data_isLive := VideoInfo.isLive video |} in
      let '(db2, _) := addEvent now e (VideoInfo.videoId video) channelId (Some data) db1 in
      (db2, (dbVideo, Some e))
  | None => (db1, (dbVideo, None))
  end.

(** [deleteVideo]: the events of the video, then the video. *)
Definition deleteVideo (videoId : string) (db : DB) : DB * bool :=
  let kept := filter (fun r => negb (String.eqb (DBVideo.video_id r) videoId)) (videos db) in
  ({| channels := channels db;
      videos := kept;
      events := filter (fun e => negb (String.eqb (DBEvent.video_id e) videoId)) (events db);
      videos_id_seq := videos_id_seq db;
      events_id_seq := events_id_seq db |},
   (List.length kept <? List.length (videos db))%nat).

(** [getLiveVideos]: [if (channelId)] is false for [undefined] and for the
    empty string. *)
Definition getLiveVideos (channelId : option string) (db : DB) : list DBVideo.t :=
  match channelId with
  | Some c =>
      if String.eqb c "" then filter (fun r => DBVideo.is_live r =? 1) (videos db)
      else filter (fun r => (DBVideo.is_live r =? 1)
                            && String.eqb (DBVideo.channel_id r) c) (videos db)
  | None => filter (fun r => DBVideo.is_live r =? 1) (videos db)
  end.

(** [bookmarkVideo] and [unbookmarkVideo] *)
Definition set_bookmarked (now : Z) (value : Z) (videoId : string) (db : DB) : DB * bool :=
  ({| channels := channels db;
      videos :=
        map (fun r =>
               if String.eqb (DBVideo.video_id r) videoId
               then {| DBVideo.id := DBVideo.id r;
                       DBVideo.video_id := DBVideo.video_id r;
                       DBVideo.channel_id := DBVideo.channel_id r;
                       DBVideo.title := DBVideo.title r;
                       DBVideo.description := DBVideo.description r;
                       DBVideo.thumbnail_url := DBVideo.thumbnail_url r;
                       DBVideo.published_at := DBVideo.published_at r;
                       DBVideo.type := DBVideo.type r;
                       DBVideo.duration := DBVideo.duration r;
                       DBVideo.scheduled_start_time := DBVideo.scheduled_start_time r;
                       DBVideo.is_live := DBVideo.is_live r;
                       DBVideo.is_live_content := DBVideo.is_live_content r;
                       DBVideo.is_upcoming := DBVideo.is_upcoming r;
                       DBVideo.bookmarked := value;
                       DBVideo.created_at := DBVideo.created_at r;
                       DBVideo.updated_at := now |}
               else r)
            (videos db);
      events := events db;
      videos_id_seq := videos_id_seq db;
      events_id_seq := events_id_seq db |},
   existsb (fun r => String.eqb (DBVideo.video_id r) videoId) (videos db)).

Definition bookmarkVideo (now : Z) := set_bookmarked now 1.
Definition unbookmarkVideo (now : Z) := set_bookmarked now 0.

(** *** Retention: [cleanupOldVideos] *)

(** [ORDER BY published_at DESC] inside one partition.  SQL leaves the
    order of rows with equal keys open; this sort keeps them in table
    order. *)
Fixpoint insert_desc (r : DBVideo.t) (sorted : list DBVideo.t) : list DBVideo.t :=
  match sorted with
  | [] => [r]
  | x :: rest =>
      if DBVideo.published_at x <=? DBVideo.published_at r
      then r :: x :: rest
      else x :: insert_desc r rest
  end.

Definition order_by_published_at_desc (rows : list DBVideo.t) : list DBVideo.t :=
  fold_right insert_desc [] rows.

(** The rows of one [PARTITION BY channel_id] window. *)
Definition partition_of (channelId : string) (rows : list DBVideo.t) : list DBVideo.t :=
  filter (fun r => String.eqb (DBVideo.channel_id r) channelId) rows.

(** The subquery [ranked]: every row with its [ROW_NUMBER()], counted from
    1 inside its partition. *)
Definition ranked (rows : list DBVideo.t) : list (nat * DBVideo.t) :=
  flat_map (fun c =>
              let window := order_by_published_at_desc (partition_of c rows) in
              combine (seq 1 (List.length window)) window)
           (nodup string_dec (map DBVideo.channel_id rows)).

(** [SELECT ... FROM ranked WHERE rn > $1 AND bookmarked = 0] *)
Definition beyond_limit (maxPerChannel : Z) (rows : list DBVideo.t) : list DBVideo.t :=
  map snd
      (filter (fun '(rn, r) => (maxPerChannel <? Z.of_nat rn) && (DBVideo.bookmarked r =? 0))
              (ranked rows)).

(** [cleanupOldVideos]: both statements run on the same [videos] table,
    the first deletes events by [video_id], the second videos by [id];
    the result carries [rowCount] of the second. *)
Definition cleanupOldVideos (maxPerChannel : Z) (db : DB) : DB * nat :=
  let video_ids := map DBVideo.video_id (beyond_limit maxPerChannel (videos db)) in
  let ids := map DBVideo.id (beyond_limit maxPerChannel (videos db)) in
  let kept := filter (fun r => negb (existsb (Z.eqb (DBVideo.id r)) ids)) (videos db) in
  ({| channels := channels db;
      videos := kept;
      events := filter (fun e => negb (existsb (String.eqb (DBEvent.video_id e)) video_ids))
                       (events db);
      videos_id_seq := videos_id_seq db;
      events_id_seq := events_id_seq db |},
   (List.length (videos db) - List.length kept)%nat).

End DatabaseService.

(** ** [services/monitor.ts] *)

Module ChannelInfo.
Record t : Type := mk {
  channelId : string;
  title : string;
  description : option string;
  thumbnailUrl : option string
}.
End ChannelInfo.

Module YouTubeMonitor.

Import DatabaseService.

(** [String.prototype.toLowerCase], on the letters A to Z: no character
    outside that range has one of [s h o r t] as its lower case, so the
    test for ['#shorts'] below does not see the difference. *)
Definition lower_ascii (c : ascii) : ascii :=
  let n := nat_of_ascii c in
  if ((65 <=? n) && (n <=? 90))%nat then ascii_of_nat (n + 32) else c.

Fixpoint toLowerCase (s : string) : string :=
  match s with
  | EmptyString => EmptyString
  | String c rest => String (lower_ascii c) (toLowerCase rest)
  end.

(** [haystack.includes(needle)] *)
Fixpoint includes (needle haystack : string) : bool :=
  String.prefix needle haystack
  || match haystack with
     | EmptyString => false
     | String _ rest => includes needle rest
     end.

(** The monitor's fields that a channel check reads and writes. *)
Record State : Type := mkState {
  db : DB;
  channelCache : list (string * ChannelInfo.t)
}.

Definition cache_get (channelId : string) (cache : list (string * ChannelInfo.t))
    : option ChannelInfo.t :=
  option_map snd (find (fun kv => String.eqb (fst kv) channelId) cache).

Definition cache_delete (channelId : string) (cache : list (string * ChannelInfo.t))
    : list (string * ChannelInfo.t) :=
  filter (fun kv => negb (String.eqb (fst kv) channelId)) cache.

Definition cache_set (channelId : string) (info : ChannelInfo.t)
    (cache : list (string * ChannelInfo.t)) : list (string * ChannelInfo.t) :=
  (channelId, info) :: cache_delete channelId cache.

(** Calls of [this.emit]. *)
Inductive Emitted : Type :=
  | EmitVideo (event : EventType) (video : VideoInfo.t) (channel : ChannelInfo.t)
  | EmitChannelChecked (channelId : string) (videosCount : nat).

(** [s || undefined] on a nullable string. *)
Definition or_undefined (s : option string) : option string :=
  match s with
  | Some x => if String.eqb x "" then None else Some x
  | None => None
  end.

(** "Obtém info do canal do cache ou banco" *)
Definition resolveChannelInfo (channelId : string) (st : State)
    : option ChannelInfo.t * list (string * ChannelInfo.t) :=
  match cache_get channelId (channelCache st) with
  | Some info => (Some info, channelCache st)
  | None =>
      match getChannel channelId (db st) with
      | Some dbChannel =>
          let info :=
            {| ChannelInfo.channelId := DBChannel.channel_id dbChannel;
               ChannelInfo.title := DBChannel.title dbChannel;
               ChannelInfo.description := or_undefined (DBChannel.description dbChannel);
               ChannelInfo.thumbnailUrl := or_undefined (DBChannel.thumbnail_url dbChannel) |} in
          (Some info, cache_set channelId info (channelCache st))
      | None => (None, channelCache st)
      end
  end.

(** The upsert of the live probe: [if (liveNow && channelInfo)]. *)
Definition upsertLiveNow (now : Z) (channelId : string)
    (liveNow : option VideoInfo.t) (channelInfo : option ChannelInfo.t)
    (d : DB) : DB * list Emitted :=
  match liveNow, channelInfo with
  | Some live, Some info =>
      let '(d', (_, event)) := upsertVideo now live channelId d in
      (d', match event with Some e => [EmitVideo e live info] | None => [] end)
  | _, _ => (d, [])
  end.

(** The guards of the feed loop, in the order of the source; [true] means
    that the loop reaches [db.upsertVideo(video, channelId)]. *)
Definition reachesUpsert (shortVideoIds : list string) (video : VideoInfo.t) : bool :=
  if VideoType_eqb (VideoInfo.type video) TShort then false
  else if truthy_num (VideoInfo.duration video)
          && match VideoInfo.duration video with
             | Some d => d <? 120
             | None => false
             end then false
  else if existsb (String.eqb (VideoInfo.videoId video)) shortVideoIds then false
  else if includes "#shorts" (toLowerCase (VideoInfo.title video)) then false
  else if VideoType_eqb (VideoInfo.type video) TVod || VideoInfo.isLiveContent video
       then false
  else if VideoType_eqb (VideoInfo.type video) TLive || VideoInfo.isLive video
       then false
  else VideoType_eqb (VideoInfo.type video) TVideo.

(** One iteration of [for (const video of videos)]. *)
Definition feedStep (now : Z) (channelId : string)
    (channelInfo : option ChannelInfo.t) (shortVideoIds : list string)
    (acc : DB * list Emitted) (video : VideoInfo.t) : DB * list Emitted :=
  let '(d, emitted) := acc in
  if reachesUpsert shortVideoIds video then
    let '(d', (_, event)) := upsertVideo now video channelId d in
    (d', emitted ++ match event, channelInfo with
                    | Some e, Some info => [EmitVideo e video info]
                    | _, _ => []
                    end)
  else (d, emitted).

Definition shortIdsOf (videos : list VideoInfo.t) : list string :=
  map VideoInfo.videoId
      (filter (fun v => VideoType_eqb (VideoInfo.type v) TShort) videos).

Definition processFeedVideos (now : Z) (channelId : string)
    (channelInfo : option ChannelInfo.t) (videos : list VideoInfo.t)
    (acc : DB * list Emitted) : DB * list Emitted :=
  fold_left (feedStep now channelId channelInfo (shortIdsOf videos)) videos acc.

(** [cleanupEndedLives]: the saved lives are read once, then walked. *)
Definition cleanupEndedLives (channelId : string) (currentLive : option VideoInfo.t)
    (d : DB) : DB :=
  fold_left
    (fun d' savedLive =>
       if match currentLive with
          | None => true
          | Some cur =>
              negb (String.eqb (DBVideo.video_id savedLive) (VideoInfo.videoId cur))
          end
       then fst (deleteVideo (DBVideo.video_id savedLive) d')
       else d')
    (getLiveVideos (Some channelId) d) d.

(** The store and the emissions of [checkChannel] at the point where it
    calls [cleanupEndedLives]: the probe result and the feed items have
    been written. *)
Definition upsertsOfCheck (now : Z) (channelId : string)
    (videos : list VideoInfo.t) (liveNow : option VideoInfo.t)
    (channelInfo : option ChannelInfo.t) (d : DB) : DB * list Emitted :=
  processFeedVideos now channelId channelInfo videos
    (upsertLiveNow now channelId liveNow channelInfo d).

(** [checkChannel] on its path without exception.  [feedResults] is what
    the three feeds answer and [liveNow] what [checkLiveStatus] answers. *)
Definition checkChannel (now : Z) (maxVideosPerFeed : nat)
    (feedResults : list (FeedType * list RSSItem.t))
    (liveNow : option VideoInfo.t) (channelId : string) (st : State)
    : State * list Emitted * list VideoInfo.t :=
  match getChannel channelId (db st) with
  | None =>
      ({| db := db st; channelCache := cache_delete channelId (channelCache st) |},
       [], [])
  | Some _ =>
      let videos :=
        YouTubeScraper.getChannelVideos_unclassified maxVideosPerFeed feedResults in
      let '(channelInfo, cache) := resolveChannelInfo channelId st in
      let '(d, emitted) :=
        upsertsOfCheck now channelId videos liveNow channelInfo (db st) in
      let d := cleanupEndedLives channelId liveNow d in
      let d := updateChannelLastChecked now channelId d in
      ({| db := d; channelCache := cache |},
       emitted ++ [EmitChannelChecked channelId (List.length videos)],
       videos)
  end.

End YouTubeMonitor.

(* ===================================================================== *)
(** * Part I, continued: the code around the functions above              *)
(* ===================================================================== *)

(** ** [http-client.ts]: the semaphore *)

Module Semaphore.

(** The fields of the class.  A waiting [acquire] is its [resolve]
    callback in [queue]; callbacks are named by the number of the caller. *)
Record t : Type := mk {
  permits : Z;
  queue : list nat
}.

(** [new Semaphore(permits)] *)
Definition create (n : Z) : t := {| permits := n; queue := [] |}.

(** [acquire]: [true] when the promise is resolved at once, [false] when
    the caller is put in the queue. *)
Definition acquire (caller : nat) (s : t) : t * bool :=
  if 0 <? permits s
  then ({| permits := permits s - 1; queue := queue s |}, true)
  else ({| permits := permits s; queue := queue s ++ [caller] |}, false).

(** [release]: the caller taken from the queue and resumed, if any. *)
Definition release (s : t) : t * option nat :=
  match queue s with
  | next :: rest => ({| permits := permits s; queue := rest |}, Some next)
  | [] => ({| permits := permits s + 1; queue := [] |}, None)
  end.

End Semaphore.

(** ** Text functions of [youtube-scraper.ts], [channel-extractor.ts] and
    [services/rss-generator.ts] *)

Module Text.

(** [text.replace(/pattern/g, replacement)] for a pattern that is a plain
    text: the matches are taken from left to right and do not overlap.
    [skip] counts the characters of a match that are still to be dropped.
    Strings are sequences of bytes; the patterns below are ASCII, and no
    byte of a longer UTF-8 sequence is ASCII. *)
Fixpoint replaceAll_from (pattern replacement : string) (skip : nat)
    (text : string) : string :=
  match text with
  | EmptyString => EmptyString
  | String c rest =>
      match skip with
      | S k => replaceAll_from pattern replacement k rest
      | O =>
          if String.prefix pattern text
          then (replacement
                ++ replaceAll_from pattern replacement
                     (String.length pattern - 1) rest)%string
          else String c (replaceAll_from pattern replacement 0 rest)
      end
  end.

Definition replaceAll (pattern replacement text : string) : string :=
  replaceAll_from pattern replacement 0 text.

(** The double quote character, as a text. *)
Definition quote : string := String (ascii_of_nat 34) EmptyString.

(** [decodeHtmlEntities] of [youtube-scraper.ts] *)
Definition decodeHtmlEntities (text : string) : string :=
  replaceAll "&#x2F;" "/"
    (replaceAll "&#x27;" "'"
       (replaceAll "&#39;" "'"
          (replaceAll "&quot;" quote
             (replaceAll "&gt;" ">"
                (replaceAll "&lt;" "<"
                   (replaceAll "&amp;" "&" text)))))).

(** [decodeHtmlEntities] of [channel-extractor.ts]: one more entity. *)
Definition decodeHtmlEntities_channel (text : string) : string :=
  replaceAll "&nbsp;" " " (decodeHtmlEntities text).

(** [escapeXml] of [services/rss-generator.ts] *)
Definition escapeXml (text : string) : string :=
  replaceAll "'" "&#39;"
    (replaceAll quote "&quot;"
       (replaceAll ">" "&gt;"
          (replaceAll "<" "&lt;"
             (replaceAll "&" "&amp;" text)))).

End Text.

(** ** [video-classifier.ts]: classification of a fetched page *)

Module VideoClassification.

Section WithExtraction.

(** [extractPlayerResponse] reads the signals off the page with regular
    expressions; it is taken as it is. *)
Variable extractPlayerResponse : string -> YTPlayerResponse.t.

(** The [props: {}] of the fallback. *)
Definition noProps : YTPlayerResponse.t :=
  {| YTPlayerResponse.isLive := None;
     YTPlayerResponse.isLiveContent := None;
     YTPlayerResponse.isUpcoming := None;
     YTPlayerResponse.duration := None;
     YTPlayerResponse.scheduledStartTime := None |}.

(** [getVideoClassification], from what [client.get(url)] gave. *)
Definition getVideoClassification (feedHint : option FeedHint)
    (fetched : HttpClient.Result) : VideoType * YTPlayerResponse.t :=
  match fetched with
  | HttpClient.Returns html =>
      let props := extractPlayerResponse html in
      (Classifier.classifyVideo props feedHint, props)
  | HttpClient.Rejects _ =>
      (match feedHint with
       | Some HintShorts => TShort
       | Some HintLives => TVod
       | None => TVideo
       end, noProps)
  end.

End WithExtraction.

End VideoClassification.

(** ** [youtube-scraper.ts]: classification of the stubs, the live probe *)

Module Scraping.

(** The [Map<string, 'shorts' | 'lives'>] named [feedHints]: [set] on a key
    that is there overwrites its value. *)
Fixpoint hints_set (videoId : string) (hint : FeedHint)
    (hints : list (string * FeedHint)) : list (string * FeedHint) :=
  match hints with
  | [] => [(videoId, hint)]
  | (k, h) :: rest =>
      if String.eqb k videoId then (k, hint) :: rest
      else (k, h) :: hints_set videoId hint rest
  end.

Definition hints_get (videoId : string) (hints : list (string * FeedHint))
    : option FeedHint :=
  option_map snd (find (fun kh => String.eqb (fst kh) videoId) hints).

(** The hints set while the stubs are pushed: one [set] for every item of
    the shorts and lives feeds, in the order of the loop. *)
Definition feedHintsOf (maxVideosPerFeed : nat)
    (feedResults : list (FeedType * list RSSItem.t)) : list (string * FeedHint) :=
  fold_left
    (fun hints '(feedType, items) =>
       fold_left
         (fun hints item =>
            match feedType with
            | FShorts => hints_set (RSSItem.videoId item) HintShorts hints
            | FLives => hints_set (RSSItem.videoId item) HintLives hints
            | FVideos => hints
            end)
         (firstn maxVideosPerFeed items) hints)
    feedResults [].

(** The stubs pushed by the loop over the feeds. *)
Definition stubsOf (maxVideosPerFeed : nat)
    (feedResults : list (FeedType * list RSSItem.t)) : list VideoInfo.t :=
  flat_map (fun '(feedType, items) =>
              map (YouTubeScraper.stubOfItem feedType) (firstn maxVideosPerFeed items))
           feedResults.

Section WithExtraction.

Variable extractPlayerResponse : string -> YTPlayerResponse.t.

(** The body of [classifyVideosList] for one stub: [fetched] is what the
    request for the page of this stub gave. *)
Definition classifyStub (feedHints : list (string * FeedHint))
    (video : VideoInfo.t) (fetched : HttpClient.Result) : VideoInfo.t :=
  let hint := hints_get (VideoInfo.videoId video) feedHints in
  let '(type, props) :=
    VideoClassification.getVideoClassification extractPlayerResponse hint fetched in
  {| VideoInfo.videoId := VideoInfo.videoId video;
     VideoInfo.title := VideoInfo.title video;
     VideoInfo.publishedAt := VideoInfo.publishedAt video;
     VideoInfo.thumbnailUrl := VideoInfo.thumbnailUrl video;
     VideoInfo.type := type;
     VideoInfo.duration := YTPlayerResponse.duration props;
     VideoInfo.scheduledStartTime := YTPlayerResponse.scheduledStartTime props;
     VideoInfo.isLive := truthy_flag (YTPlayerResponse.isLive props);
     VideoInfo.isLiveContent := truthy_flag (YTPlayerResponse.isLiveContent props);
     VideoInfo.isUpcoming := truthy_flag (YTPlayerResponse.isUpcoming props) |}.

(** [classifyVideosList]: the stub at place [i] meets [fetched i]. *)
Fixpoint classifyVideosList_from (feedHints : list (string * FeedHint))
    (fetched : nat -> HttpClient.Result) (i : nat) (videos : list VideoInfo.t)
    : list VideoInfo.t :=
  match videos with
  | [] => []
  | video :: rest =>
      classifyStub feedHints video (fetched i)
      :: classifyVideosList_from feedHints fetched (S i) rest
  end.

(** [getChannelVideos] with its option [classifyVideos]. *)
Definition getChannelVideos (classifyVideos : bool) (maxVideosPerFeed : nat)
    (feedResults : list (FeedType * list RSSItem.t))
    (fetched : nat -> HttpClient.Result) : list VideoInfo.t :=
  let videos := stubsOf maxVideosPerFeed feedResults in
  let feedHints := feedHintsOf maxVideosPerFeed feedResults in
  YouTubeScraper.deduplicateVideos
    (if classifyVideos
     then classifyVideosList_from feedHints fetched 0 videos
     else videos).

(** [checkLiveStatus].  The search of the page for the video of the channel
    and for its title is done with regular expressions; [findVideoId] and
    [findTitle] stand for these two searches.  [now] is [new Date()]. *)
Definition checkLiveStatus
    (findVideoId : string -> string -> option string)
    (findTitle : string -> string)
    (now : Z) (channelId : string) (fetched : HttpClient.Result)
    : option VideoInfo.t :=
  match fetched with
  | HttpClient.Rejects _ => None
  | HttpClient.Returns html =>
      let props := extractPlayerResponse html in
      if truthy_flag (YTPlayerResponse.isLive props) then
        match findVideoId html channelId with
        | None => None
        | Some correctVideoId =>
            Some {| VideoInfo.videoId := correctVideoId;
                    VideoInfo.title := Text.decodeHtmlEntities (findTitle html);
                    VideoInfo.publishedAt := now;
                    VideoInfo.thumbnailUrl :=
                      ("https://i.ytimg.com/vi/" ++ correctVideoId
                       ++ "/maxresdefault.jpg")%string;
                    VideoInfo.type := TLive;
                    VideoInfo.duration := None;
                    VideoInfo.scheduledStartTime :=
                      YTPlayerResponse.scheduledStartTime props;
                    VideoInfo.isLive := true;
                    VideoInfo.isLiveContent := false;
                    VideoInfo.isUpcoming := false |}
        end
      else None
  end.

End WithExtraction.

End Scraping.

(** ** [db/database.ts]: channels, queries, bookmarks, cleanup *)

Module Database.

Import DatabaseService.

(** The row [INSERT INTO channels] proposes; [serial] is the next value of
    the sequence behind [id], [is_active] takes its default 1. *)
Definition proposed_channel (now serial : Z) (channel : ChannelInfo.t) : DBChannel.t :=
  {| DBChannel.id := serial;
     DBChannel.channel_id := ChannelInfo.channelId channel;
     DBChannel.title := ChannelInfo.title channel;
     DBChannel.description := YouTubeMonitor.or_undefined (ChannelInfo.description channel);
     DBChannel.thumbnail_url := YouTubeMonitor.or_undefined (ChannelInfo.thumbnailUrl channel);
     DBChannel.created_at := now;
     DBChannel.updated_at := now;
     DBChannel.last_checked_at := None;
     DBChannel.is_active := 1 |}.

(** [ON CONFLICT(channel_id) DO UPDATE SET title, description,
    thumbnail_url, updated_at] *)
Definition channel_conflict_update (now : Z) (old excluded : DBChannel.t) : DBChannel.t :=
  {| DBChannel.id := DBChannel.id old;
     DBChannel.channel_id := DBChannel.channel_id old;
     DBChannel.title := DBChannel.title excluded;
     DBChannel.description := DBChannel.description excluded;
     DBChannel.thumbnail_url := DBChannel.thumbnail_url excluded;
     DBChannel.created_at := DBChannel.created_at old;
     DBChannel.updated_at := now;
     DBChannel.last_checked_at := DBChannel.last_checked_at old;
     DBChannel.is_active := DBChannel.is_active old |}.

Fixpoint insert_channel_on_conflict (now : Z) (excluded : DBChannel.t)
    (rows : list DBChannel.t) : list DBChannel.t * DBChannel.t :=
  match rows with
  | [] => ([excluded], excluded)
  | r :: rest =>
      if String.eqb (DBChannel.channel_id r) (DBChannel.channel_id excluded)
      then let r' := channel_conflict_update now r excluded in (r' :: rest, r')
      else let '(rest', ret) := insert_channel_on_conflict now excluded rest in
           (r :: rest', ret)
  end.

Definition with_channels (rows : list DBChannel.t) (db : DB) : DB :=
  {| channels := rows;
     videos := videos db;
     events := events db;
     videos_id_seq := videos_id_seq db;
     events_id_seq := events_id_seq db |}.

Definition with_events (rows : list DBEvent.t) (db : DB) : DB :=
  {| channels := channels db;
     videos := videos db;
     events := rows;
     videos_id_seq := videos_id_seq db;
     events_id_seq := events_id_seq db |}.

(** [upsertChannel] *)
Definition upsertChannel (now serial : Z) (channel : ChannelInfo.t) (db : DB)
    : DB * DBChannel.t :=
  let '(rows, row) :=
    insert_channel_on_conflict now (proposed_channel now serial channel) (channels db) in
  (with_channels rows db, row).

(** [getActiveChannels] *)
Definition getActiveChannels (db : DB) : list DBChannel.t :=
  filter (fun c => DBChannel.is_active c =? 1) (channels db).

(** [deactivateChannel] *)
Definition deactivateChannel (channelId : string) (db : DB) : DB :=
  with_channels
    (map (fun c =>
            if String.eqb (DBChannel.channel_id c) channelId
            then {| DBChannel.id := DBChannel.id c;
                    DBChannel.channel_id := DBChannel.channel_id c;
                    DBChannel.title := DBChannel.title c;
                    DBChannel.description := DBChannel.description c;
                    DBChannel.thumbnail_url := DBChannel.thumbnail_url c;
                    DBChannel.created_at := DBChannel.created_at c;
                    DBChannel.updated_at := DBChannel.updated_at c;
                    DBChannel.last_checked_at := DBChannel.last_checked_at c;
                    DBChannel.is_active := 0 |}
            else c)
         (channels db))
    db.

(** [getChannelVideos]: [ORDER BY published_at DESC LIMIT $2] *)
Definition getChannelVideos (channelId : string) (limit : nat) (db : DB)
    : list DBVideo.t :=
  firstn limit (order_by_published_at_desc (partition_of channelId (videos db))).

(** *** When the statements of [upsertVideo] go through *)

(** [FOREIGN KEY (channel_id) REFERENCES channels(channel_id)], on [videos]
    and on [events]. *)
Definition channelStored (channelId : string) (db : DB) : bool :=
  existsb (fun c => String.eqb (DBChannel.channel_id c) channelId) (channels db).

(** [INTEGER] is a 32-bit column. *)
Definition integerFits (n : Z) : bool :=
  (-2147483648 <=? n) && (n <=? 2147483647).

(** [TEXT] holds no character of code 0. *)
Fixpoint textFits (text : string) : bool :=
  match text with
  | EmptyString => true
  | String c rest => negb (Ascii.eqb c Ascii.zero) && textFits rest
  end.

(** A date that [toISOString()] writes with a four-digit year from 0001 to
    9999, which the cast to [TIMESTAMP] reads: from 0001-01-01T00:00:00.000Z
    to 9999-12-31T23:59:59.999Z. *)
Definition timestampFits (instant : Z) : bool :=
  (-62135596800000 <=? instant) && (instant <=? 253402300799999).

(** Conditions under which the [INSERT] into [videos] and the [INSERT] into
    [events] of [upsertVideo] both go through: the channel has its row, and
    every value fits its column. *)
Definition accepts (video : VideoInfo.t) (channelId : string) (db : DB) : bool :=
  channelStored channelId db
  && textFits (VideoInfo.videoId video)
  && textFits (VideoInfo.title video)
  && textFits (VideoInfo.thumbnailUrl video)
  && match or_null (VideoInfo.duration video) with
     | Some seconds => integerFits seconds
     | None => true
     end
  && timestampFits (VideoInfo.publishedAt video)
  && match VideoInfo.scheduledStartTime video with
     | Some instant => timestampFits instant
     | None => true
     end.

(** [isBookmarked]: [rows[0]?.bookmarked === 1] *)
Definition isBookmarked (videoId : string) (db : DB) : bool :=
  match getVideo videoId db with
  | Some r => DBVideo.bookmarked r =? 1
  | None => false
  end.

(** One day, in the unit of the timestamps. *)
Definition day_ms : Z := 86400000.

(** [cleanupOldEvents]: [created_at < NOW() - INTERVAL '1 day' * $1] *)
Definition cleanupOldEvents (now days : Z) (db : DB) : DB * nat :=
  let kept :=
    filter (fun e => negb (DBEvent.created_at e <? now - day_ms * days)) (events db) in
  (with_events kept db, (List.length (events db) - List.length kept)%nat).

(** [cleanupOrphanEvents]: [video_id NOT IN (SELECT video_id FROM videos)] *)
Definition cleanupOrphanEvents (db : DB) : DB * nat :=
  let kept :=
    filter (fun e => existsb (String.eqb (DBEvent.video_id e))
                             (map DBVideo.video_id (videos db)))
           (events db) in
  (with_events kept db, (List.length (events db) - List.length kept)%nat).

(** [runCleanup]: the three routines in the order of the source, and the
    three counts. *)
Definition runCleanup (now : Z) (maxVideosPerChannel maxEventDays : option Z)
    (db : DB) : DB * (nat * nat * nat) :=
  let maxVideos := match maxVideosPerChannel with Some n => n | None => 10 end in
  let maxDays := match maxEventDays with Some n => n | None => 3 end in
  let '(db1, deletedVideos) := cleanupOldVideos maxVideos db in
  let '(db2, deletedEvents) := cleanupOldEvents now maxDays db1 in
  let '(db3, deletedOrphanEvents) := cleanupOrphanEvents db2 in
  (db3, (deletedVideos, deletedEvents, deletedOrphanEvents)).

(** [ORDER BY created_at DESC] on events; rows with equal times stay in
    table order. *)
Fixpoint insert_event_desc (e : DBEvent.t) (sorted : list DBEvent.t) : list DBEvent.t :=
  match sorted with
  | [] => [e]
  | x :: rest =>
      if DBEvent.created_at x <=? DBEvent.created_at e
      then e :: x :: rest
      else x :: insert_event_desc e rest
  end.

(** [getRecentEvents] *)
Definition getRecentEvents (limit : nat) (db : DB) : list DBEvent.t :=
  firstn limit (fold_right insert_event_desc [] (events db)).

End Database.

(** ** Reading rows: the [TIMESTAMP] columns *)

Module Driver.

(** The driver hands a [TIMESTAMP] column to the code as the [Date] that
    shows this wall clock in the time zone of the process.  [localOffset w]
    is the offset of that zone from UTC, in milliseconds, at the wall clock
    [w]: 0 under UTC, [-10800000] in a zone three hours behind UTC. *)
Definition read (localOffset : Z -> Z) (wall : Z) : Z := wall - localOffset wall.

(** A row of [videos] as the code gets it from a query. *)
Definition videoRow (localOffset : Z -> Z) (row : DBVideo.t) : DBVideo.t :=
  {| DBVideo.id := DBVideo.id row;
     DBVideo.video_id := DBVideo.video_id row;
     DBVideo.channel_id := DBVideo.channel_id row;
     DBVideo.title := DBVideo.title row;
     DBVideo.description := DBVideo.description row;
     DBVideo.thumbnail_url := DBVideo.thumbnail_url row;
     DBVideo.published_at := read localOffset (DBVideo.published_at row);
     DBVideo.type := DBVideo.type row;
     DBVideo.duration := DBVideo.duration row;
     DBVideo.scheduled_start_time :=
       option_map (read localOffset) (DBVideo.scheduled_start_time row);
     DBVideo.is_live := DBVideo.is_live row;
     DBVideo.is_live_content := DBVideo.is_live_content row;
     DBVideo.is_upcoming := DBVideo.is_upcoming row;
     DBVideo.bookmarked := DBVideo.bookmarked row;
     DBVideo.created_at := read localOffset (DBVideo.created_at row);
     DBVideo.updated_at := read localOffset (DBVideo.updated_at row) |}.

End Driver.

(** ** [services/monitor.ts]: the cycle, the timer, conversions *)

Module Monitor.

Import DatabaseService.

(** [Required<MonitorConfig>], without the connection string. *)
Record Config : Type := mkConfig {
  pollingInterval : Z;
  classifyVideos : bool;
  maxVideosPerFeed : nat;
  maxVideosPerChannel : Z;
  maxEventDays : Z
}.

(** [dbVideoToVideoInfo] *)
Definition dbVideoToVideoInfo (dbVideo : DBVideo.t) : VideoInfo.t :=
  {| VideoInfo.videoId := DBVideo.video_id dbVideo;
     VideoInfo.title := DBVideo.title dbVideo;
     VideoInfo.publishedAt := DBVideo.published_at dbVideo;
     VideoInfo.thumbnailUrl := DBVideo.thumbnail_url dbVideo;
     VideoInfo.type := DBVideo.type dbVideo;
     VideoInfo.duration := or_null (DBVideo.duration dbVideo);
     VideoInfo.scheduledStartTime := DBVideo.scheduled_start_time dbVideo;
     VideoInfo.isLive := DBVideo.is_live dbVideo =? 1;
     VideoInfo.isLiveContent := DBVideo.is_live_content dbVideo =? 1;
     VideoInfo.isUpcoming := DBVideo.is_upcoming dbVideo =? 1 |}.

(** [getLiveVideos] of the monitor, on the rows as the query gives them *)
Definition getLiveVideos (localOffset : Z -> Z) (st : YouTubeMonitor.State)
    : list VideoInfo.t :=
  map (fun row => dbVideoToVideoInfo (Driver.videoRow localOffset row))
      (DatabaseService.getLiveVideos None (YouTubeMonitor.db st)).

(** [removeChannel] *)
Definition removeChannel (channelId : string) (st : YouTubeMonitor.State)
    : YouTubeMonitor.State :=
  {| YouTubeMonitor.db := Database.deactivateChannel channelId (YouTubeMonitor.db st);
     YouTubeMonitor.channelCache :=
       YouTubeMonitor.cache_delete channelId (YouTubeMonitor.channelCache st) |}.

(** Calls of [this.emit] during a cycle. *)
Inductive CycleEmitted : Type :=
  | Checked (e : YouTubeMonitor.Emitted)
  | CycleComplete (channels videos events : nat).

(** The loop of [checkAllChannels] over the active channels read at its
    start; [feedsOf] and [liveOf] are what the feeds and the live probe of
    a channel answer during this cycle.  The state, the emissions and
    [totalVideos] are threaded through. *)
Definition checkEach (now : Z) (config : Config)
    (feedsOf : string -> list (FeedType * list RSSItem.t))
    (liveOf : string -> option VideoInfo.t)
    (channels : list DBChannel.t) (st : YouTubeMonitor.State)
    : YouTubeMonitor.State * list YouTubeMonitor.Emitted * nat :=
  fold_left
    (fun '(st, emitted, totalVideos) channel =>
       let channelId := DBChannel.channel_id channel in
       let '(st', emitted', videos) :=
         YouTubeMonitor.checkChannel now (maxVideosPerFeed config)
           (feedsOf channelId) (liveOf channelId) channelId st in
       (st', emitted ++ emitted', (totalVideos + List.length videos)%nat))
    channels (st, [], 0%nat).

(** [checkAllChannels] *)
Definition checkAllChannels (now : Z) (config : Config)
    (feedsOf : string -> list (FeedType * list RSSItem.t))
    (liveOf : string -> option VideoInfo.t)
    (st : YouTubeMonitor.State) : YouTubeMonitor.State * list CycleEmitted :=
  let channels := Database.getActiveChannels (YouTubeMonitor.db st) in
  let '(st1, emitted, totalVideos) := checkEach now config feedsOf liveOf channels st in
  let totalEvents := List.length (Database.getRecentEvents 100 (YouTubeMonitor.db st1)) in
  let '(db2, _) :=
    Database.runCleanup now (Some (maxVideosPerChannel config))
      (Some (maxEventDays config)) (YouTubeMonitor.db st1) in
  ({| YouTubeMonitor.db := db2;
      YouTubeMonitor.channelCache := YouTubeMonitor.channelCache st1 |},
   map Checked emitted ++ [CycleComplete (List.length channels) totalVideos totalEvents]).

(** *** [start] and [stop] *)

(** The fields that [start] and [stop] read and write, and the handle that
    the runtime gives to the next [setInterval]. *)
Record RunState : Type := mkRunState {
  initialized : bool;
  isRunning : bool;
  pollingTimer : option nat;
  nextTimer : nat
}.

Inductive RunEffect : Type :=
  | GetDatabase
  | RunCycle
  | SetInterval (timer : nat) (ms : Z)
  | ClearInterval (timer : nat).

(** [new YouTubeMonitor(config)] *)
Definition created (firstTimer : nat) : RunState :=
  {| initialized := false; isRunning := false; pollingTimer := None;
     nextTimer := firstTimer |}.

(** [start], each call run to its end before the next call.  [connected]
    says whether [getDatabase] resolves when [initialize] calls it: when it
    rejects, so does [start], before it has written a field. *)
Definition start (config : Config) (connected : bool) (s : RunState)
    : RunState * list RunEffect :=
  if isRunning s then (s, [])
  else if negb (initialized s) && negb connected then (s, [GetDatabase])
  else
    ({| initialized := true;
        isRunning := true;
        pollingTimer := Some (nextTimer s);
        nextTimer := S (nextTimer s) |},
     (if initialized s then [] else [GetDatabase])
     ++ [RunCycle; SetInterval (nextTimer s) (pollingInterval config)]).

(** [stop] *)
Definition stop (s : RunState) : RunState * list RunEffect :=
  if negb (isRunning s) then (s, [])
  else
    ({| initialized := initialized s;
        isRunning := false;
        pollingTimer := None;
        nextTimer := nextTimer s |},
     match pollingTimer s with
     | Some timer => [ClearInterval timer]
     | None => []
     end).

End Monitor.

(* ===================================================================== *)
(** * Part II: the vocabulary of the statements                           *)
(* ===================================================================== *)

(** ** The rules of the classifier *)

Section ClassifierRules.

Import Classifier.

Variable props : YTPlayerResponse.t.
Variable feedHint : option FeedHint.

(** The conditions of the six rules, read off the signal tuple. *)
Definition upcoming_with_start : Prop :=
  YTPlayerResponse.isUpcoming props = Some true
  /\ exists t, YTPlayerResponse.scheduledStartTime props = Some t.

Definition live_now : Prop := YTPlayerResponse.isLive props = Some true.

Definition was_live_recording : Prop :=
  YTPlayerResponse.isLiveContent props = Some true.

Definition short_duration : Prop :=
  exists d, YTPlayerResponse.duration props = Some d /\ d <= 90.

Definition from_shorts_feed : Prop := feedHint = Some HintShorts.

End ClassifierRules.

(** ** Deduplication *)

(** The identifiers of a list of records, in order. *)
Definition ids (l : list VideoInfo.t) : list string := map VideoInfo.videoId l.

(** Written from the specification, to be compared with
    [YouTubeScraper.shouldReplace]: the types that outrank plain [video]. *)
Definition specific_type (t : VideoType) : bool :=
  match t with
  | TVod | TLive | TScheduled => true
  | TVideo | TShort => false
  end.

(** Written from the specification (and from the comment above
    [deduplicateVideos], "Prioridade: isLive > isLiveContent > isUpcoming >
    primeiro encontrado"): the newcomer strictly dominates the kept record
    when it wins on the first criterion, in the order live-now,
    was-recording, is-upcoming, type-specificity, on which the two differ. *)
Definition strictly_dominates (newcomer kept : VideoInfo.t) : bool :=
  if negb (Bool.eqb (VideoInfo.isLive newcomer) (VideoInfo.isLive kept))
  then VideoInfo.isLive newcomer
  else if negb (Bool.eqb (VideoInfo.isLiveContent newcomer) (VideoInfo.isLiveContent kept))
  then VideoInfo.isLiveContent newcomer
  else if negb (Bool.eqb (VideoInfo.isUpcoming newcomer) (VideoInfo.isUpcoming kept))
  then VideoInfo.isUpcoming newcomer
  else specific_type (VideoInfo.type newcomer)
       && VideoType_eqb (VideoInfo.type kept) TVideo.

(** One live stream seen twice: first as the running broadcast, then as a
    recording that is no longer live. *)
Definition seenLive : VideoInfo.t :=
  {| VideoInfo.videoId := "dQw4w9WgXcQ";
     VideoInfo.title := "Stream";
     VideoInfo.publishedAt := 1700000000000;
     VideoInfo.thumbnailUrl := "https://i.ytimg.com/vi/dQw4w9WgXcQ/hqdefault.jpg";
     VideoInfo.type := TLive;
     VideoInfo.duration := None;
     VideoInfo.scheduledStartTime := None;
     VideoInfo.isLive := true;
     VideoInfo.isLiveContent := false;
     VideoInfo.isUpcoming := false |}.

Definition seenRecording : VideoInfo.t :=
  {| VideoInfo.videoId := "dQw4w9WgXcQ";
     VideoInfo.title := "Stream";
     VideoInfo.publishedAt := 1700000000000;
     VideoInfo.thumbnailUrl := "https://i.ytimg.com/vi/dQw4w9WgXcQ/hqdefault.jpg";
     VideoInfo.type := TVod;
     VideoInfo.duration := None;
     VideoInfo.scheduledStartTime := None;
     VideoInfo.isLive := false;
     VideoInfo.isLiveContent := true;
     VideoInfo.isUpcoming := false |}.

(** ** Outcomes of a request *)

Section Outcomes.

Import HttpClient.

(** A response with status 429. *)
Definition rateLimited (o : Outcome) : Prop :=
  exists r, o = Responds r /\ resp_status r = 429.

(** A response with a 2xx status and the given body. *)
Definition succeedsWith (body : string) (o : Outcome) : Prop :=
  exists r, o = Responds r /\ ok r = true /\ text r = body.

(** An outcome after which the loop goes on: a response that is neither
    2xx nor 404 nor 403, or an exception without such a status. *)
Definition retried (o : Outcome) : bool :=
  match o with
  | Responds r => negb (ok r) && negb (nonRetryable (httpError r))
  | Throws e => negb (nonRetryable e)
  end.

End Outcomes.

(** Responses used in the examples below. *)
Definition tooManyRequests : HttpClient.Response :=
  {| HttpClient.resp_status := 429;
     HttpClient.statusText := "Too Many Requests";
     HttpClient.retryAfter := Some 1;
     HttpClient.text := "" |}.

Definition okPage : HttpClient.Response :=
  {| HttpClient.resp_status := 200;
     HttpClient.statusText := "OK";
     HttpClient.retryAfter := None;
     HttpClient.text := "<html>page</html>" |}.

Definition notFound : HttpClient.Response :=
  {| HttpClient.resp_status := 404;
     HttpClient.statusText := "Not Found";
     HttpClient.retryAfter := None;
     HttpClient.text := "" |}.

(** [n] responses 429, then the page. *)
Definition rateLimitsThenPage (n attempt : nat) : HttpClient.Outcome :=
  if (attempt <? n)%nat then HttpClient.Responds tooManyRequests
  else HttpClient.Responds okPage.

(** ** The lifecycle table *)

(** Written from the specification (the table of section 4.4), to be
    compared with what [upsertVideo] returns: the previous persisted state
    of an item ... *)
Inductive Previous : Type :=
  | Absent
  | Stored (isLiveNow : bool) (type : VideoType) (title : string).

(** ... and the event of each row of the table, for the newly observed
    signals, type and title. *)
Definition lifecycle_table (previous : Previous) (isLiveNow isUpcoming : bool)
    (type : VideoType) (title : string) : option EventType :=
  match previous, isLiveNow with
  | Absent, true => Some live_started
  | Absent, false => if isUpcoming then Some scheduled_live else Some new_video
  | Stored false _ _, true => Some live_started
  | Stored true _ _, false => Some live_ended
  | Stored _ storedType storedTitle, _ =>
      if VideoType_eqb storedType type && String.eqb storedTitle title
      then None
      else Some video_updated
  end.

(** The previous persisted state of a video, as the table reads it. *)
Definition previousState (videoId : string) (db : DatabaseService.DB) : Previous :=
  match DatabaseService.getVideo videoId db with
  | None => Absent
  | Some r => Stored (truthy_int (DBVideo.is_live r)) (DBVideo.type r) (DBVideo.title r)
  end.

(** ** Retention *)

(** [newerFirst x y]: [x] may stand before [y] under
    [ORDER BY published_at DESC]. *)
Definition newerFirst (x y : DBVideo.t) : Prop :=
  DBVideo.published_at y <= DBVideo.published_at x.

(** The rows of channel [c] in [before] that [after] no longer holds. *)
Definition deletedRows (c : string) (before after : DatabaseService.DB) : list DBVideo.t :=
  filter (fun r => negb (existsb (Z.eqb (DBVideo.id r))
                                 (map DBVideo.id (DatabaseService.videos after))))
         (DatabaseService.partition_of c (DatabaseService.videos before)).

Definition unbookmarked (r : DBVideo.t) : bool := DBVideo.bookmarked r =? 0.

(** Seventeen videos of one channel, published on seventeen successive days;
    [bookmarks] lists the days whose video is bookmarked. *)
Definition retentionRow (bookmarks : list Z) (day : Z) : DBVideo.t :=
  {| DBVideo.id := day;
     DBVideo.video_id := "video-" ++ HttpClient.string_of_Z day;
     DBVideo.channel_id := "UC-retention";
     DBVideo.title := "Upload";
     DBVideo.description := None;
     DBVideo.thumbnail_url := "";
     DBVideo.published_at := 1700000000000 + day * 86400000;
     DBVideo.type := TVideo;
     DBVideo.duration := None;
     DBVideo.scheduled_start_time := None;
     DBVideo.is_live := 0;
     DBVideo.is_live_content := 0;
     DBVideo.is_upcoming := 0;
     DBVideo.bookmarked := if existsb (Z.eqb day) bookmarks then 1 else 0;
     DBVideo.created_at := 1700000000000 + day * 86400000;
     DBVideo.updated_at := 1700000000000 + day * 86400000 |}.

Definition retentionStore (bookmarks : list Z) : DatabaseService.DB :=
  {| DatabaseService.channels := [];
     DatabaseService.videos := map (fun n => retentionRow bookmarks (Z.of_nat n)) (seq 1 17);
     DatabaseService.events := [];
     DatabaseService.videos_id_seq := 18;
     DatabaseService.events_id_seq := 1 |}.

(** The two newest videos are the bookmarked ones. *)
Definition bookmarksNewest : DatabaseService.DB := retentionStore [16; 17].

(** The two oldest videos are the bookmarked ones. *)
Definition bookmarksOldest : DatabaseService.DB := retentionStore [1; 2].

(** ** The channel check *)




(** The store when [checkChannel] calls [cleanupEndedLives]. *)
Definition storeBeforeCleanup (now : Z) (maxVideosPerFeed : nat)
    (feedResults : list (FeedType * list RSSItem.t))
    (liveNow : option VideoInfo.t) (channelId : string)
    (st : YouTubeMonitor.State) : DatabaseService.DB :=
  fst (YouTubeMonitor.upsertsOfCheck now channelId
         (YouTubeScraper.getChannelVideos_unclassified maxVideosPerFeed feedResults)
         liveNow (fst (YouTubeMonitor.resolveChannelInfo channelId st))
         (YouTubeMonitor.db st)).

(** The events that the upsert of an item which is neither live nor
    upcoming can give. *)
Definition plainEvent (e : EventType) : Prop :=
  e = new_video \/ e = live_ended \/ e = video_updated.

Definition isVideo (v : VideoInfo.t) : bool := VideoType_eqb (VideoInfo.type v) TVideo.

(** A store with one channel and two videos of it that were both left
    live by earlier cycles. *)
Definition liveChannel : DBChannel.t :=
  {| DBChannel.id := 1;
     DBChannel.channel_id := "UC-live";
     DBChannel.title := "Live channel";
     DBChannel.description := None;
     DBChannel.thumbnail_url := None;
     DBChannel.created_at := 1700000000000;
     DBChannel.updated_at := 1700000000000;
     DBChannel.last_checked_at := None;
     DBChannel.is_active := 1 |}.

Definition liveRow (id : Z) (videoId : string) (bookmarked : Z) : DBVideo.t :=
  {| DBVideo.id := id;
     DBVideo.video_id := videoId;
     DBVideo.channel_id := "UC-live";
     DBVideo.title := "Stream";
     DBVideo.description := None;
     DBVideo.thumbnail_url := "";
     DBVideo.published_at := 1700000000000 + id;
     DBVideo.type := TLive;
     DBVideo.duration := None;
     DBVideo.scheduled_start_time := None;
     DBVideo.is_live := 1;
     DBVideo.is_live_content := 0;
     DBVideo.is_upcoming := 0;
     DBVideo.bookmarked := bookmarked;
     DBVideo.created_at := 1700000000000 + id;
     DBVideo.updated_at := 1700000000000 + id |}.

Definition twoLives : YouTubeMonitor.State :=
  {| YouTubeMonitor.db :=
       {| DatabaseService.channels := [liveChannel];
          DatabaseService.videos := [liveRow 1 "live-000001" 1; liveRow 2 "live-000002" 0];
          DatabaseService.events := [];
          DatabaseService.videos_id_seq := 3;
          DatabaseService.events_id_seq := 1 |};
     YouTubeMonitor.channelCache := [] |}.

(** What the live probe answers: the third broadcast of the channel. *)
Definition probed (videoId : string) : VideoInfo.t :=
  {| VideoInfo.videoId := videoId;
     VideoInfo.title := "Stream (renamed)";
     VideoInfo.publishedAt := 1700000500000;
     VideoInfo.thumbnailUrl := "";
     VideoInfo.type := TLive;
     VideoInfo.duration := None;
     VideoInfo.scheduledStartTime := None;
     VideoInfo.isLive := true;
     VideoInfo.isLiveContent := false;
     VideoInfo.isUpcoming := false |}.

(** One upload in the videos feed. *)
Definition upload : RSSItem.t :=
  {| RSSItem.videoId := "upload-0001";
     RSSItem.title := "A new upload";
     RSSItem.publishedAt := 1700000400000;
     RSSItem.updatedAt := 1700000400000;
     RSSItem.thumbnailUrl := "";
     RSSItem.description := None;
     RSSItem.viewCount := None |}.

(** ** Vocabulary of the further properties *)

(** An outcome that makes the loop go on with [lastError] set: the error
    kept, if it is one. *)
Definition failsWith (o : HttpClient.Outcome) : option HttpClient.Error :=
  match o with
  | HttpClient.Responds r =>
      if HttpClient.ok r || (HttpClient.resp_status r =? 429)
         || HttpClient.nonRetryable (HttpClient.httpError r)
      then None
      else Some (HttpClient.httpError r)
  | HttpClient.Throws e => if HttpClient.nonRetryable e then None else Some e
  end.

(** A 2xx response. *)
Definition succeeds (o : HttpClient.Outcome) : bool :=
  match o with
  | HttpClient.Responds r => HttpClient.ok r
  | HttpClient.Throws _ => false
  end.

(** Calls on a semaphore: [acquire] by a caller, [release] by a caller that
    holds a permit. *)
Inductive SemCall : Type :=
  | Acquires (caller : nat)
  | Releases (holder : nat).

Fixpoint remove_first (x : nat) (l : list nat) : list nat :=
  match l with
  | [] => []
  | y :: rest => if Nat.eqb x y then rest else y :: remove_first x rest
  end.

(** The semaphore together with the callers whose [acquire] has been
    resolved and who have not released yet. *)
Definition semStep (st : Semaphore.t * list nat) (call : SemCall)
    : Semaphore.t * list nat :=
  match call with
  | Acquires caller =>
      let '(s, resolved) := Semaphore.acquire caller (fst st) in
      (s, if resolved then snd st ++ [caller] else snd st)
  | Releases holder =>
      let '(s, resumed) := Semaphore.release (fst st) in
      (s, remove_first holder (snd st)
          ++ match resumed with Some w => [w] | None => [] end)
  end.

(** Every [release] is called by a caller that holds a permit, as in [get],
    where it stands in the [finally] of the block that follows [acquire]. *)
Fixpoint releasesByHolders (st : Semaphore.t * list nat) (calls : list SemCall) : bool :=
  match calls with
  | [] => true
  | call :: rest =>
      match call with
      | Acquires _ => true
      | Releases holder => existsb (Nat.eqb holder) (snd st)
      end && releasesByHolders (semStep st call) rest
  end.

(** A server error. *)
Definition serverError : HttpClient.Response :=
  {| HttpClient.resp_status := 503;
     HttpClient.statusText := "Service Unavailable";
     HttpClient.retryAfter := None;
     HttpClient.text := "" |}.

(** Permits and holders add up to [maxConcurrent], no permit count is
    negative, and nobody waits while a permit is free. *)
Definition semInvariant (maxConcurrent : Z) (st : Semaphore.t * list nat) : Prop :=
  Z.of_nat (List.length (snd st)) + Semaphore.permits (fst st) = maxConcurrent
  /\ 0 <= Semaphore.permits (fst st)
  /\ (Semaphore.queue (fst st) <> [] -> Semaphore.permits (fst st) = 0).

(** The character occurs in the text. *)
Fixpoint occurs (c : ascii) (text : string) : bool :=
  match text with
  | EmptyString => false
  | String x rest => Ascii.eqb x c || occurs c rest
  end.

(** A record as the feed scan makes it: no live and no upcoming signal, and
    was-live-recording exactly for the type [vod]. *)
Definition stubLike (v : VideoInfo.t) : Prop :=
  VideoInfo.isLive v = false
  /\ VideoInfo.isUpcoming v = false
  /\ VideoInfo.isLiveContent v = VideoType_eqb (VideoInfo.type v) TVod
  /\ VideoInfo.type v <> TLive
  /\ VideoInfo.type v <> TScheduled.

(** The video is among the first [maxVideosPerFeed] items of a lives feed. *)
Definition inLivesFeed (maxVideosPerFeed : nat)
    (feedResults : list (FeedType * list RSSItem.t)) (videoId : string) : Prop :=
  exists items,
    In (FLives, items) feedResults
    /\ In videoId (map RSSItem.videoId (firstn maxVideosPerFeed items)).

(** The history of the loop: every record of [seen] was processed, and
    every processed record has a record of its identifier in [seen], which
    comes from the lives feed when the processed record does. *)
Definition livesKept (processed : list VideoInfo.t) (seen : YouTubeScraper.SeenMap) : Prop :=
  NoDup (ids seen)
  /\ (forall e, In e seen -> In e processed)
  /\ (forall x, In x processed ->
        exists e, In e seen
                  /\ VideoInfo.videoId e = VideoInfo.videoId x
                  /\ (VideoInfo.isLiveContent x = true ->
                      VideoInfo.isLiveContent e = true)).

(** A row with this [video_id] is in the [videos] table. *)
Definition stored (videoId : string) (db : DatabaseService.DB) : bool :=
  match DatabaseService.getVideo videoId db with
  | Some _ => true
  | None => false
  end.

(** The test of the second [DELETE] of [cleanupOldVideos] on one row: the
    row stays. *)
Definition keptBy (maxPerChannel : Z) (d : DatabaseService.DB) (r : DBVideo.t) : bool :=
  negb (existsb (Z.eqb (DBVideo.id r))
                (map DBVideo.id
                     (DatabaseService.beyond_limit maxPerChannel (DatabaseService.videos d)))).

(** The unbookmarked videos of one channel. *)
Definition unbookmarkedOf (c : string) (d : DatabaseService.DB) : list DBVideo.t :=
  filter unbookmarked (DatabaseService.partition_of c (DatabaseService.videos d)).

(** Every event names a stored video. *)
Definition noOrphanEvents (d : DatabaseService.DB) : Prop :=
  forall e, In e (DatabaseService.events d) -> stored (DBEvent.video_id e) d = true.

(** No event is older than [days] days at [now]. *)
Definition eventsWithin (now days : Z) (d : DatabaseService.DB) : Prop :=
  forall e, In e (DatabaseService.events d) ->
            now - Database.day_ms * days <= DBEvent.created_at e.

(** The channels of the ['channel_checked'] emissions, in their order. *)
Definition checkedOf (emitted : list YouTubeMonitor.Emitted) : list string :=
  flat_map (fun e => match e with
                     | YouTubeMonitor.EmitChannelChecked c _ => [c]
                     | YouTubeMonitor.EmitVideo _ _ _ => []
                     end)
           emitted.

Definition checkedChannels (emitted : list Monitor.CycleEmitted) : list string :=
  flat_map (fun e => match e with
                     | Monitor.Checked (YouTubeMonitor.EmitChannelChecked c _) => [c]
                     | _ => []
                     end)
           emitted.

(** The channel ids of the active channels, in table order. *)
Definition activeIds (d : DatabaseService.DB) : list string :=
  map DBChannel.channel_id (Database.getActiveChannels d).

(** A row of this channel is in the [channels] table. *)
Definition knownChannel (channelId : string) (d : DatabaseService.DB) : Prop :=
  In channelId (map DBChannel.channel_id (DatabaseService.channels d)).

Definition someChannel (channelId : string) : ChannelInfo.t :=
  {| ChannelInfo.channelId := channelId;
     ChannelInfo.title := "Channel";
     ChannelInfo.description := None;
     ChannelInfo.thumbnailUrl := None |}.

(** A channel page that says the channel is live, and the two searches of
    the page. *)
Definition livePage (page : string) : YTPlayerResponse.t :=
  {| YTPlayerResponse.isLive := Some true;
     YTPlayerResponse.isLiveContent := Some true;
     YTPlayerResponse.isUpcoming := None;
     YTPlayerResponse.duration := None;
     YTPlayerResponse.scheduledStartTime := None |}.

Definition firstVideoOf (page channelId : string) : option string :=
  Some "live-000003"%string.

Definition titleOf (page : string) : string := "Rock &amp; Roll".

(** Calls of [start] and [stop], each run to its end before the next, with
    a store that can be reached. *)
Inductive RunCall : Type :=
  | Start
  | Stop.

Definition runStep (config : Monitor.Config)
    (acc : Monitor.RunState * list Monitor.RunEffect) (call : RunCall)
    : Monitor.RunState * list Monitor.RunEffect :=
  let '(s, effects) := acc in
  let '(s', effects') :=
    match call with
    | Start => Monitor.start config true s
    | Stop => Monitor.stop s
    end in
  (s', effects ++ effects').

Definition runCalls (config : Monitor.Config) (firstTimer : nat) (calls : list RunCall)
    : Monitor.RunState * list Monitor.RunEffect :=
  fold_left (runStep config) calls (Monitor.created firstTimer, []).

(** The timers that are set and not cleared, after the effects in order. *)
Definition armedAfter (armed : list nat) (effect : Monitor.RunEffect) : list nat :=
  match effect with
  | Monitor.SetInterval timer _ => timer :: armed
  | Monitor.ClearInterval timer => remove Nat.eq_dec timer armed
  | _ => armed
  end.

Definition armedTimers (effects : list Monitor.RunEffect) : list nat :=
  fold_left armedAfter effects [].

Definition connects (effects : list Monitor.RunEffect) : nat :=
  List.length (filter (fun e => match e with Monitor.GetDatabase => true | _ => false end)
                      effects).

(** The feed items that the scan reads: the first [maxVideosPerFeed] of
    every feed. *)
Definition listed (maxVideosPerFeed : nat)
    (feedResults : list (FeedType * list RSSItem.t)) : list RSSItem.t :=
  flat_map (fun '(_, items) => firstn maxVideosPerFeed items) feedResults.

(** The record carries the data of the feed item. *)
Definition feedItemOf (v : VideoInfo.t) (item : RSSItem.t) : Prop :=
  VideoInfo.videoId v = RSSItem.videoId item
  /\ VideoInfo.title v = RSSItem.title item
  /\ VideoInfo.publishedAt v = RSSItem.publishedAt item
  /\ VideoInfo.thumbnailUrl v = RSSItem.thumbnailUrl item.

(** The hint that a feed type sets. *)
Definition hintOfFeed (feedType : FeedType) : option FeedHint :=
  match feedType with
  | FShorts => Some HintShorts
  | FLives => Some HintLives
  | FVideos => None
  end.

Definition listedIn (maxVideosPerFeed : nat) (items : list RSSItem.t) (videoId : string)
    : bool :=
  existsb (String.eqb videoId) (map RSSItem.videoId (firstn maxVideosPerFeed items)).

(** ** Vocabulary of the rate-limit sleeps, of the timer calls and of the
    stored values *)




(** Some call of the sequence is a [start]. *)
Definition everStarted (calls : list RunCall) : bool :=
  existsb (fun call => match call with Start => true | Stop => false end) calls.

(** The last call of the sequence is a [start]. *)
Definition endsWithStart (calls : list RunCall) : bool :=
  match last calls Stop with Start => true | Stop => false end.

(** The calls of [start] that find the monitor stopped: the first call of
    the sequence and every one that follows a [stop]. *)
Fixpoint startsFrom (running : bool) (calls : list RunCall) : nat :=
  match calls with
  | [] => 0
  | Start :: rest => (if running then 0 else 1) + startsFrom true rest
  | Stop :: rest => startsFrom false rest
  end.

Definition timersSet (effects : list Monitor.RunEffect) : list nat :=
  flat_map (fun e => match e with Monitor.SetInterval timer _ => [timer] | _ => [] end)
           effects.

Definition cyclesRun (effects : list Monitor.RunEffect) : nat :=
  List.length (filter (fun e => match e with Monitor.RunCycle => true | _ => false end)
                      effects).

Definition intervalsSet (effects : list Monitor.RunEffect) : list Z :=
  flat_map (fun e => match e with Monitor.SetInterval _ ms => [ms] | _ => [] end)
           effects.

(* ===================================================================== *)
(** * Part III: properties                                                *)
(* ===================================================================== *)

(** ** The classifier *)

Lemma truthy_flag_true (b : option bool) : truthy_flag b = true <-> b = Some true.
Proof. destruct b as [[|]|]; simpl; split; congruence. Qed.

Lemma defined_true {A : Type} (x : option A) : defined x = true <-> exists a, x = Some a.
Proof.
  destruct x; simpl; split; intros H; try discriminate; eauto.
  destruct H; discriminate.
Qed.

Lemma rule1_reflect (p : YTPlayerResponse.t) :
  truthy_flag (YTPlayerResponse.isUpcoming p)
  && defined (YTPlayerResponse.scheduledStartTime p) = true
  <-> upcoming_with_start p.
Proof.
  unfold upcoming_with_start.
  rewrite andb_true_iff, truthy_flag_true, defined_true. reflexivity.
Qed.

Lemma rule4_reflect (p : YTPlayerResponse.t) :
  match YTPlayerResponse.duration p with
  | Some d => d <=? Classifier.SHORTS_MAX_DURATION
  | None => false
  end = true <-> short_duration p.
Proof.
  unfold short_duration, Classifier.SHORTS_MAX_DURATION.
  destruct (YTPlayerResponse.duration p) as [d|].
  - rewrite Z.leb_le. split.
    + intros H. exists d. auto.
    + intros [d' [E H]]. inversion E. subst. exact H.
  - split; [discriminate | intros [d' [E _]]; discriminate].
Qed.

Lemma rule5_reflect (h : option FeedHint) :
  match h with Some HintShorts => true | _ => false end = true
  <-> from_shorts_feed h.
Proof.
  unfold from_shorts_feed. destruct h as [[|]|]; split; congruence.
Qed.

(** Case analysis on the guard of one rule, keeping its reading. *)
Ltac settle_rule R :=
  match type of R with
  | (?b = true <-> ?P) =>
      destruct b;
      [ assert P by (apply R; reflexivity)
      | assert (~ P) by (let H := fresh in intros H; apply R in H; discriminate) ];
      clear R
  end.

Ltac close_rules :=
  repeat match goal with
         | |- _ /\ _ => split
         | |- _ <-> _ => split
         end;
  intros; try discriminate; try reflexivity; tauto.

(** C4. [classifyVideo] is a function of the signal tuple (so it is total and
    gives one type per tuple), and its value is fixed by the six rules taken
    in order: [scheduled] exactly when rule 1 applies; [live] exactly when
    rule 1 does not and the item is live now; [vod] (the recording type)
    exactly when rules 1 and 2 do not and the item was a live recording;
    [short] exactly when rules 1 to 3 do not and either the duration is
    present and at most 90 seconds or the item came from the shorts feed;
    [video] exactly when no rule applies. *)
Theorem classifyVideo_six_rules :
  forall (p : YTPlayerResponse.t) (h : option FeedHint),
    (Classifier.classifyVideo p h = TScheduled <-> upcoming_with_start p)
    /\ (Classifier.classifyVideo p h = TLive
        <-> ~ upcoming_with_start p /\ live_now p)
    /\ (Classifier.classifyVideo p h = TVod
        <-> ~ upcoming_with_start p /\ ~ live_now p /\ was_live_recording p)
    /\ (Classifier.classifyVideo p h = TShort
        <-> ~ upcoming_with_start p /\ ~ live_now p /\ ~ was_live_recording p
            /\ (short_duration p \/ from_shorts_feed h))
    /\ (Classifier.classifyVideo p h = TVideo
        <-> ~ upcoming_with_start p /\ ~ live_now p /\ ~ was_live_recording p
            /\ ~ short_duration p /\ ~ from_shorts_feed h).
Proof.
  intros p h.
  pose proof (rule1_reflect p) as R1.
  pose proof (truthy_flag_true (YTPlayerResponse.isLive p)) as R2.
  pose proof (truthy_flag_true (YTPlayerResponse.isLiveContent p)) as R3.
  pose proof (rule4_reflect p) as R4.
  pose proof (rule5_reflect h) as R5.
  unfold live_now, was_live_recording in *.
  unfold Classifier.classifyVideo.
  settle_rule R1; [ close_rules | ].
  settle_rule R2; [ close_rules | ].
  settle_rule R3; [ close_rules | ].
  settle_rule R4; [ close_rules | ].
  settle_rule R5; close_rules.
Qed.

(** ** Deduplication *)

Section Deduplication.

Import YouTubeScraper.

Lemma seen_get_none (key : string) (seen : SeenMap) :
  seen_get key seen = None <-> ~ In key (ids seen).
Proof.
  induction seen as [|e rest IH]; simpl.
  - tauto.
  - destruct (String.eqb_spec (VideoInfo.videoId e) key) as [E|E].
    + split; [discriminate | intros H; exfalso; apply H; auto].
    + rewrite IH. tauto.
Qed.

Lemma seen_get_some (key : string) (seen : SeenMap) (e : VideoInfo.t) :
  seen_get key seen = Some e -> In e seen /\ VideoInfo.videoId e = key.
Proof.
  induction seen as [|x rest IH]; simpl; [discriminate|].
  destruct (String.eqb_spec (VideoInfo.videoId x) key) as [E|E].
  - intros H. inversion H. subst. auto.
  - intros H. destruct (IH H). auto.
Qed.

Lemma seen_set_fresh (video : VideoInfo.t) (seen : SeenMap) :
  ~ In (VideoInfo.videoId video) (ids seen) -> seen_set video seen = seen ++ [video].
Proof.
  induction seen as [|e rest IH]; simpl; intros H; [reflexivity|].
  destruct (String.eqb_spec (VideoInfo.videoId e) (VideoInfo.videoId video)) as [E|E].
  - exfalso. apply H. auto.
  - rewrite IH; [reflexivity | tauto].
Qed.

Lemma seen_set_ids (video : VideoInfo.t) (seen : SeenMap) :
  In (VideoInfo.videoId video) (ids seen) -> ids (seen_set video seen) = ids seen.
Proof.
  induction seen as [|e rest IH]; simpl; intros H; [contradiction|].
  destruct (String.eqb_spec (VideoInfo.videoId e) (VideoInfo.videoId video)) as [E|E].
  - simpl. congruence.
  - simpl. rewrite IH; [reflexivity|]. destruct H; [contradiction | assumption].
Qed.

Lemma seen_set_In (video x : VideoInfo.t) (seen : SeenMap) :
  In x (seen_set video seen) -> x = video \/ In x seen.
Proof.
  induction seen as [|e rest IH]; simpl.
  - intros [H|[]]; auto.
  - destruct (String.eqb (VideoInfo.videoId e) (VideoInfo.videoId video)); simpl.
    + intros [H|H]; auto.
    + intros [H|H]; auto. destruct (IH H); auto.
Qed.

(** The keys of [seen] after one step: unchanged when the identifier was
    there, extended at the end otherwise. *)
Lemma dedup_step_ids (seen : SeenMap) (video : VideoInfo.t) :
  ids (dedup_step seen video)
  = if in_dec string_dec (VideoInfo.videoId video) (ids seen)
    then ids seen else ids seen ++ [VideoInfo.videoId video].
Proof.
  unfold dedup_step.
  destruct (seen_get (VideoInfo.videoId video) seen) as [existing|] eqn:G.
  - assert (In (VideoInfo.videoId video) (ids seen)) as Hin.
    { destruct (in_dec string_dec (VideoInfo.videoId video) (ids seen)); auto.
      apply seen_get_none in n. congruence. }
    destruct (in_dec string_dec _ _); [|contradiction].
    destruct (shouldReplace video existing); auto using seen_set_ids.
  - apply seen_get_none in G.
    destruct (in_dec string_dec _ _); [contradiction|].
    rewrite seen_set_fresh by assumption.
    unfold ids. rewrite map_app. reflexivity.
Qed.

Lemma dedup_step_NoDup (seen : SeenMap) (video : VideoInfo.t) :
  NoDup (ids seen) -> NoDup (ids (dedup_step seen video)).
Proof.
  intros H. rewrite dedup_step_ids.
  destruct (in_dec string_dec _ _) as [i|n]; [assumption|].
  apply NoDup_app; [assumption | repeat constructor; intros [] | ].
  intros x Hx [Hy|[]]. subst. contradiction.
Qed.

Lemma dedup_fold_NoDup (videos : list VideoInfo.t) (seen : SeenMap) :
  NoDup (ids seen) -> NoDup (ids (fold_left dedup_step videos seen)).
Proof.
  revert seen. induction videos as [|v rest IH]; simpl; intros seen H.
  - assumption.
  - apply IH. apply dedup_step_NoDup. assumption.
Qed.

(** One record per identifier: the identifiers of the result are pairwise
    distinct. *)
Lemma deduplicateVideos_NoDup (videos : list VideoInfo.t) :
  NoDup (ids (deduplicateVideos videos)).
Proof. apply dedup_fold_NoDup. constructor. Qed.

Lemma dedup_fold_ids_incl (videos : list VideoInfo.t) (seen : SeenMap) (k : string) :
  In k (ids (fold_left dedup_step videos seen)) <-> In k (ids seen) \/ In k (ids videos).
Proof.
  revert seen. induction videos as [|v rest IH]; simpl; intros seen.
  - tauto.
  - rewrite IH, dedup_step_ids.
    destruct (in_dec string_dec _ _) as [i|n].
    + split; [tauto|]. intros [H|[H|H]]; auto. subst. auto.
    + unfold ids at 1. fold (ids seen). rewrite in_app_iff. simpl. tauto.
Qed.

(** ... and every identifier of the input keeps a record. *)
Lemma deduplicateVideos_ids (videos : list VideoInfo.t) (k : string) :
  In k (ids (deduplicateVideos videos)) <-> In k (ids videos).
Proof.
  unfold deduplicateVideos. rewrite dedup_fold_ids_incl. simpl. tauto.
Qed.

Lemma dedup_fold_In (videos : list VideoInfo.t) (seen : SeenMap) (x : VideoInfo.t) :
  In x (fold_left dedup_step videos seen) -> In x seen \/ In x videos.
Proof.
  revert seen. induction videos as [|v rest IH]; simpl; intros seen H.
  - auto.
  - destruct (IH _ H) as [H1|H1]; [|auto].
    unfold dedup_step in H1.
    destruct (seen_get (VideoInfo.videoId v) seen) as [e|].
    + destruct (shouldReplace v e); auto.
      destruct (seen_set_In _ _ _ H1); auto.
    + destruct (seen_set_In _ _ _ H1); auto.
Qed.

(** The merge only selects: every record of the result is a record of the
    input. *)
Lemma deduplicateVideos_In (videos : list VideoInfo.t) (x : VideoInfo.t) :
  In x (deduplicateVideos videos) -> In x videos.
Proof.
  intros H. destruct (dedup_fold_In _ _ _ H) as [[]|]; assumption.
Qed.

(** On records with pairwise distinct identifiers, none of them in [seen],
    the loop appends its input. *)
Lemma dedup_fold_distinct (videos : list VideoInfo.t) (seen : SeenMap) :
  NoDup (ids (seen ++ videos)) -> fold_left dedup_step videos seen = seen ++ videos.
Proof.
  revert seen. induction videos as [|v rest IH]; simpl; intros seen H.
  - rewrite app_nil_r. reflexivity.
  - assert (~ In (VideoInfo.videoId v) (ids seen)) as Hfresh.
    { unfold ids in *. rewrite map_app in H. simpl in H.
      apply NoDup_remove_2 in H. rewrite in_app_iff in H. tauto. }
    unfold dedup_step at 2.
    pose proof (proj2 (seen_get_none _ _) Hfresh) as G. rewrite G.
    rewrite seen_set_fresh by assumption.
    rewrite IH; rewrite <- app_assoc; simpl; [reflexivity | assumption].
Qed.

End Deduplication.

(** C6. Deduplication is idempotent: run on its own result it returns that
    result, the same records in the same order. *)
Theorem deduplicateVideos_idempotent :
  forall videos : list VideoInfo.t,
    YouTubeScraper.deduplicateVideos (YouTubeScraper.deduplicateVideos videos)
    = YouTubeScraper.deduplicateVideos videos.
Proof.
  intros videos.
  unfold YouTubeScraper.deduplicateVideos at 1.
  rewrite dedup_fold_distinct; [reflexivity|].
  simpl. apply deduplicateVideos_NoDup.
Qed.

(** ** The retry loop of the HTTP client *)

Section RetryLoop.

Import HttpClient.

Variable maxRetries : nat.
Variable env : nat -> Outcome.

Lemma after_after (a b : list Effect) (x : Result * list Effect) :
  after a (after b x) = after (a ++ b) x.
Proof. unfold after. simpl. rewrite app_assoc. reflexivity. Qed.

Lemma status_429_not_ok (r : Response) : resp_status r = 429 -> ok r = false.
Proof. intros H. unfold ok. rewrite H. reflexivity. Qed.

(** A run of [j] responses 429 from iteration [a] on uses up [j]
    iterations of the loop: it goes on at [a + j] with [j] fewer
    iterations left, [lastError] untouched, having fetched [j] times and
    slept no backoff delay. *)
Lemma get_loop_429_run (j : nat) :
  forall (remaining a : nat) (lastError : option Error),
    (forall i, (a <= i < a + j)%nat -> rateLimited (env i)) ->
    (j <= remaining)%nat ->
    exists steps,
      get_loop maxRetries env remaining a lastError
      = after steps (get_loop maxRetries env (remaining - j) (a + j) lastError)
      /\ fetches steps = seq a j
      /\ backoffSleeps steps = [].
Proof.
  induction j as [|j IH]; intros remaining a lastError Hrun Hle.
  - exists []. rewrite Nat.sub_0_r, Nat.add_0_r.
    unfold after. simpl. destruct (get_loop _ _ _ _ _); auto.
  - destruct remaining as [|remaining]; [lia|].
    destruct (Hrun a ltac:(lia)) as [r [Er Hs]].
    destruct (IH remaining (S a) lastError) as [steps [E [F B]]].
    { intros i Hi. apply Hrun. lia. }
    { lia. }
    exists ([Fetch a; SleepRateLimit
               (match retryAfter r with Some s => s | None => 60 end * 1000)]
            ++ steps).
    split; [|split].
    + simpl get_loop. rewrite Er, (status_429_not_ok r Hs), Hs. simpl Z.eqb.
      cbv iota. rewrite E, after_after.
      replace (a + S j)%nat with (S a + j)%nat by lia. reflexivity.
    + simpl. rewrite F. reflexivity.
    + simpl. exact B.
Qed.

(** The same for a run of outcomes that the loop retries. *)
Lemma get_loop_retried_run (j : nat) :
  forall (remaining a : nat) (lastError : option Error),
    (forall i, (a <= i < a + j)%nat -> retried (env i) = true) ->
    (j <= remaining)%nat ->
    exists steps lastError',
      get_loop maxRetries env remaining a lastError
      = after steps (get_loop maxRetries env (remaining - j) (a + j) lastError')
      /\ fetches steps = seq a j.
Proof.
  induction j as [|j IH]; intros remaining a lastError Hrun Hle.
  - exists [], lastError. rewrite Nat.sub_0_r, Nat.add_0_r.
    unfold after. simpl. destruct (get_loop _ _ _ _ _); auto.
  - destruct remaining as [|remaining]; [lia|].
    pose proof (Hrun a ltac:(lia)) as Ha.
    assert (forall le, exists steps lastError',
               get_loop maxRetries env remaining (S a) le
               = after steps (get_loop maxRetries env (remaining - j) (S a + j) lastError')
               /\ fetches steps = seq (S a) j) as IH'.
    { intros le. apply IH; [intros i Hi; apply Hrun; lia | lia]. }
    replace (a + S j)%nat with (S a + j)%nat by lia.
    simpl get_loop.
    destruct (env a) as [r|e]; simpl in Ha.
    + apply andb_true_iff in Ha. destruct Ha as [Hok Hnr].
      apply negb_true_iff in Hok, Hnr. rewrite Hok.
      destruct (resp_status r =? 429).
      * destruct (IH' lastError) as [steps [le' [E F]]].
        eexists (_ ++ steps), le'. rewrite E, after_after.
        split; [reflexivity|]. simpl. rewrite F. reflexivity.
      * rewrite Hnr. destruct (IH' (Some (httpError r))) as [steps [le' [E F]]].
        destruct (a <? maxRetries - 1)%nat;
          eexists (_ ++ steps), le'; rewrite E, after_after;
          (split; [reflexivity|]); simpl; rewrite F; reflexivity.
    + apply negb_true_iff in Ha. rewrite Ha.
      destruct (IH' (Some e)) as [steps [le' [E F]]].
      destruct (a <? maxRetries - 1)%nat;
        eexists (_ ++ steps), le'; rewrite E, after_after;
        (split; [reflexivity|]); simpl; rewrite F; reflexivity.
Qed.

Lemma fetches_app (a b : list Effect) : fetches (a ++ b) = fetches a ++ fetches b.
Proof. unfold fetches. apply flat_map_app. Qed.

Lemma backoffSleeps_app (a b : list Effect) :
  backoffSleeps (a ++ b) = backoffSleeps a ++ backoffSleeps b.
Proof. unfold backoffSleeps. apply flat_map_app. Qed.

End RetryLoop.









(** C7. When an attempt of [get] is answered with status 404 or 403 (the
    attempts before it, if any, having been retried), [get] rejects with
    that HTTP error and the request of this attempt is its last step before
    the semaphore is released: no sleep and no request follows.  When it is
    the first attempt, the whole call is one request. *)
Theorem get_404_403_rejects_at_once :
  forall (maxRetries : nat) (env : nat -> HttpClient.Outcome) (k : nat)
         (r : HttpClient.Response),
    (k < maxRetries)%nat ->
    (forall i, (i < k)%nat -> retried (env i) = true) ->
    env k = HttpClient.Responds r ->
    HttpClient.resp_status r = 404 \/ HttpClient.resp_status r = 403 ->
    fst (HttpClient.get maxRetries env) = HttpClient.Rejects (HttpClient.httpError r)
    /\ (exists steps,
          snd (HttpClient.get maxRetries env)
          = (HttpClient.Acquire :: HttpClient.RandomDelay
               :: steps ++ [HttpClient.Fetch k; HttpClient.Release])
          /\ HttpClient.fetches steps = seq 0 k)
    /\ (k = 0%nat ->
          snd (HttpClient.get maxRetries env)
          = [HttpClient.Acquire; HttpClient.RandomDelay;
             HttpClient.Fetch 0; HttpClient.Release]).
Proof.
  intros maxRetries env k r Hlt Hrun Er Hs.
  assert (HttpClient.ok r = false) as Hok.
  { unfold HttpClient.ok. destruct Hs as [Hs|Hs]; rewrite Hs; reflexivity. }
  assert ((HttpClient.resp_status r =? 429) = false) as H429.
  { destruct Hs as [Hs|Hs]; rewrite Hs; reflexivity. }
  assert (HttpClient.nonRetryable (HttpClient.httpError r) = true) as Hnr.
  { unfold HttpClient.nonRetryable. simpl.
    destruct Hs as [Hs|Hs]; rewrite Hs; reflexivity. }
  assert (forall rest a le, a = k ->
            HttpClient.get_loop maxRetries env (S rest) a le
            = (HttpClient.Rejects (HttpClient.httpError r), [HttpClient.Fetch k])) as Hstep.
  { intros rest a le ->. simpl. rewrite Er, Hok, H429, Hnr. reflexivity. }
  unfold HttpClient.get.
  destruct (get_loop_retried_run maxRetries env k maxRetries 0 None)
    as [steps [le' [E F]]]; [intros i Hi; apply Hrun; lia | lia |].
  split; [|split].
  - rewrite E. destruct (maxRetries - k)%nat as [|rest] eqn:D; [lia|].
    rewrite Hstep by reflexivity. reflexivity.
  - exists steps. split; [|exact F].
    rewrite E. destruct (maxRetries - k)%nat as [|rest] eqn:D; [lia|].
    rewrite Hstep by reflexivity. unfold HttpClient.after. simpl.
    rewrite <- app_assoc. reflexivity.
  - intros ->. destruct maxRetries as [|rest]; [lia|].
    rewrite Hstep by reflexivity. reflexivity.
Qed.

(** A 404 on the first of three attempts. *)
Lemma get_404_403_rejects_at_once_witness :
  HttpClient.get 3 (fun _ => HttpClient.Responds notFound)
  = (HttpClient.Rejects (HttpClient.httpError notFound),
     [HttpClient.Acquire; HttpClient.RandomDelay;
      HttpClient.Fetch 0; HttpClient.Release]).
Proof.
  pose proof (get_404_403_rejects_at_once 3 (fun _ => HttpClient.Responds notFound)
                0 notFound ltac:(lia) ltac:(intros; lia) eq_refl (or_introl eq_refl))
    as [H1 [_ H3]].
  rewrite (surjective_pairing (HttpClient.get 3 _)), H1, (H3 eq_refl).
  reflexivity.
Defined.

(** ** The replacement rule of the deduplication *)

(** A newcomer that strictly dominates is always taken. *)
Lemma strictly_dominates_shouldReplace (newcomer kept : VideoInfo.t) :
  strictly_dominates newcomer kept = true ->
  YouTubeScraper.shouldReplace newcomer kept = true.
Proof.
  unfold strictly_dominates, YouTubeScraper.shouldReplace, specific_type.
  destruct newcomer as [? ? ? ? nt ? ? nl nc nu], kept as [? ? ? ? kt ? ? kl kc ku].
  simpl.
  destruct nl, kl, nc, kc, nu, ku, nt, kt; simpl; congruence.
Qed.

(** C5, where the code departs from it.  The recording does not dominate the
    live record (it loses on live-now, the first criterion), the live record
    dominates the recording, and still the merge replaces the live record,
    seen first, by the recording: [shouldReplace] is a disjunction of its
    tests, so a win on a lower criterion is enough. *)
Theorem deduplicateVideos_replaces_live_by_recording :
  strictly_dominates seenRecording seenLive = false
  /\ strictly_dominates seenLive seenRecording = true
  /\ YouTubeScraper.shouldReplace seenRecording seenLive = true
  /\ YouTubeScraper.deduplicateVideos [seenLive; seenRecording] = [seenRecording].
Proof. repeat split. Qed.

(** ** The store: upsert *)

Section Upsert.

Import DatabaseService.

Variable now : Z.

Lemma insert_on_conflict_find (excluded : DBVideo.t) (key : string) (rows : list DBVideo.t) :
  find (fun r => String.eqb (DBVideo.video_id r) key)
       (fst (insert_on_conflict now excluded rows))
  = match find (fun r => String.eqb (DBVideo.video_id r) key) rows with
    | Some r =>
        Some (if String.eqb (DBVideo.video_id r) (DBVideo.video_id excluded)
              then conflict_update now r excluded else r)
    | None =>
        if String.eqb (DBVideo.video_id excluded) key then Some excluded else None
    end.
Proof.
  induction rows as [|x rest IH]; simpl.
  - reflexivity.
  - destruct (String.eqb_spec (DBVideo.video_id x) (DBVideo.video_id excluded)) as [E|E].
    + simpl. destruct (String.eqb_spec (DBVideo.video_id x) key) as [K|K].
      * rewrite E, String.eqb_refl. reflexivity.
      * destruct (find _ rest) as [r|] eqn:F.
        -- apply find_some in F. destruct F as [_ F]. apply String.eqb_eq in F.
           destruct (String.eqb_spec (DBVideo.video_id r) (DBVideo.video_id excluded));
             [congruence | reflexivity].
        -- destruct (String.eqb_spec (DBVideo.video_id excluded) key);
             [congruence | reflexivity].
    + destruct (insert_on_conflict now excluded rest) as [rest' ret] eqn:R.
      simpl in *. destruct (String.eqb_spec (DBVideo.video_id x) key) as [K|K].
      * destruct (String.eqb_spec (DBVideo.video_id x) (DBVideo.video_id excluded));
          [contradiction | reflexivity].
      * exact IH.
Qed.


(** The [videos] table that [upsertVideo] leaves. *)
Lemma upsertVideo_videos (video : VideoInfo.t) (channelId : string) (d : DB) :
  videos (fst (upsertVideo now video channelId d))
  = fst (insert_on_conflict now (proposed_row now video channelId d) (videos d)).
Proof.
  unfold upsertVideo.
  destruct (insert_on_conflict _ _ _) as [rows ret].
  destruct (determineEvent _ _); reflexivity.
Qed.

Lemma upsertVideo_channels (video : VideoInfo.t) (channelId : string) (d : DB) :
  channels (fst (upsertVideo now video channelId d)) = channels d.
Proof.
  unfold upsertVideo.
  destruct (insert_on_conflict _ _ _) as [rows ret].
  destruct (determineEvent _ _); reflexivity.
Qed.

Lemma upsertVideo_event (video : VideoInfo.t) (channelId : string) (d : DB) :
  snd (snd (upsertVideo now video channelId d))
  = determineEvent (getVideo (VideoInfo.videoId video) d) video.
Proof.
  unfold upsertVideo.
  destruct (insert_on_conflict _ _ _) as [rows ret].
  destruct (determineEvent _ _); reflexivity.
Qed.


Lemma determineEvent_table (existing : option DBVideo.t) (video : VideoInfo.t) :
  determineEvent existing video
  = lifecycle_table
      match existing with
      | None => Absent
      | Some r => Stored (truthy_int (DBVideo.is_live r)) (DBVideo.type r) (DBVideo.title r)
      end
      (VideoInfo.isLive video) (VideoInfo.isUpcoming video)
      (VideoInfo.type video) (VideoInfo.title video).
Proof.
  unfold determineEvent, lifecycle_table.
  destruct existing as [r|].
  - destruct (truthy_int (DBVideo.is_live r)), (VideoInfo.isLive video); simpl;
      try reflexivity;
      destruct (VideoType_eqb _ _), (String.eqb _ _); reflexivity.
  - destruct (VideoInfo.isLive video); reflexivity.
Qed.

End Upsert.

(** C2. For an upsert whose statements go through (the channel has its row
    and every value fits its column), the event that [upsertVideo] returns
    is the one the transition table gives for the previous persisted state
    of the item and the newly observed signals, type and title; and the
    [events] table grows by exactly that event, for this video and channel,
    or stays as it was when there is none: at most one event per upsert. *)
Theorem upsertVideo_follows_lifecycle_table :
  forall (now : Z) (video : VideoInfo.t) (channelId : string) (db : DatabaseService.DB),
    Database.accepts video channelId db = true ->
    let result := DatabaseService.upsertVideo now video channelId db in
    let event := snd (snd result) in
    event = lifecycle_table (previousState (VideoInfo.videoId video) db)
                            (VideoInfo.isLive video) (VideoInfo.isUpcoming video)
                            (VideoInfo.type video) (VideoInfo.title video)
    /\ exists added,
         DatabaseService.events (fst result) = DatabaseService.events db ++ added
         /\ map DBEvent.event_type added
            = match event with Some e => [e] | None => [] end
         /\ Forall (fun row => DBEvent.video_id row = VideoInfo.videoId video
                               /\ DBEvent.channel_id row = channelId) added.
Proof.
  intros now video channelId db _ result event. subst event result.
  rewrite upsertVideo_event. split.
  - unfold previousState. apply determineEvent_table.
  - unfold DatabaseService.upsertVideo.
    destruct (DatabaseService.insert_on_conflict _ _ _) as [rows ret].
    destruct (DatabaseService.determineEvent _ _) as [e|]; simpl.
    + eexists [_]. split; [reflexivity|]. split; [reflexivity|].
      constructor; [split; reflexivity | constructor].
    + exists []. rewrite app_nil_r. repeat split. constructor.
Qed.

(** Scenario A as an instance: the channel is stored, the upload is seen
    for the first time, and the event is [new_video]. *)
Lemma upsertVideo_follows_lifecycle_table_witness :
  Database.accepts (YouTubeScraper.stubOfItem FVideos upload) "UC-live"
    (YouTubeMonitor.db twoLives) = true
  /\ snd (snd (DatabaseService.upsertVideo 1700000600000
                 (YouTubeScraper.stubOfItem FVideos upload) "UC-live"
                 (YouTubeMonitor.db twoLives)))
     = Some new_video.
Proof.
  split; [reflexivity|].
  exact (proj1 (upsertVideo_follows_lifecycle_table 1700000600000
                  (YouTubeScraper.stubOfItem FVideos upload) "UC-live"
                  (YouTubeMonitor.db twoLives) eq_refl)).
Defined.

(** C9. An upsert leaves the bookmark flag of every stored record as it was,
    whatever the incoming video: a record found under an id before the
    upsert is found under it afterwards with the same [bookmarked] value
    (and the same [id], channel and publication time).  In particular the
    record of the upserted video itself, which is the row the upsert
    returns. *)
Theorem upsertVideo_keeps_bookmarked :
  forall (now : Z) (video : VideoInfo.t) (channelId : string)
         (db : DatabaseService.DB) (videoId : string) (stored : DBVideo.t),
    DatabaseService.getVideo videoId db = Some stored ->
    exists stored',
      DatabaseService.getVideo videoId
        (fst (DatabaseService.upsertVideo now video channelId db)) = Some stored'
      /\ DBVideo.bookmarked stored' = DBVideo.bookmarked stored
      /\ DBVideo.id stored' = DBVideo.id stored
      /\ DBVideo.channel_id stored' = DBVideo.channel_id stored
      /\ DBVideo.published_at stored' = DBVideo.published_at stored
      /\ (videoId <> VideoInfo.videoId video -> stored' = stored).
Proof.
  intros now video channelId db videoId stored H.
  unfold DatabaseService.getVideo in *.
  rewrite upsertVideo_videos, insert_on_conflict_find, H.
  eexists. split; [reflexivity|].
  pose proof (find_some _ _ H) as [_ K]. apply String.eqb_eq in K.
  simpl DBVideo.video_id.
  destruct (String.eqb_spec (DBVideo.video_id stored) (VideoInfo.videoId video)) as [E|E].
  - repeat split. intros N. congruence.
  - repeat split.
Qed.

(** ** The store: retention *)

Section ListFacts.

Context {A : Type}.

Lemma filter_Permutation (f : A -> bool) (l l' : list A) :
  Permutation l l' -> Permutation (filter f l) (filter f l').
Proof.
  induction 1 as [|x l l' _ IH|x y l|l l' l'' _ IH1 _ IH2]; simpl.
  - constructor.
  - destruct (f x); auto.
  - destruct (f x), (f y); auto. constructor.
  - eapply Permutation_trans; eassumption.
Qed.

Lemma filter_complement_length (f : A -> bool) (l : list A) :
  (List.length (filter f l) + List.length (filter (fun x => negb (f x)) l)
   = List.length l)%nat.
Proof.
  induction l as [|x l IH]; simpl; [reflexivity|].
  destruct (f x); simpl; lia.
Qed.

Lemma filter_none (f : A -> bool) (l : list A) :
  (forall x, In x l -> f x = false) -> filter f l = [].
Proof.
  induction l as [|x l IH]; simpl; intros H; [reflexivity|].
  rewrite (H x) by auto. apply IH. auto.
Qed.

Lemma NoDup_map_injective {B : Type} (f : A -> B) (l : list A) (x y : A) :
  NoDup (map f l) -> In x l -> In y l -> f x = f y -> x = y.
Proof.
  induction l as [|a l IH]; simpl; intros N Hx Hy E; [contradiction|].
  inversion N as [|? ? Hnotin N']. subst.
  destruct Hx as [->|Hx], Hy as [->|Hy]; auto.
  - exfalso. apply Hnotin. rewrite E. apply in_map. assumption.
  - exfalso. apply Hnotin. rewrite <- E. apply in_map. assumption.
Qed.

Lemma NoDup_map_NoDup {B : Type} (f : A -> B) (l : list A) :
  NoDup (map f l) -> NoDup l.
Proof.
  induction l as [|a l IH]; simpl; intros N; constructor;
    inversion N as [|? ? Hnotin N']; subst.
  - intros H. apply Hnotin. apply in_map. assumption.
  - auto.
Qed.


Lemma NoDup_app_disjoint (l1 l2 : list A) (x : A) :
  NoDup (l1 ++ l2) -> In x l1 -> In x l2 -> False.
Proof.
  induction l1 as [|a l1 IH]; simpl; intros N H1 H2; [contradiction|].
  inversion N as [|? ? Hnotin N']. subst.
  destruct H1 as [->|H1]; [|eauto].
  apply Hnotin. apply in_or_app. auto.
Qed.

(** Row numbers: the pairs of [combine (seq a n) l] are the positions of
    [l], counted from [a]. *)
Lemma in_combine_seq (l : list A) :
  forall (a i : nat) (x : A),
    In (i, x) (combine (seq a (List.length l)) l)
    <-> (a <= i)%nat /\ nth_error l (i - a) = Some x.
Proof.
  induction l as [|y l IH]; intros a i x; simpl.
  - split; [contradiction|]. intros [_ H]. destruct (i - a)%nat; discriminate.
  - rewrite IH. split.
    + intros [H|[H1 H2]].
      * inversion H. subst. rewrite Nat.sub_diag. auto.
      * split; [lia|]. replace (i - a)%nat with (S (i - S a)) by lia. exact H2.
    + intros [H1 H2]. destruct (i - a)%nat as [|n] eqn:D.
      * left. simpl in H2. inversion H2. f_equal. lia.
      * right. split; [lia|]. simpl in H2. replace (i - S a)%nat with n by lia. exact H2.
Qed.

Lemma in_skipn_nth (m : nat) (l : list A) (x : A) :
  In x (skipn m l) <-> exists i, (m <= i)%nat /\ nth_error l i = Some x.
Proof.
  revert l. induction m as [|m IH]; intros l.
  - simpl. split.
    + intros H. apply In_nth_error in H. destruct H as [i H]. exists i. split; [lia|auto].
    + intros [i [_ H]]. eapply nth_error_In; eassumption.
  - destruct l as [|y l]; simpl.
    + split; [contradiction|]. intros [i [_ H]]. destruct i; discriminate.
    + rewrite IH. split.
      * intros [i [Hi H]]. exists (S i). split; [lia|exact H].
      * intros [i [Hi H]]. destruct i as [|i]; [lia|]. exists i. split; [lia|exact H].
Qed.

Lemma StronglySorted_app_order (R : A -> A -> Prop) (l1 l2 : list A) (x y : A) :
  StronglySorted R (l1 ++ l2) -> In x l1 -> In y l2 -> R x y.
Proof.
  induction l1 as [|a l1 IH]; simpl; intros S Hx Hy; [contradiction|].
  inversion S as [|? ? S' F]. subst.
  destruct Hx as [->|Hx]; [|auto].
  rewrite Forall_forall in F. apply F. apply in_or_app. auto.
Qed.

End ListFacts.

Section Retention.

Import DatabaseService.

Lemma insert_desc_Permutation (r : DBVideo.t) (l : list DBVideo.t) :
  Permutation (insert_desc r l) (r :: l).
Proof.
  induction l as [|x l IH]; simpl; [auto|].
  destruct (DBVideo.published_at x <=? DBVideo.published_at r); [auto|].
  eapply Permutation_trans; [apply perm_skip, IH | apply perm_swap].
Qed.

Lemma order_by_Permutation (l : list DBVideo.t) :
  Permutation (order_by_published_at_desc l) l.
Proof.
  induction l as [|x l IH]; simpl; [auto|].
  eapply Permutation_trans; [apply insert_desc_Permutation | auto].
Qed.

Lemma insert_desc_sorted (r : DBVideo.t) (l : list DBVideo.t) :
  StronglySorted newerFirst l -> StronglySorted newerFirst (insert_desc r l).
Proof.
  induction l as [|x l IH]; simpl; intros S.
  - repeat constructor.
  - inversion S as [|? ? S' F]. subst.
    destruct (Z.leb_spec (DBVideo.published_at x) (DBVideo.published_at r)) as [L|L].
    + constructor; [assumption|]. constructor; [exact L|].
      rewrite Forall_forall in *. intros y Hy. specialize (F y Hy).
      unfold newerFirst in *. lia.
    + constructor; [auto|].
      rewrite Forall_forall in *. intros y Hy.
      apply (Permutation_in _ (insert_desc_Permutation r l)) in Hy.
      destruct Hy as [<-|Hy]; [unfold newerFirst; lia | auto].
Qed.

(** The window of a partition is its rows, newest first. *)
Lemma order_by_sorted (l : list DBVideo.t) :
  StronglySorted newerFirst (order_by_published_at_desc l).
Proof.
  induction l as [|x l IH]; simpl; [constructor | apply insert_desc_sorted, IH].
Qed.

Lemma order_by_length (l : list DBVideo.t) :
  List.length (order_by_published_at_desc l) = List.length l.
Proof. apply Permutation_length, order_by_Permutation. Qed.

Lemma order_by_In (l : list DBVideo.t) (r : DBVideo.t) :
  In r (order_by_published_at_desc l) <-> In r l.
Proof.
  split; apply Permutation_in;
    [apply order_by_Permutation | apply Permutation_sym, order_by_Permutation].
Qed.

Lemma partition_of_In (c : string) (rows : list DBVideo.t) (r : DBVideo.t) :
  In r (partition_of c rows) <-> In r rows /\ DBVideo.channel_id r = c.
Proof. unfold partition_of. rewrite filter_In, String.eqb_eq. reflexivity. Qed.

(** A row and its number are in [ranked] exactly when the row stands at that
    place, counted from 1, in the window of its own channel. *)
Lemma ranked_In (rows : list DBVideo.t) (rn : nat) (r : DBVideo.t) :
  In (rn, r) (ranked rows)
  <-> (1 <= rn)%nat
      /\ nth_error (order_by_published_at_desc (partition_of (DBVideo.channel_id r) rows))
                   (rn - 1) = Some r.
Proof.
  unfold ranked. rewrite in_flat_map. split.
  - intros [c [_ H]]. pose proof H as H'.
    apply in_combine_r, order_by_In, partition_of_In in H'. destruct H' as [_ <-].
    apply in_combine_seq in H. exact H.
  - intros [H1 H2]. exists (DBVideo.channel_id r). split.
    + apply nodup_In, in_map. apply nth_error_In, order_by_In, partition_of_In in H2. tauto.
    + apply in_combine_seq. auto.
Qed.

(** The rows that the two [DELETE] statements select: the unbookmarked rows
    that stand after the first [maxPerChannel] of their channel's window. *)
Lemma beyond_limit_In (maxPerChannel : Z) (rows : list DBVideo.t) (r : DBVideo.t) :
  0 <= maxPerChannel ->
  (In r (beyond_limit maxPerChannel rows)
   <-> DBVideo.bookmarked r = 0
       /\ In r (skipn (Z.to_nat maxPerChannel)
                      (order_by_published_at_desc
                         (partition_of (DBVideo.channel_id r) rows)))).
Proof.
  intros Hmax. unfold beyond_limit. rewrite in_map_iff. split.
  - intros [[rn r'] [E H]]. simpl in E. subst r'.
    apply filter_In in H. destruct H as [H C].
    apply andb_true_iff in C. destruct C as [C1 C2].
    apply Z.ltb_lt in C1. apply Z.eqb_eq in C2.
    apply ranked_In in H. destruct H as [H1 H2].
    split; [exact C2|]. apply in_skipn_nth. exists (rn - 1)%nat. split; [lia|exact H2].
  - intros [B H]. apply in_skipn_nth in H. destruct H as [i [Hi H]].
    exists (S i, r). split; [reflexivity|]. apply filter_In. split.
    + apply ranked_In. split; [lia|]. simpl. rewrite Nat.sub_0_r. exact H.
    + apply andb_true_iff. split; [apply Z.ltb_lt; lia | apply Z.eqb_eq; exact B].
Qed.

Lemma beyond_limit_incl (maxPerChannel : Z) (rows : list DBVideo.t) (r : DBVideo.t) :
  In r (beyond_limit maxPerChannel rows) -> In r rows.
Proof.
  unfold beyond_limit. rewrite in_map_iff. intros [[rn r'] [E H]]. simpl in E. subst r'.
  apply filter_In in H. destruct H as [H _].
  apply ranked_In in H. destruct H as [_ H].
  apply nth_error_In, order_by_In, partition_of_In in H. tauto.
Qed.

(** Under the primary key, deleting by [id] deletes the selected rows and
    no other. *)
Lemma selected_by_id (rows selected : list DBVideo.t) (r : DBVideo.t) :
  NoDup (map DBVideo.id rows) ->
  (forall x, In x selected -> In x rows) ->
  In r rows ->
  (existsb (Z.eqb (DBVideo.id r)) (map DBVideo.id selected) = true <-> In r selected).
Proof.
  intros N Hincl Hr. rewrite existsb_exists. split.
  - intros [i [Hi E]]. apply Z.eqb_eq in E. subst i.
    apply in_map_iff in Hi. destruct Hi as [x [E Hx]].
    rewrite (NoDup_map_injective DBVideo.id rows r x N Hr (Hincl x Hx)); auto.
  - intros H. exists (DBVideo.id r). split; [apply in_map; exact H | apply Z.eqb_refl].
Qed.

(** A row of the table survives [cleanupOldVideos] exactly when it is not
    selected. *)
Lemma cleanupOldVideos_survivors (maxPerChannel : Z) (d : DB) (r : DBVideo.t) :
  NoDup (map DBVideo.id (videos d)) ->
  (In r (videos (fst (cleanupOldVideos maxPerChannel d)))
   <-> In r (videos d) /\ ~ In r (beyond_limit maxPerChannel (videos d))).
Proof.
  intros N. unfold cleanupOldVideos. simpl. rewrite filter_In.
  split; intros [H1 H2]; split; auto.
  - intros H. apply (selected_by_id (videos d) _ r N (beyond_limit_incl _ _)) in H; auto.
    rewrite H in H2. discriminate.
  - apply negb_true_iff. apply not_true_is_false. intros H. apply H2.
    apply (selected_by_id (videos d) _ r N (beyond_limit_incl _ _)); auto.
Qed.

(** Bookmarked rows are never deleted, whatever their rank. *)
Lemma cleanupOldVideos_keeps_bookmarked (maxPerChannel : Z) (d : DB) (r : DBVideo.t) :
  NoDup (map DBVideo.id (videos d)) ->
  In r (videos d) -> DBVideo.bookmarked r <> 0 ->
  In r (videos (fst (cleanupOldVideos maxPerChannel d))).
Proof.
  intros N H B. apply cleanupOldVideos_survivors; [assumption|].
  split; [assumption|]. unfold beyond_limit. rewrite in_map_iff.
  intros [[rn r'] [E F]]. simpl in E. subst r'.
  apply filter_In in F. destruct F as [_ F].
  apply andb_true_iff in F. destruct F as [_ F]. apply Z.eqb_eq in F. contradiction.
Qed.

End Retention.

Section ScenarioD.

Import DatabaseService.

Variable d : DB.
Variable c : string.

Hypothesis primary_key : NoDup (map DBVideo.id (videos d)).

Let rows := partition_of c (videos d).
Let window := order_by_published_at_desc rows.
Let after := fst (cleanupOldVideos 10 d).

Lemma window_rows (r : DBVideo.t) :
  In r window <-> In r (videos d) /\ DBVideo.channel_id r = c.
Proof. unfold window, rows. rewrite order_by_In, partition_of_In. reflexivity. Qed.

Lemma window_NoDup : NoDup window.
Proof.
  apply (Permutation_NoDup (Permutation_sym (order_by_Permutation rows))).
  apply NoDup_filter, (NoDup_map_NoDup DBVideo.id). exact primary_key.
Qed.

Lemma window_split : window = firstn 10 window ++ skipn 10 window.
Proof. symmetry. apply firstn_skipn. Qed.

(** In channel [c], the deleted rows are the unbookmarked rows after the
    first ten of the window. *)
Lemma deleted_iff (r : DBVideo.t) :
  In r window ->
  (negb (existsb (Z.eqb (DBVideo.id r)) (map DBVideo.id (videos after))) = true
   <-> unbookmarked r = true /\ In r (skipn 10 window)).
Proof.
  intros Hw. pose proof (proj1 (window_rows r) Hw) as [Hr Hc].
  assert (existsb (Z.eqb (DBVideo.id r)) (map DBVideo.id (videos after)) = true
          <-> In r (videos after)) as Hex.
  { apply (selected_by_id (videos d)); auto.
    intros x Hx. apply cleanupOldVideos_survivors in Hx; tauto. }
  assert (In r (beyond_limit 10 (videos d))
          <-> unbookmarked r = true /\ In r (skipn 10 window)) as Hb.
  { rewrite beyond_limit_In by lia. unfold unbookmarked, window, rows.
    rewrite Hc, Z.eqb_eq. reflexivity. }
  pose proof (selected_by_id (videos d) (beyond_limit 10 (videos d)) r primary_key
                (beyond_limit_incl 10 (videos d)) Hr) as Hsel.
  rewrite <- Hb, negb_true_iff, <- not_true_iff_false, Hex.
  unfold after. rewrite cleanupOldVideos_survivors by assumption.
  split; [|tauto]. intros H.
  destruct (existsb (Z.eqb (DBVideo.id r)) (map DBVideo.id (beyond_limit 10 (videos d)))).
  - apply Hsel. reflexivity.
  - exfalso. apply H. split; [assumption|]. intros K. apply Hsel in K. discriminate.
Qed.

End ScenarioD.

(** C8, amended. One channel holds 15 unbookmarked and 2 bookmarked videos,
    with pairwise distinct publication times, and [cleanupOldVideos] runs
    with [maxPerChannel = 10].  The ranking counts bookmarked videos too:
    with [k] the number of bookmarked videos among the ten newest of the
    channel, exactly [5 + k] videos of the channel are deleted.  They are
    the unbookmarked videos ranked after the tenth, each of them older than
    every unbookmarked video that stays, and no bookmarked video is
    deleted.  Exactly 5 are deleted when no bookmarked video is among the
    ten newest. *)
Theorem cleanupOldVideos_scenario_D :
  forall (db : DatabaseService.DB) (c : string),
    let rows := DatabaseService.partition_of c (DatabaseService.videos db) in
    let newestFirst := DatabaseService.order_by_published_at_desc rows in
    let after := fst (DatabaseService.cleanupOldVideos 10 db) in
    let deleted := deletedRows c db after in
    let k := List.length (filter (fun r => negb (unbookmarked r)) (firstn 10 newestFirst)) in
    NoDup (map DBVideo.id (DatabaseService.videos db)) ->
    List.length (filter unbookmarked rows) = 15%nat ->
    List.length (filter (fun r => negb (unbookmarked r)) rows) = 2%nat ->
    NoDup (map DBVideo.published_at rows) ->
    List.length deleted = (5 + k)%nat
    /\ (k <= 2)%nat
    /\ (forall r, In r deleted <-> In r (skipn 10 newestFirst) /\ DBVideo.bookmarked r = 0)
    /\ (forall r, In r rows -> DBVideo.bookmarked r <> 0 ->
                  In r (DatabaseService.videos after))
    /\ (forall r s, In r deleted ->
                    In s rows -> DBVideo.bookmarked s = 0 ->
                    In s (DatabaseService.videos after) ->
                    DBVideo.published_at r < DBVideo.published_at s).
Proof.
  intros db c rows newestFirst after deleted k PK Hun Hbm Hdistinct.
  pose proof (order_by_Permutation rows) as Hperm. fold newestFirst in Hperm.
  pose proof (window_NoDup db c PK) as Hnodup. fold rows newestFirst in Hnodup.
  pose proof (firstn_skipn 10 newestFirst) as Hsplit.
  assert (forall r, In r newestFirst ->
            (negb (existsb (Z.eqb (DBVideo.id r))
                           (map DBVideo.id (DatabaseService.videos after))) = true
             <-> unbookmarked r = true /\ In r (skipn 10 newestFirst))) as Hdel.
  { intros r Hr. apply (deleted_iff db c PK r Hr). }
  assert (forall r, In r deleted <-> In r (skipn 10 newestFirst) /\ DBVideo.bookmarked r = 0)
    as Hchar.
  { intros r. unfold deleted, deletedRows. fold rows. rewrite filter_In. split.
    - intros [Hr Hd]. apply Hdel in Hd.
      + unfold unbookmarked in Hd. rewrite Z.eqb_eq in Hd. tauto.
      + apply (Permutation_in _ (Permutation_sym Hperm)). exact Hr.
    - intros [Hs Hb].
      assert (In r newestFirst) as Hr.
      { rewrite <- Hsplit. apply in_or_app. auto. }
      split; [apply (Permutation_in _ Hperm); exact Hr|].
      apply Hdel; [exact Hr|]. unfold unbookmarked. rewrite Z.eqb_eq. auto. }
  (* the counts *)
  assert (List.length rows = 17%nat) as Hlen.
  { rewrite <- (filter_complement_length unbookmarked rows). lia. }
  assert (List.length newestFirst = 17%nat) as Hlen'.
  { rewrite (Permutation_length Hperm). exact Hlen. }
  pose proof (filter_complement_length unbookmarked (firstn 10 newestFirst)) as C1.
  pose proof (filter_complement_length unbookmarked (skipn 10 newestFirst)) as C2.
  rewrite length_firstn in C1. rewrite length_skipn in C2. fold k in C1.
  assert (List.length (filter unbookmarked (firstn 10 newestFirst))
          + List.length (filter unbookmarked (skipn 10 newestFirst)) = 15)%nat as C3.
  { rewrite <- length_app, <- filter_app, Hsplit.
    rewrite (Permutation_length (filter_Permutation unbookmarked _ _ Hperm)). exact Hun. }
  assert (List.length deleted
          = List.length (filter unbookmarked (skipn 10 newestFirst))) as Hcount.
  { unfold deleted, deletedRows. fold rows.
    rewrite <- (Permutation_length (filter_Permutation _ _ _ Hperm)).
    rewrite <- Hsplit at 1. rewrite filter_app, length_app.
    rewrite filter_none.
    - change (List.length (@nil DBVideo.t)) with 0%nat. rewrite Nat.add_0_l.
      f_equal. apply filter_ext_in. intros r Hr.
      assert (In r newestFirst) as Hr' by (rewrite <- Hsplit; apply in_or_app; auto).
      apply eq_true_iff_eq. cbv beta. rewrite (Hdel r Hr'). tauto.
    - intros r Hr. apply not_true_is_false. intros Hd.
      assert (In r newestFirst) as Hr' by (rewrite <- Hsplit; apply in_or_app; auto).
      apply (Hdel r Hr') in Hd. destruct Hd as [_ Hd].
      rewrite <- Hsplit in Hnodup. exact (NoDup_app_disjoint _ _ r Hnodup Hr Hd). }
  split; [lia|]. split; [lia|]. split; [exact Hchar|]. split.
  - intros r Hr Hb. apply cleanupOldVideos_keeps_bookmarked; auto.
    apply partition_of_In in Hr. tauto.
  - intros r s Hr Hs Hsb Hsafter.
    apply Hchar in Hr. destruct Hr as [Hr Hrb].
    assert (In s newestFirst) as Hs'.
    { apply (Permutation_in _ (Permutation_sym Hperm)). exact Hs. }
    assert (~ In s (skipn 10 newestFirst)) as Hnot.
    { intros Hskip.
      assert (In s deleted) as Hsd by (apply Hchar; auto).
      unfold deleted, deletedRows in Hsd. apply filter_In in Hsd.
      destruct Hsd as [_ Hsd]. apply negb_true_iff in Hsd.
      assert (existsb (Z.eqb (DBVideo.id s))
                      (map DBVideo.id (DatabaseService.videos after)) = true) as Hin.
      { apply existsb_exists. exists (DBVideo.id s).
        split; [apply in_map; exact Hsafter | apply Z.eqb_refl]. }
      congruence. }
    assert (In s (firstn 10 newestFirst)) as Hfirst.
    { rewrite <- Hsplit in Hs'. apply in_app_or in Hs'. tauto. }
    pose proof (order_by_sorted rows) as Hsorted. fold newestFirst in Hsorted.
    rewrite <- Hsplit in Hsorted.
    pose proof (StronglySorted_app_order _ _ _ s r Hsorted Hfirst Hr) as Hle.
    unfold newerFirst in Hle.
    assert (DBVideo.published_at r <> DBVideo.published_at s) as Hne.
    { intros E. apply Hnot.
      assert (In r rows) as Hrrows.
      { apply (Permutation_in _ Hperm). rewrite <- Hsplit. apply in_or_app. auto. }
      rewrite <- (NoDup_map_injective DBVideo.published_at rows r s Hdistinct Hrrows Hs E).
      exact Hr. }
    lia.
Qed.

(** C8, as stated, fails: when the two bookmarked videos are the newest of
    the channel they take ranks 1 and 2, the unbookmarked videos take ranks
    3 to 17, and the seven of rank 11 to 17 (days 1 to 7) are deleted, not
    five. *)
Lemma cleanupOldVideos_deletes_seven :
  List.length (filter unbookmarked
                 (DatabaseService.partition_of "UC-retention"
                    (DatabaseService.videos bookmarksNewest))) = 15%nat
  /\ List.length (filter (fun r => negb (unbookmarked r))
                    (DatabaseService.partition_of "UC-retention"
                       (DatabaseService.videos bookmarksNewest))) = 2%nat
  /\ snd (DatabaseService.cleanupOldVideos 10 bookmarksNewest) = 7%nat
  /\ map DBVideo.id
         (deletedRows "UC-retention" bookmarksNewest
            (fst (DatabaseService.cleanupOldVideos 10 bookmarksNewest)))
     = [1; 2; 3; 4; 5; 6; 7].
Proof. vm_compute. repeat split. Qed.

Lemma NoDup_checked (l : list Z) : nodup Z.eq_dec l = l -> NoDup l.
Proof. intros H. rewrite <- H. apply NoDup_nodup. Qed.

(** With the bookmarked videos the two oldest, exactly five videos go. *)
Lemma cleanupOldVideos_scenario_D_witness :
  List.length (deletedRows "UC-retention" bookmarksOldest
                 (fst (DatabaseService.cleanupOldVideos 10 bookmarksOldest))) = 5%nat.
Proof.
  refine (proj1 (cleanupOldVideos_scenario_D bookmarksOldest "UC-retention" _ _ _ _)).
  - apply NoDup_checked. vm_compute. reflexivity.
  - vm_compute. reflexivity.
  - vm_compute. reflexivity.
  - apply NoDup_checked. vm_compute. reflexivity.
Defined.

(** ** One channel check *)

Section ChannelCheck.

Import DatabaseService YouTubeMonitor.

Variable now : Z.
Variable channelId : string.

(** The events that one upsert appends. *)
Lemma upsertVideo_events (video : VideoInfo.t) (c : string) (d : DB) :
  exists added,
    events (fst (upsertVideo now video c d)) = events d ++ added
    /\ map DBEvent.event_type added
       = match determineEvent (getVideo (VideoInfo.videoId video) d) video with
         | Some e => [e]
         | None => []
         end
    /\ Forall (fun row => DBEvent.video_id row = VideoInfo.videoId video
                          /\ DBEvent.channel_id row = c) added.
Proof.
  unfold upsertVideo.
  destruct (insert_on_conflict _ _ _) as [rows ret].
  destruct (determineEvent _ _) as [e|]; simpl.
  - eexists [_]. split; [reflexivity|]. split; [reflexivity|].
    constructor; [split; reflexivity | constructor].
  - exists []. rewrite app_nil_r. repeat split. constructor.
Qed.

(** An item that is neither live nor upcoming starts no live and schedules
    none. *)
Lemma determineEvent_plain (existing : option DBVideo.t) (video : VideoInfo.t) (e : EventType) :
  VideoInfo.isLive video = false -> VideoInfo.isUpcoming video = false ->
  determineEvent existing video = Some e ->
  e = new_video \/ e = live_ended \/ e = video_updated.
Proof.
  intros Hl Hu. unfold determineEvent. rewrite Hl, Hu.
  destruct existing as [r|].
  - rewrite andb_false_r. simpl.
    destruct (truthy_int (DBVideo.is_live r)); simpl.
    + intros H. inversion H. auto.
    + destruct (_ || _); intros H; inversion H. auto.
  - intros H. inversion H. auto.
Qed.

(** What the guards of the feed loop let through. *)
Lemma reachesUpsert_video (shortIds : list string) (video : VideoInfo.t) :
  reachesUpsert shortIds video = true ->
  VideoInfo.type video = TVideo
  /\ VideoInfo.isLive video = false
  /\ VideoInfo.isLiveContent video = false.
Proof.
  unfold reachesUpsert.
  destruct (VideoInfo.type video), (VideoInfo.isLive video),
    (VideoInfo.isLiveContent video); simpl;
    repeat match goal with
           | |- context [if ?b then _ else _] => destruct b
           end; intros H; try discriminate; auto.
Qed.

Lemma feedStep_skips (info : option ChannelInfo.t) (shortIds : list string)
    (acc : DB * list Emitted) (video : VideoInfo.t) :
  reachesUpsert shortIds video = false ->
  feedStep now channelId info shortIds acc video = acc.
Proof. intros H. unfold feedStep. destruct acc. rewrite H. reflexivity. Qed.





(** *** Retiring the ended lives *)

Lemma filter_filter {A : Type} (f g : A -> bool) (l : list A) :
  filter f (filter g l) = filter (fun x => g x && f x) l.
Proof.
  induction l as [|x l IH]; simpl; [reflexivity|].
  destruct (g x); simpl; [destruct (f x)|]; rewrite IH; reflexivity.
Qed.








End ChannelCheck.

Lemma checkChannel_db (now : Z) (maxVideosPerFeed : nat)
    (feedResults : list (FeedType * list RSSItem.t))
    (liveNow : option VideoInfo.t) (channelId : string) (st : YouTubeMonitor.State) :
  YouTubeMonitor.db
    (fst (fst (YouTubeMonitor.checkChannel now maxVideosPerFeed feedResults liveNow channelId st)))
  = match DatabaseService.getChannel channelId (YouTubeMonitor.db st) with
    | None => YouTubeMonitor.db st
    | Some _ =>
        DatabaseService.updateChannelLastChecked now channelId
          (YouTubeMonitor.cleanupEndedLives channelId liveNow
             (storeBeforeCleanup now maxVideosPerFeed feedResults liveNow channelId st))
    end.
Proof.
  unfold YouTubeMonitor.checkChannel, storeBeforeCleanup.
  destruct (DatabaseService.getChannel channelId (YouTubeMonitor.db st)); [|reflexivity].
  destruct (YouTubeMonitor.resolveChannelInfo channelId st) as [info cache].
  destruct (YouTubeMonitor.upsertsOfCheck _ _ _ _ _ _) as [d emitted].
  reflexivity.
Qed.



(** ** The feed items of a channel check *)

Section FeedItems.

Import DatabaseService YouTubeMonitor.

Variable now : Z.
Variable channelId : string.
Variable info : option ChannelInfo.t.

Lemma VideoType_eqb_eq (a b : VideoType) : VideoType_eqb a b = true <-> a = b.
Proof. destruct a, b; simpl; split; congruence. Qed.

(** The stubs of the feed scan carry no live and no upcoming signal, and
    their type is the one of their feed. *)
Lemma feed_scan_signals (maxVideosPerFeed : nat)
    (feedResults : list (FeedType * list RSSItem.t)) (v : VideoInfo.t) :
  In v (YouTubeScraper.getChannelVideos_unclassified maxVideosPerFeed feedResults) ->
  VideoInfo.isUpcoming v = false
  /\ VideoInfo.isLive v = false
  /\ VideoInfo.type v <> TScheduled
  /\ VideoInfo.type v <> TLive.
Proof.
  intros H. unfold YouTubeScraper.getChannelVideos_unclassified in H.
  apply deduplicateVideos_In, in_flat_map in H.
  destruct H as [[feedType items] [_ H]].
  apply in_map_iff in H. destruct H as [item [<- _]].
  destruct feedType; simpl; repeat split; discriminate.
Qed.

Lemma feedStep_other_type (shortIds : list string) (acc : DB * list Emitted)
    (v : VideoInfo.t) :
  VideoInfo.type v <> TVideo -> feedStep now channelId info shortIds acc v = acc.
Proof.
  intros H. apply feedStep_skips.
  destruct (reachesUpsert shortIds v) eqn:R; [|reflexivity].
  apply reachesUpsert_video in R. tauto.
Qed.

Lemma feedLoop_videos_only (shortIds : list string) (items : list VideoInfo.t)
    (acc : DB * list Emitted) :
  fold_left (feedStep now channelId info shortIds) items acc
  = fold_left (feedStep now channelId info shortIds) (filter isVideo items) acc.
Proof.
  revert acc. induction items as [|v items IH]; intros acc; simpl; [reflexivity|].
  unfold isVideo at 1. destruct (VideoType_eqb (VideoInfo.type v) TVideo) eqn:E.
  - simpl. apply IH.
  - rewrite feedStep_other_type; [apply IH|].
    intros K. apply VideoType_eqb_eq in K. congruence.
Qed.

(** What one iteration adds to the [events] table and to the emissions. *)
Lemma feedStep_adds (shortIds : list string) (acc : DB * list Emitted) (v : VideoInfo.t) :
  VideoInfo.isUpcoming v = false ->
  exists rows emitted,
    events (fst (feedStep now channelId info shortIds acc v)) = events (fst acc) ++ rows
    /\ snd (feedStep now channelId info shortIds acc v) = snd acc ++ emitted
    /\ Forall (fun row => plainEvent (DBEvent.event_type row)) rows
    /\ Forall (fun e => exists ev i,
                 e = EmitVideo ev v i /\ VideoInfo.type v = TVideo /\ plainEvent ev)
              emitted.
Proof.
  intros Hup. unfold feedStep. destruct acc as [d em].
  destruct (reachesUpsert shortIds v) eqn:R.
  - apply reachesUpsert_video in R. destruct R as [Ht [Hl _]].
    destruct (upsertVideo_events now v channelId d) as [rows [E [T _]]].
    pose proof (upsertVideo_event now v channelId d) as Ev.
    destruct (upsertVideo now v channelId d) as [d' [row event]]. simpl in *.
    subst event.
    destruct (determineEvent (getVideo (VideoInfo.videoId v) d) v) as [e|] eqn:D.
    + pose proof (determineEvent_plain _ _ _ Hl Hup D) as P.
      exists rows. eexists. split; [exact E|]. split; [reflexivity|]. split.
      * destruct rows as [|r [|r' rows]]; simpl in T; try discriminate.
        inversion T as [T']. constructor; [rewrite T'; exact P | constructor].
      * destruct info as [i|]; constructor; [|constructor]. exists e, i. auto.
    + exists rows, []. split; [exact E|]. split; [rewrite app_nil_r; reflexivity|].
      destruct rows; [|discriminate]. split; constructor.
  - exists [], []. simpl. rewrite !app_nil_r. repeat split; constructor.
Qed.

Lemma feedLoop_adds (shortIds : list string) (items : list VideoInfo.t) :
  (forall v, In v items -> VideoInfo.isUpcoming v = false) ->
  forall acc : DB * list Emitted,
  exists rows emitted,
    events (fst (fold_left (feedStep now channelId info shortIds) items acc))
    = events (fst acc) ++ rows
    /\ snd (fold_left (feedStep now channelId info shortIds) items acc)
       = snd acc ++ emitted
    /\ Forall (fun row => plainEvent (DBEvent.event_type row)) rows
    /\ Forall (fun e => exists ev v i,
                 e = EmitVideo ev v i /\ In v items
                 /\ VideoInfo.type v = TVideo /\ plainEvent ev)
              emitted.
Proof.
  induction items as [|v items IH]; intros Hup acc; simpl.
  - exists [], []. rewrite !app_nil_r. repeat split; constructor.
  - destruct (feedStep_adds shortIds acc v (Hup v (or_introl eq_refl)))
      as [rows1 [em1 [E1 [M1 [F1 G1]]]]].
    destruct (IH (fun x Hx => Hup x (or_intror Hx))
                 (feedStep now channelId info shortIds acc v))
      as [rows2 [em2 [E2 [M2 [F2 G2]]]]].
    exists (rows1 ++ rows2), (em1 ++ em2).
    rewrite E2, E1, M2, M1, <- !app_assoc.
    split; [reflexivity|]. split; [reflexivity|]. split.
    + apply Forall_app. auto.
    + apply Forall_app. split.
      * eapply Forall_impl; [|exact G1]. intros e [ev [i [H1 [H2 H3]]]].
        exists ev, v, i. simpl. auto.
      * eapply Forall_impl; [|exact G2]. intros e [ev [x [i [H1 [H2 [H3 H4]]]]]].
        exists ev, x, i. simpl. auto.
Qed.

End FeedItems.

(** C10. In a channel check, the loop over the feed items upserts an item
    only when its type is [video]: an item of any other type (so also one
    typed [scheduled]) leaves the store and the emissions as they are, and
    the loop does what it would do on the [video] items alone.  The items of
    the feed scan never carry is-upcoming or is-live and are never typed
    [scheduled] or [live].  So every event that the loop adds to the store,
    and every event it emits, is [new_video], [live_ended] or
    [video_updated], and is emitted for an item of type [video]: no
    [scheduled_live] (and no [live_started]) comes from a feed item. *)
Theorem checkChannel_feed_upserts_only_videos :
  forall (now : Z) (channelId : string) (info : option ChannelInfo.t)
         (maxVideosPerFeed : nat) (feedResults : list (FeedType * list RSSItem.t)),
    let videos :=
      YouTubeScraper.getChannelVideos_unclassified maxVideosPerFeed feedResults in
    (forall shortIds acc v,
        VideoInfo.type v <> TVideo ->
        YouTubeMonitor.feedStep now channelId info shortIds acc v = acc)
    /\ (forall acc,
          YouTubeMonitor.processFeedVideos now channelId info videos acc
          = fold_left (YouTubeMonitor.feedStep now channelId info
                         (YouTubeMonitor.shortIdsOf videos))
                      (filter isVideo videos) acc)
    /\ (forall v, In v videos ->
          VideoInfo.isUpcoming v = false /\ VideoInfo.isLive v = false
          /\ VideoInfo.type v <> TScheduled /\ VideoInfo.type v <> TLive)
    /\ (forall acc, exists rows emitted,
          DatabaseService.events
            (fst (YouTubeMonitor.processFeedVideos now channelId info videos acc))
          = DatabaseService.events (fst acc) ++ rows
          /\ snd (YouTubeMonitor.processFeedVideos now channelId info videos acc)
             = snd acc ++ emitted
          /\ Forall (fun row => plainEvent (DBEvent.event_type row)) rows
          /\ Forall (fun e => exists ev v i,
                       e = YouTubeMonitor.EmitVideo ev v i /\ In v videos
                       /\ VideoInfo.type v = TVideo /\ plainEvent ev)
                    emitted).
Proof.
  intros now channelId info maxVideosPerFeed feedResults videos.
  split; [|split; [|split]].
  - intros shortIds acc v. apply feedStep_other_type.
  - intros acc. apply feedLoop_videos_only.
  - intros v. apply feed_scan_signals.
  - intros acc. apply feedLoop_adds.
    intros v Hv. apply (feed_scan_signals maxVideosPerFeed feedResults v Hv).
Qed.

(** ** Worked scenarios *)

(** The multi-live scenario: the probe returns a third broadcast, the two
    stale lives are retired, the upload is stored as a [video]. *)
Example checkChannel_retires_stale_lives :
  let '(st, emitted, _) :=
    YouTubeMonitor.checkChannel 1700000600000 15
      [(FLives, []); (FVideos, [upload]); (FShorts, [])]
      (Some (probed "live-000003")) "UC-live" twoLives in
  map (fun r => (DBVideo.video_id r, DBVideo.type r, DBVideo.is_live r))
      (DatabaseService.videos (YouTubeMonitor.db st))
  = [("live-000003"%string, TLive, 1); ("upload-0001"%string, TVideo, 0)]
  /\ map (fun e => match e with
                   | YouTubeMonitor.EmitVideo ev v _ => Some (ev, VideoInfo.videoId v)
                   | _ => None
                   end) emitted
     = [Some (live_started, "live-000003"%string);
        Some (new_video, "upload-0001"%string); None].
Proof. vm_compute. split; reflexivity. Qed.


(** The witness of C9: the probe re-sights the bookmarked live
    ["live-000001"] with a new title; the row keeps [bookmarked = 1]. *)
Lemma upsertVideo_keeps_bookmarked_witness :
  exists stored',
    DatabaseService.getVideo "live-000001"
      (fst (DatabaseService.upsertVideo 1700000600000 (probed "live-000001") "UC-live"
              (YouTubeMonitor.db twoLives))) = Some stored'
    /\ DBVideo.bookmarked stored' = 1
    /\ DBVideo.title stored' = "Stream (renamed)"%string.
Proof.
  destruct (upsertVideo_keeps_bookmarked 1700000600000 (probed "live-000001") "UC-live"
              (YouTubeMonitor.db twoLives) "live-000001" (liveRow 1 "live-000001" 1)
              eq_refl) as [stored' [H1 [H2 _]]].
  exists stored'. split; [exact H1|]. split; [exact H2|].
  vm_compute in H1. inversion H1. reflexivity.
Defined.

(** The guards of the feed loop test the type and the live signals, not
    is-upcoming: an item typed [video] that carried it would reach the
    upsert.  The feed scan of a channel check produces no such item. *)
Example reachesUpsert_tests_no_upcoming :
  YouTubeMonitor.reachesUpsert []
    {| VideoInfo.videoId := "upload-0002";
       VideoInfo.title := "Premiere";
       VideoInfo.publishedAt := 1700000400000;
       VideoInfo.thumbnailUrl := "";
       VideoInfo.type := TVideo;
       VideoInfo.duration := None;
       VideoInfo.scheduledStartTime := None;
       VideoInfo.isLive := false;
       VideoInfo.isLiveContent := false;
       VideoInfo.isUpcoming := true |} = true
  /\ YouTubeMonitor.reachesUpsert []
       {| VideoInfo.videoId := "upload-0003";
          VideoInfo.title := "Premiere";
          VideoInfo.publishedAt := 1700000400000;
          VideoInfo.thumbnailUrl := "";
          VideoInfo.type := TScheduled;
          VideoInfo.duration := None;
          VideoInfo.scheduledStartTime := Some 1700000900000;
          VideoInfo.isLive := false;
          VideoInfo.isLiveContent := false;
          VideoInfo.isUpcoming := true |} = false
  /\ YouTubeMonitor.reachesUpsert []
       {| VideoInfo.videoId := "upload-0004";
          VideoInfo.title := "Quick one #Shorts";
          VideoInfo.publishedAt := 1700000400000;
          VideoInfo.thumbnailUrl := "";
          VideoInfo.type := TVideo;
          VideoInfo.duration := None;
          VideoInfo.scheduledStartTime := None;
          VideoInfo.isLive := false;
          VideoInfo.isLiveContent := false;
          VideoInfo.isUpcoming := false |} = false.
Proof. repeat split. Qed.

(** Scenario A: an upload seen for the first time gives [new_video] and is
    stored with type [video]. *)
Example upsertVideo_scenario_A :
  let '(db, (row, event)) :=
    DatabaseService.upsertVideo 1700000600000
      (YouTubeScraper.stubOfItem FVideos upload) "UC-live" (YouTubeMonitor.db twoLives) in
  event = Some new_video
  /\ DBVideo.type row = TVideo
  /\ map DBEvent.event_type (DatabaseService.events db) = [new_video].
Proof. vm_compute. repeat split. Qed.

(** Two server errors and then the page: two backoff sleeps and three
    requests. *)
Example get_backoff_then_page :
  HttpClient.get 3
    (fun attempt =>
       if (attempt <? 2)%nat
       then HttpClient.Responds
              {| HttpClient.resp_status := 500;
                 HttpClient.statusText := "Internal Server Error";
                 HttpClient.retryAfter := None;
                 HttpClient.text := "" |}
       else HttpClient.Responds okPage)
  = (HttpClient.Returns "<html>page</html>"%string,
     [HttpClient.Acquire; HttpClient.RandomDelay;
      HttpClient.Fetch 0; HttpClient.SleepBackoff 1000;
      HttpClient.Fetch 1; HttpClient.SleepBackoff 2000;
      HttpClient.Fetch 2; HttpClient.Release]).
Proof. reflexivity. Qed.

(** The message of the HTTP error. *)
Example httpError_message :
  HttpClient.message (HttpClient.httpError notFound) = "HTTP 404: Not Found"%string.
Proof. reflexivity. Qed.

(** A video in the lives feed and in the videos feed stays the recording of
    the lives feed, whichever feed comes first. *)
Example getChannelVideos_lives_and_videos :
  map VideoInfo.type
      (YouTubeScraper.getChannelVideos_unclassified 15
         [(FLives, [upload]); (FVideos, [upload])]) = [TVod]
  /\ map VideoInfo.type
         (YouTubeScraper.getChannelVideos_unclassified 15
            [(FVideos, [upload]); (FLives, [upload])]) = [TVod].
Proof. split; reflexivity. Qed.

(** An upcoming broadcast without a start time, 45 seconds long, is a
    short; with a start time it is scheduled. *)
Example classifyVideo_examples :
  Classifier.classifyVideo
    {| YTPlayerResponse.isLive := None;
       YTPlayerResponse.isLiveContent := None;
       YTPlayerResponse.isUpcoming := Some true;
       YTPlayerResponse.duration := Some 45;
       YTPlayerResponse.scheduledStartTime := None |} None = TShort
  /\ Classifier.classifyVideo
       {| YTPlayerResponse.isLive := Some true;
          YTPlayerResponse.isLiveContent := Some true;
          YTPlayerResponse.isUpcoming := Some true;
          YTPlayerResponse.duration := Some 45;
          YTPlayerResponse.scheduledStartTime := Some 1700000900000 |}
       (Some HintShorts) = TScheduled.
Proof. split; reflexivity. Qed.

(* ===================================================================== *)
(** * Part IV: further properties                                         *)
(* ===================================================================== *)

(** ** The HTTP client *)

Section RequestBudget.

Import HttpClient.

Variable maxRetries : nat.
Variable env : nat -> Outcome.

Lemma after_fst (steps : list Effect) (x : Result * list Effect) :
  fst (after steps x) = fst x.
Proof. reflexivity. Qed.

Lemma after_snd (steps : list Effect) (x : Result * list Effect) :
  snd (after steps x) = steps ++ snd x.
Proof. reflexivity. Qed.

(** The requests of the loop are numbered from [attempt] on, without a gap,
    and there are at most [remaining] of them; a backoff sleep is never the
    last step of the last iteration. *)
Lemma get_loop_budget (remaining : nat) :
  forall (attempt : nat) (lastError : option Error),
    (attempt + remaining = maxRetries)%nat ->
    exists n,
      (n <= remaining)%nat
      /\ fetches (snd (get_loop maxRetries env remaining attempt lastError)) = seq attempt n
      /\ (List.length (backoffSleeps
                         (snd (get_loop maxRetries env remaining attempt lastError)))
          <= remaining - 1)%nat
      /\ Forall (fun ms => 1000 <= ms <= 30000)
                (backoffSleeps (snd (get_loop maxRetries env remaining attempt lastError))).
Proof.
  induction remaining as [|remaining IH]; intros attempt lastError Hsum.
  - exists 0%nat. simpl. repeat split; auto.
  - assert (forall le, exists n,
              (n <= remaining)%nat
              /\ fetches (snd (get_loop maxRetries env remaining (S attempt) le))
                 = seq (S attempt) n
              /\ (List.length (backoffSleeps
                                 (snd (get_loop maxRetries env remaining (S attempt) le)))
                  <= remaining - 1)%nat
              /\ Forall (fun ms => 1000 <= ms <= 30000)
                        (backoffSleeps
                           (snd (get_loop maxRetries env remaining (S attempt) le))))
      as IH'.
    { intros le. apply IH. lia. }
    assert (1000 <= getBackoffDelay attempt <= 30000) as Hdelay.
    { unfold getBackoffDelay.
      assert (0 < 2 ^ Z.of_nat attempt) by (apply Z.pow_pos_nonneg; lia). lia. }
    assert (forall e,
              nonRetryable e = false ->
              exists n,
                (n <= S remaining)%nat
                /\ fetches
                     (snd (if (attempt <? maxRetries - 1)%nat
                           then after [Fetch attempt; SleepBackoff (getBackoffDelay attempt)]
                                  (get_loop maxRetries env remaining (S attempt) (Some e))
                           else after [Fetch attempt]
                                  (get_loop maxRetries env remaining (S attempt) (Some e))))
                   = seq attempt n
                /\ (List.length
                      (backoffSleeps
                         (snd (if (attempt <? maxRetries - 1)%nat
                               then after [Fetch attempt; SleepBackoff (getBackoffDelay attempt)]
                                      (get_loop maxRetries env remaining (S attempt) (Some e))
                               else after [Fetch attempt]
                                      (get_loop maxRetries env remaining (S attempt) (Some e)))))
                    <= S remaining - 1)%nat
                /\ Forall (fun ms => 1000 <= ms <= 30000)
                     (backoffSleeps
                        (snd (if (attempt <? maxRetries - 1)%nat
                              then after [Fetch attempt; SleepBackoff (getBackoffDelay attempt)]
                                     (get_loop maxRetries env remaining (S attempt) (Some e))
                              else after [Fetch attempt]
                                     (get_loop maxRetries env remaining (S attempt) (Some e))))))
      as Hcatch.
    { intros e _. destruct (IH' (Some e)) as [n [Hn [F [B A]]]].
      exists (S n). destruct (Nat.ltb_spec attempt (maxRetries - 1)) as [L|L];
        rewrite after_snd, fetches_app, backoffSleeps_app, F; simpl.
      - repeat split; [lia | lia | constructor; assumption].
      - repeat split; [lia | lia | assumption]. }
    simpl get_loop. destruct (env attempt) as [r|e].
    + destruct (ok r).
      * exists 1%nat. simpl. repeat split; [lia | lia | constructor].
      * destruct (resp_status r =? 429).
        -- destruct (IH' lastError) as [n [Hn [F [B A]]]].
           exists (S n). rewrite after_snd, fetches_app, backoffSleeps_app, F. simpl.
           repeat split; [lia | lia | assumption].
        -- destruct (nonRetryable (httpError r)) eqn:N.
           ++ exists 1%nat. simpl. repeat split; [lia | lia | constructor].
           ++ apply Hcatch. exact N.
    + destruct (nonRetryable e) eqn:N.
      * exists 1%nat. simpl. repeat split; [lia | lia | constructor].
      * apply Hcatch. exact N.
Qed.

End RequestBudget.

(** X1. Whatever the server answers, one call of [get] sends at most
    [maxRetries] requests, numbered 0, 1, ... without a gap, sleeps at most
    [maxRetries - 1] backoff delays, each between 1 and 30 seconds, takes
    the semaphore first and gives it back last. *)
Theorem get_request_budget :
  forall (maxRetries : nat) (env : nat -> HttpClient.Outcome),
    exists n steps,
      (n <= maxRetries)%nat
      /\ snd (HttpClient.get maxRetries env)
         = (HttpClient.Acquire :: HttpClient.RandomDelay :: steps ++ [HttpClient.Release])
      /\ HttpClient.fetches steps = seq 0 n
      /\ (List.length (HttpClient.backoffSleeps steps) <= maxRetries - 1)%nat
      /\ Forall (fun ms => 1000 <= ms <= 30000) (HttpClient.backoffSleeps steps)
      /\ ~ In HttpClient.Acquire steps /\ ~ In HttpClient.Release steps.
Proof.
  intros maxRetries env.
  destruct (get_loop_budget maxRetries env maxRetries 0 None eq_refl)
    as [n [Hn [F [B A]]]].
  exists n, (snd (HttpClient.get_loop maxRetries env maxRetries 0 None)).
  repeat split; auto.
  - assert (forall remaining attempt le,
              ~ In HttpClient.Acquire
                  (snd (HttpClient.get_loop maxRetries env remaining attempt le))) as H.
    { induction remaining as [|remaining IH]; intros attempt le; simpl; [tauto|].
      destruct (env attempt) as [r|e];
        repeat match goal with
               | |- context [if ?b then _ else _] => destruct b
               end; simpl; intros K;
        repeat (destruct K as [K|K]; try discriminate);
        first [contradiction | eapply IH; eassumption]. }
    apply H.
  - assert (forall remaining attempt le,
              ~ In HttpClient.Release
                  (snd (HttpClient.get_loop maxRetries env remaining attempt le))) as H.
    { induction remaining as [|remaining IH]; intros attempt le; simpl; [tauto|].
      destruct (env attempt) as [r|e];
        repeat match goal with
               | |- context [if ?b then _ else _] => destruct b
               end; simpl; intros K;
        repeat (destruct K as [K|K]; try discriminate);
        first [contradiction | eapply IH; eassumption]. }
    apply H.
Qed.

Section Exhaustion.

Import HttpClient.

Variable maxRetries : nat.
Variable env : nat -> Outcome.

Hypothesis all_fail : forall i, (i < maxRetries)%nat -> failsWith (env i) <> None.

(** When every attempt fails in a way the loop retries, the loop runs all
    its iterations, sleeps the backoff delay after each but the last, and
    ends with the error of the last attempt in [lastError]. *)
Lemma get_loop_exhausts (remaining : nat) :
  forall (attempt : nat) (lastError : option Error),
    (attempt + S remaining = maxRetries)%nat ->
    exists e,
      failsWith (env (maxRetries - 1)) = Some e
      /\ fst (get_loop maxRetries env (S remaining) attempt lastError) = Rejects e
      /\ fetches (snd (get_loop maxRetries env (S remaining) attempt lastError))
         = seq attempt (S remaining)
      /\ backoffSleeps (snd (get_loop maxRetries env (S remaining) attempt lastError))
         = map getBackoffDelay (seq attempt remaining).
Proof.
  induction remaining as [|remaining IH]; intros attempt lastError Hsum.
  - assert (attempt = maxRetries - 1)%nat as Ha by lia.
    pose proof (all_fail attempt ltac:(lia)) as Hf.
    assert ((attempt <? maxRetries - 1)%nat = false) as Hlt
        by (apply Nat.ltb_ge; lia).
    rewrite <- Ha. simpl get_loop. unfold failsWith in *.
    destruct (env attempt) as [r|e].
    + destruct (ok r); [simpl in Hf; congruence|].
      destruct (resp_status r =? 429); [simpl in Hf; congruence|].
      destruct (nonRetryable (httpError r)); [simpl in Hf; congruence|].
      rewrite Hlt. exists (httpError r). simpl. auto.
    + destruct (nonRetryable e); [congruence|].
      rewrite Hlt. exists e. simpl. auto.
  - pose proof (all_fail attempt ltac:(lia)) as Hf.
    assert ((attempt <? maxRetries - 1)%nat = true) as Hlt
        by (apply Nat.ltb_lt; lia).
    assert (forall le, exists e,
              failsWith (env (maxRetries - 1)) = Some e
              /\ fst (get_loop maxRetries env (S remaining) (S attempt) le) = Rejects e
              /\ fetches (snd (get_loop maxRetries env (S remaining) (S attempt) le))
                 = seq (S attempt) (S remaining)
              /\ backoffSleeps (snd (get_loop maxRetries env (S remaining) (S attempt) le))
                 = map getBackoffDelay (seq (S attempt) remaining)) as IH'.
    { intros le. apply IH. lia. }
    change (get_loop maxRetries env (S (S remaining)) attempt lastError)
      with (let catch (e : Error) :=
              if nonRetryable e then (Rejects e, [Fetch attempt])
              else if (attempt <? maxRetries - 1)%nat then
                after [Fetch attempt; SleepBackoff (getBackoffDelay attempt)]
                  (get_loop maxRetries env (S remaining) (S attempt) (Some e))
              else
                after [Fetch attempt]
                  (get_loop maxRetries env (S remaining) (S attempt) (Some e)) in
            match env attempt with
            | Responds r =>
                if ok r then (Returns (text r), [Fetch attempt])
                else if resp_status r =? 429 then
                  let secs := match retryAfter r with Some s => s | None => 60 end in
                  after [Fetch attempt; SleepRateLimit (secs * 1000)]
                    (get_loop maxRetries env (S remaining) (S attempt) lastError)
                else catch (httpError r)
            | Throws e => catch e
            end).
    cbv zeta. unfold failsWith in Hf.
    destruct (env attempt) as [r|e].
    + destruct (ok r); [simpl in Hf; congruence|].
      destruct (resp_status r =? 429); [simpl in Hf; congruence|].
      destruct (nonRetryable (httpError r)); [simpl in Hf; congruence|].
      rewrite Hlt. destruct (IH' (Some (httpError r))) as [e [H1 [H2 [H3 H4]]]].
      exists e. rewrite after_fst, after_snd, fetches_app, backoffSleeps_app, H2, H3, H4.
      repeat split; auto.
    + destruct (nonRetryable e); [congruence|].
      rewrite Hlt. destruct (IH' (Some e)) as [e' [H1 [H2 [H3 H4]]]].
      exists e'. rewrite after_fst, after_snd, fetches_app, backoffSleeps_app, H2, H3, H4.
      repeat split; auto.
Qed.

End Exhaustion.

(** X2. When every one of the [maxRetries] attempts fails with an error that
    the loop retries (a response that is neither 2xx, 429, 404 nor 403, or
    an exception without status 404 or 403), [get] rejects with the error of
    the last attempt, after [maxRetries] requests and the backoff delays of
    the attempts 0 to [maxRetries - 2]: it does not sleep after the last
    attempt. *)
Theorem get_exhausted_surfaces_last_error :
  forall (maxRetries : nat) (env : nat -> HttpClient.Outcome),
    (0 < maxRetries)%nat ->
    (forall i, (i < maxRetries)%nat -> failsWith (env i) <> None) ->
    exists e,
      failsWith (env (maxRetries - 1)%nat) = Some e
      /\ fst (HttpClient.get maxRetries env) = HttpClient.Rejects e
      /\ HttpClient.fetches (snd (HttpClient.get maxRetries env)) = seq 0 maxRetries
      /\ HttpClient.backoffSleeps (snd (HttpClient.get maxRetries env))
         = map HttpClient.getBackoffDelay (seq 0 (maxRetries - 1)%nat).
Proof.
  intros maxRetries env Hpos Hfail.
  destruct maxRetries as [|remaining]; [lia|].
  destruct (get_loop_exhausts (S remaining) env Hfail remaining 0 None eq_refl)
    as [e [H1 [H2 [H3 H4]]]].
  exists e. unfold HttpClient.get.
  split; [exact H1|]. split; [exact H2|]. split.
  - cbn [snd]. change (HttpClient.Acquire :: HttpClient.RandomDelay :: ?l)
      with ([HttpClient.Acquire; HttpClient.RandomDelay] ++ l).
    rewrite !fetches_app, H3. simpl. rewrite app_nil_r. reflexivity.
  - cbn [snd]. change (HttpClient.Acquire :: HttpClient.RandomDelay :: ?l)
      with ([HttpClient.Acquire; HttpClient.RandomDelay] ++ l).
    rewrite !backoffSleeps_app, H4. simpl. rewrite app_nil_r, Nat.sub_0_r. reflexivity.
Qed.

(** Three server errors in a row. *)
Lemma get_exhausted_surfaces_last_error_witness :
  fst (HttpClient.get 3 (fun _ => HttpClient.Responds serverError))
  = HttpClient.Rejects (HttpClient.httpError serverError)
  /\ HttpClient.backoffSleeps (snd (HttpClient.get 3 (fun _ => HttpClient.Responds serverError)))
     = [1000; 2000].
Proof.
  assert (0 < 3)%nat as Hpos by lia.
  assert (forall i, (i < 3)%nat ->
            failsWith ((fun _ : nat => HttpClient.Responds serverError) i) <> None) as Hfail
      by (intros; discriminate).
  destruct (get_exhausted_surfaces_last_error 3 (fun _ => HttpClient.Responds serverError)
              Hpos Hfail)
    as [e [H1 [H2 [_ H4]]]].
  split.
  - rewrite H2. f_equal. vm_compute in H1. inversion H1. reflexivity.
  - exact H4.
Defined.

(** X3. The backoff delay doubles from one second, attempt by attempt, up to
    the cap of thirty seconds, which it reaches at the sixth attempt: it is
    [1000 * 2 ^ attempt] for the attempts 0 to 4 and [30000] from attempt 5
    on, and it never decreases. *)
Theorem getBackoffDelay_doubles_to_cap :
  forall attempt : nat,
    1000 <= HttpClient.getBackoffDelay attempt <= 30000
    /\ HttpClient.getBackoffDelay attempt
       = (if (attempt <? 5)%nat then 1000 * 2 ^ Z.of_nat attempt else 30000)
    /\ HttpClient.getBackoffDelay attempt <= HttpClient.getBackoffDelay (S attempt).
Proof.
  intros attempt. unfold HttpClient.getBackoffDelay.
  assert (0 < 2 ^ Z.of_nat attempt) as Hpos by (apply Z.pow_pos_nonneg; lia).
  assert (2 ^ Z.of_nat (S attempt) = 2 * 2 ^ Z.of_nat attempt) as Hsucc.
  { rewrite Nat2Z.inj_succ, Z.pow_succ_r by lia. reflexivity. }
  split; [lia|]. split; [|rewrite Hsucc; lia].
  destruct (Nat.ltb_spec attempt 5) as [L|L].
  - do 5 (destruct attempt as [|attempt]; [reflexivity|]). lia.
  - assert (2 ^ 5 <= 2 ^ Z.of_nat attempt) by (apply Z.pow_le_mono_r; lia).
    change (2 ^ 5) with 32 in *. lia.
Qed.

Section Soundness.

Import HttpClient.

Variable maxRetries : nat.
Variable env : nat -> Outcome.

(** A body returned by the loop is the body of a 2xx response to one of
    its requests, the last one, and no request before it met a 2xx. *)
Lemma get_loop_returns (remaining : nat) :
  forall (attempt : nat) (lastError : option Error) (body : string),
    fst (get_loop maxRetries env remaining attempt lastError) = Returns body ->
    exists k,
      (attempt <= k < attempt + remaining)%nat
      /\ succeedsWith body (env k)
      /\ (forall i, (attempt <= i < k)%nat -> succeeds (env i) = false)
      /\ fetches (snd (get_loop maxRetries env remaining attempt lastError))
         = seq attempt (S k - attempt).
Proof.
  induction remaining as [|remaining IH]; intros attempt lastError body H.
  - simpl in H. discriminate.
  - assert (forall le steps,
              fetches steps = [attempt] ->
              fst (after steps (get_loop maxRetries env remaining (S attempt) le))
              = Returns body ->
              succeeds (env attempt) = false ->
              exists k,
                (attempt <= k < attempt + S remaining)%nat
                /\ succeedsWith body (env k)
                /\ (forall i, (attempt <= i < k)%nat -> succeeds (env i) = false)
                /\ fetches (snd (after steps
                                   (get_loop maxRetries env remaining (S attempt) le)))
                   = seq attempt (S k - attempt)) as Hnext.
    { intros le steps Hsteps Hret Hnot. rewrite after_fst in Hret.
      destruct (IH (S attempt) le body Hret) as [k [Hk [Hs [Hbefore Hf]]]].
      exists k. split; [lia|]. split; [exact Hs|]. split.
      - intros i Hi. destruct (Nat.eq_dec i attempt) as [->|N]; [exact Hnot|].
        apply Hbefore. lia.
      - rewrite after_snd, fetches_app, Hsteps, Hf.
        replace (S k - attempt)%nat with (S (S k - S attempt)) by lia. reflexivity. }
    simpl get_loop in *. unfold succeeds in Hnext.
    destruct (env attempt) as [r|e] eqn:E.
    + destruct (ok r) eqn:Hok.
      * simpl in H. inversion H. subst body. exists attempt.
        split; [lia|]. split; [exists r; rewrite E; auto|]. split; [intros; lia|].
        replace (S attempt - attempt)%nat with 1%nat by lia. reflexivity.
      * destruct (resp_status r =? 429); [(eapply Hnext; [ | exact H | reflexivity ]; reflexivity)|].
        destruct (nonRetryable (httpError r)); [simpl in H; discriminate|].
        destruct (attempt <? maxRetries - 1)%nat; (eapply Hnext; [ | exact H | reflexivity ]; reflexivity).
    + destruct (nonRetryable e); [simpl in H; discriminate|].
      destruct (attempt <? maxRetries - 1)%nat; (eapply Hnext; [ | exact H | reflexivity ]; reflexivity).
Qed.

End Soundness.

(** X4. When [get] returns a text, that text is the body of a 2xx response
    to one of its at most [maxRetries] requests; it is the first 2xx
    response of the run and the last request that [get] sends. *)
Theorem get_returns_first_success :
  forall (maxRetries : nat) (env : nat -> HttpClient.Outcome) (body : string),
    fst (HttpClient.get maxRetries env) = HttpClient.Returns body ->
    exists k,
      (k < maxRetries)%nat
      /\ succeedsWith body (env k)
      /\ (forall i, (i < k)%nat -> succeeds (env i) = false)
      /\ HttpClient.fetches (snd (HttpClient.get maxRetries env)) = seq 0 (S k).
Proof.
  intros maxRetries env body H. unfold HttpClient.get in *. cbn [fst snd] in *.
  destruct (get_loop_returns maxRetries env maxRetries 0 None body H)
    as [k [Hk [Hs [Hbefore Hf]]]].
  exists k. split; [lia|]. split; [exact Hs|]. split.
  - intros i Hi. apply Hbefore. lia.
  - change (HttpClient.Acquire :: HttpClient.RandomDelay :: ?l)
      with ([HttpClient.Acquire; HttpClient.RandomDelay] ++ l).
    rewrite !fetches_app, Hf, Nat.sub_0_r. simpl. rewrite app_nil_r. reflexivity.
Qed.

(** Two 429 and the page: the page of the third request is returned. *)
Lemma get_returns_first_success_witness :
  exists k,
    (k < 3)%nat
    /\ succeedsWith (HttpClient.text okPage) (rateLimitsThenPage 2 k)
    /\ HttpClient.fetches (snd (HttpClient.get 3 (rateLimitsThenPage 2))) = seq 0 (S k).
Proof.
  destruct (get_returns_first_success 3 (rateLimitsThenPage 2) (HttpClient.text okPage)
              eq_refl) as [k [H1 [H2 [_ H4]]]].
  exists k. auto.
Defined.

(** ** The semaphore *)

Section SemaphoreInvariant.

Variable maxConcurrent : Z.
Hypothesis maxConcurrent_nonneg : 0 <= maxConcurrent.

Lemma remove_first_length (x : nat) (l : list nat) :
  existsb (Nat.eqb x) l = true ->
  S (List.length (remove_first x l)) = List.length l.
Proof.
  induction l as [|y l IH]; simpl; [discriminate|].
  destruct (Nat.eqb x y); simpl; [reflexivity|]. intros H. rewrite IH; auto.
Qed.

Lemma semStep_invariant (st : Semaphore.t * list nat) (call : SemCall) :
  semInvariant maxConcurrent st ->
  match call with
  | Acquires _ => True
  | Releases holder => existsb (Nat.eqb holder) (snd st) = true
  end ->
  semInvariant maxConcurrent (semStep st call).
Proof.
  destruct st as [[permits queue] holders]. unfold semInvariant. simpl.
  intros [Hsum [Hpos Hq]] Hcall. destruct call as [caller|holder]; simpl.
  - unfold Semaphore.acquire. simpl. destruct (Z.ltb_spec 0 permits) as [L|L]; simpl.
    + rewrite length_app. simpl. repeat split; try lia.
      intros Hne. specialize (Hq Hne). lia.
    + repeat split; try lia.
  - unfold Semaphore.release. simpl.
    pose proof (remove_first_length holder holders Hcall) as Hlen.
    destruct queue as [|next rest]; simpl.
    + rewrite app_nil_r. repeat split; try lia. intros N. contradiction.
    + rewrite length_app. simpl.
      assert (permits = 0) as Hz by (apply Hq; discriminate).
      repeat split; try lia.
Qed.

Lemma semRun_invariant (calls : list SemCall) :
  forall st : Semaphore.t * list nat,
    semInvariant maxConcurrent st ->
    releasesByHolders st calls = true ->
    semInvariant maxConcurrent (fold_left semStep calls st).
Proof.
  induction calls as [|call calls IH]; intros st Hinv Hok; simpl; [exact Hinv|].
  simpl in Hok. apply andb_true_iff in Hok. destruct Hok as [Hcall Hrest].
  apply IH; [|exact Hrest]. apply semStep_invariant; [exact Hinv|].
  destruct call; [exact I | exact Hcall].
Qed.

End SemaphoreInvariant.

(** X5. A semaphore created with [maxConcurrent] permits never lets more
    than [maxConcurrent] callers through at a time: after any sequence of
    [acquire] and [release] calls in which every [release] comes from a
    caller that holds a permit, the callers holding a permit and the free
    permits add up to [maxConcurrent], the number of free permits is not
    negative, and no caller waits in the queue while a permit is free. *)
Theorem semaphore_bounds_concurrency :
  forall (maxConcurrent : Z) (calls : list SemCall),
    0 <= maxConcurrent ->
    releasesByHolders (Semaphore.create maxConcurrent, []) calls = true ->
    let '(s, holders) := fold_left semStep calls (Semaphore.create maxConcurrent, []) in
    Z.of_nat (List.length holders) <= maxConcurrent
    /\ Z.of_nat (List.length holders) + Semaphore.permits s = maxConcurrent
    /\ (Semaphore.queue s <> [] -> Semaphore.permits s = 0).
Proof.
  intros maxConcurrent calls Hpos Hok.
  pose proof (semRun_invariant maxConcurrent calls (Semaphore.create maxConcurrent, []))
    as H.
  destruct (fold_left semStep calls (Semaphore.create maxConcurrent, [])) as [s holders].
  destruct H as [Hsum [Hperm Hq]]; [|exact Hok|].
  - unfold semInvariant. simpl. repeat split; try lia. intros N. contradiction.
  - simpl in *. repeat split; auto; lia.
Qed.

(** Two permits, three callers: the third waits until the first releases. *)
Lemma semaphore_bounds_concurrency_witness :
  fold_left semStep [Acquires 1; Acquires 2; Acquires 3; Releases 1]
            (Semaphore.create 2, [])
  = ({| Semaphore.permits := 0; Semaphore.queue := [] |}, [2%nat; 3%nat])
  /\ Z.of_nat (List.length [2%nat; 3%nat]) <= 2.
Proof.
  pose proof (semaphore_bounds_concurrency 2
                [Acquires 1; Acquires 2; Acquires 3; Releases 1]
                ltac:(lia) eq_refl) as H.
  split; [reflexivity|]. simpl in H. destruct H as [H _]. exact H.
Defined.

(** ** Text functions *)

Section TextFacts.

Import Text.

Lemma occurs_append (c : ascii) (a b : string) :
  occurs c (a ++ b)%string = occurs c a || occurs c b.
Proof.
  induction a as [|x a IH]; simpl; [reflexivity|].
  rewrite IH, orb_assoc. reflexivity.
Qed.

Lemma prefix_first (c x : ascii) (p rest : string) :
  Ascii.eqb x c = false -> String.prefix (String c p) (String x rest) = false.
Proof.
  intros H. simpl. destruct (ascii_dec c x) as [E|E]; [|reflexivity].
  subst. rewrite Ascii.eqb_refl in H. discriminate.
Qed.

(** A pattern whose first character is not in the text matches nowhere. *)
Lemma replaceAll_absent (c : ascii) (p replacement text : string) :
  occurs c text = false -> replaceAll (String c p) replacement text = text.
Proof.
  unfold replaceAll. induction text as [|x rest IH]; simpl; [reflexivity|].
  intros H. apply orb_false_iff in H. destruct H as [Hx Hrest].
  destruct (ascii_dec c x) as [E|E].
  - subst. rewrite Ascii.eqb_refl in Hx. discriminate.
  - rewrite IH by assumption. reflexivity.
Qed.

Lemma prefix_length (p text : string) :
  String.prefix p text = true -> (String.length p <= String.length text)%nat.
Proof.
  revert text. induction p as [|a p IH]; intros text H; simpl; [lia|].
  destruct text as [|b text]; simpl in *; [discriminate|].
  destruct (ascii_dec a b); [|discriminate]. apply IH in H. lia.
Qed.

Lemma append_length (a b : string) :
  String.length (a ++ b)%string = (String.length a + String.length b)%nat.
Proof. induction a as [|x a IH]; simpl; [reflexivity | rewrite IH; reflexivity]. Qed.

(** A replacement that is not longer than its pattern does not lengthen
    the text. *)
Lemma replaceAll_from_length (pattern replacement : string) :
  (String.length replacement <= String.length pattern)%nat ->
  forall (text : string) (skip : nat),
    (String.length (replaceAll_from pattern replacement skip text)
     + Nat.min skip (String.length text) <= String.length text)%nat.
Proof.
  intros Hrep. induction text as [|x rest IH]; intros skip; [simpl; lia|].
  change (String.length (String x rest)) with (S (String.length rest)).
  destruct skip as [|k]; cbn [replaceAll_from].
  - destruct (String.prefix pattern (String x rest)) eqn:P.
    + apply prefix_length in P.
      change (String.length (String x rest)) with (S (String.length rest)) in P.
      specialize (IH (String.length pattern - 1)%nat).
      rewrite append_length. lia.
    + specialize (IH 0%nat).
      change (String.length (String x ?t)) with (S (String.length t)). lia.
  - specialize (IH k). lia.
Qed.

Lemma replaceAll_length (pattern replacement text : string) :
  (String.length replacement <= String.length pattern)%nat ->
  (String.length (replaceAll pattern replacement text) <= String.length text)%nat.
Proof.
  intros H. pose proof (replaceAll_from_length pattern replacement H text 0). 
  unfold replaceAll. lia.
Qed.

Lemma replaceAll_char_step (c x : ascii) (replacement rest : string) :
  replaceAll (String c EmptyString) replacement (String x rest)
  = if Ascii.eqb x c
    then (replacement ++ replaceAll (String c EmptyString) replacement rest)%string
    else String x (replaceAll (String c EmptyString) replacement rest).
Proof.
  unfold replaceAll. simpl. destruct (ascii_dec c x) as [E|E].
  - subst. rewrite Ascii.eqb_refl. destruct rest; reflexivity.
  - destruct (Ascii.eqb_spec x c); [congruence | reflexivity].
Qed.

(** Replacing one character: the character is gone when the replacement
    does not hold it, and a character that was neither in the text nor in
    the replacement is not in the result. *)
Lemma replaceAll_char_occurs (c d : ascii) (replacement text : string) :
  occurs d replacement = false ->
  d = c \/ occurs d text = false ->
  occurs d (replaceAll (String c EmptyString) replacement text) = false.
Proof.
  intros Hrep. induction text as [|x rest IH]; intros H; [reflexivity|].
  assert (d = c \/ occurs d rest = false) as Hrest.
  { destruct H as [H|H]; [auto|]. simpl in H. apply orb_false_iff in H. tauto. }
  rewrite replaceAll_char_step. destruct (Ascii.eqb_spec x c) as [E|E].
  - rewrite occurs_append, Hrep, (IH Hrest). reflexivity.
  - cbn [occurs]. rewrite (IH Hrest), orb_false_r.
    destruct H as [H|H].
    + subst d. destruct (Ascii.eqb_spec x c); [congruence | reflexivity].
    + simpl in H. apply orb_false_iff in H. tauto.
Qed.

End TextFacts.

(** X6. [decodeHtmlEntities] never lengthens a text, and a text without the
    character [&] comes back as it is. *)
Theorem decodeHtmlEntities_shrinks :
  forall text : string,
    (String.length (Text.decodeHtmlEntities text) <= String.length text)%nat
    /\ (String.length (Text.decodeHtmlEntities_channel text) <= String.length text)%nat
    /\ (occurs "&"%char text = false ->
        Text.decodeHtmlEntities text = text
        /\ Text.decodeHtmlEntities_channel text = text).
Proof.
  intros text.
  assert (String.length (Text.decodeHtmlEntities text) <= String.length text)%nat as H.
  { unfold Text.decodeHtmlEntities.
    do 6 (eapply Nat.le_trans; [apply replaceAll_length; simpl; lia|]).
    apply replaceAll_length. simpl. lia. }
  split; [exact H|]. split.
  - unfold Text.decodeHtmlEntities_channel.
    eapply Nat.le_trans; [apply replaceAll_length; simpl; lia | exact H].
  - intros Hno.
    assert (Text.decodeHtmlEntities text = text) as E.
    { unfold Text.decodeHtmlEntities.
      rewrite (replaceAll_absent "&"%char "amp;") by exact Hno.
      rewrite (replaceAll_absent "&"%char "lt;") by exact Hno.
      rewrite (replaceAll_absent "&"%char "gt;") by exact Hno.
      rewrite (replaceAll_absent "&"%char "quot;") by exact Hno.
      rewrite (replaceAll_absent "&"%char "#39;") by exact Hno.
      rewrite (replaceAll_absent "&"%char "#x27;") by exact Hno.
      apply (replaceAll_absent "&"%char "#x2F;"). exact Hno. }
    split; [exact E|]. unfold Text.decodeHtmlEntities_channel.
    rewrite E. apply (replaceAll_absent "&"%char "nbsp;"). exact Hno.
Qed.

(** X7. The text that [escapeXml] returns holds none of the characters
    [<], [>], double quote and apostrophe, whatever the text it is given;
    and a text that holds none of these and no [&] comes back as it is. *)
Theorem escapeXml_leaves_no_markup :
  forall text : string,
    occurs "<"%char (Text.escapeXml text) = false
    /\ occurs ">"%char (Text.escapeXml text) = false
    /\ occurs (ascii_of_nat 34) (Text.escapeXml text) = false
    /\ occurs "'"%char (Text.escapeXml text) = false
    /\ (occurs "&"%char text = false ->
        occurs "<"%char text = false ->
        occurs ">"%char text = false ->
        occurs (ascii_of_nat 34) text = false ->
        occurs "'"%char text = false ->
        Text.escapeXml text = text).
Proof.
  intros text. unfold Text.escapeXml, Text.quote.
  repeat split.
  - do 3 (apply replaceAll_char_occurs; [reflexivity | right]).
    apply replaceAll_char_occurs; [reflexivity | left; reflexivity].
  - do 2 (apply replaceAll_char_occurs; [reflexivity | right]).
    apply replaceAll_char_occurs; [reflexivity | left; reflexivity].
  - apply replaceAll_char_occurs; [reflexivity | right].
    apply replaceAll_char_occurs; [reflexivity | left; reflexivity].
  - apply replaceAll_char_occurs; [reflexivity | left; reflexivity].
  - intros H1 H2 H3 H4 H5.
    rewrite (replaceAll_absent "&"%char EmptyString) by assumption.
    rewrite (replaceAll_absent "<"%char EmptyString) by assumption.
    rewrite (replaceAll_absent ">"%char EmptyString) by assumption.
    rewrite (replaceAll_absent (ascii_of_nat 34) EmptyString) by assumption.
    apply (replaceAll_absent "'"%char EmptyString). assumption.
Qed.

(** Decoding and escaping on two titles. *)
Example text_examples :
  Text.decodeHtmlEntities "Tom &amp; Jerry &lt;3 &#39;live&#39;" = "Tom & Jerry <3 'live'"%string
  /\ Text.decodeHtmlEntities "&amp;lt;" = "<"%string
  /\ Text.escapeXml "Tom & Jerry <3 'live'" = "Tom &amp; Jerry &lt;3 &#39;live&#39;"%string.
Proof. repeat split. Qed.

(** ** Classification of a fetched page *)

(** X8. The hint ['lives'] changes nothing in [classifyVideo]: a fetched
    page is classified with it as without any hint, so a video of the lives
    feed is typed [vod] only when its page carries the was-live-recording
    signal.  The hint counts only when the page cannot be fetched: the
    fallback of [getVideoClassification] is then [vod] with the hint and
    [video] without, with no signal at all. *)
Theorem lives_hint_only_in_fallback :
  forall (extractPlayerResponse : string -> YTPlayerResponse.t),
    (forall props, Classifier.classifyVideo props (Some HintLives)
                   = Classifier.classifyVideo props None)
    /\ (forall html,
          VideoClassification.getVideoClassification extractPlayerResponse
            (Some HintLives) (HttpClient.Returns html)
          = VideoClassification.getVideoClassification extractPlayerResponse
              None (HttpClient.Returns html))
    /\ (forall e,
          VideoClassification.getVideoClassification extractPlayerResponse
            (Some HintLives) (HttpClient.Rejects e)
          = (TVod, VideoClassification.noProps)
          /\ VideoClassification.getVideoClassification extractPlayerResponse
               None (HttpClient.Rejects e)
             = (TVideo, VideoClassification.noProps)).
Proof.
  intros extractPlayerResponse.
  assert (forall props, Classifier.classifyVideo props (Some HintLives)
                        = Classifier.classifyVideo props None) as H.
  { intros props. unfold Classifier.classifyVideo.
    repeat match goal with
           | |- context [if ?b then _ else _] => destruct b; try reflexivity
           end. }
  split; [exact H|]. split.
  - intros html. unfold VideoClassification.getVideoClassification. rewrite H. reflexivity.
  - intros e. split; reflexivity.
Qed.

(** ** Deduplication, continued *)

(** X9. The merge keeps exactly one record per identifier: the identifiers
    of the result are pairwise distinct, they are the identifiers of the
    input, every record of the result is a record of the input, and the
    result is not longer than the input. *)
Theorem deduplicateVideos_one_record_per_id :
  forall videos : list VideoInfo.t,
    NoDup (ids (YouTubeScraper.deduplicateVideos videos))
    /\ (forall k, In k (ids (YouTubeScraper.deduplicateVideos videos)) <-> In k (ids videos))
    /\ (forall x, In x (YouTubeScraper.deduplicateVideos videos) -> In x videos)
    /\ (List.length (YouTubeScraper.deduplicateVideos videos) <= List.length videos)%nat.
Proof.
  intros videos.
  pose proof (deduplicateVideos_NoDup videos) as N.
  split; [exact N|]. split; [apply deduplicateVideos_ids|].
  split; [apply deduplicateVideos_In|].
  assert (List.length (ids (YouTubeScraper.deduplicateVideos videos))
          <= List.length (ids videos))%nat as L.
  { apply NoDup_incl_length; [exact N|]. intros k Hk. apply deduplicateVideos_ids. exact Hk. }
  unfold ids in L. rewrite !length_map in L. exact L.
Qed.

(** X10. On records with pairwise distinct identifiers the merge changes
    nothing: it returns its input, the same records in the same order. *)
Theorem deduplicateVideos_distinct_unchanged :
  forall videos : list VideoInfo.t,
    NoDup (ids videos) -> YouTubeScraper.deduplicateVideos videos = videos.
Proof.
  intros videos H. unfold YouTubeScraper.deduplicateVideos.
  rewrite dedup_fold_distinct; [reflexivity | exact H].
Qed.

Lemma deduplicateVideos_distinct_unchanged_witness :
  YouTubeScraper.deduplicateVideos
    [YouTubeScraper.stubOfItem FVideos upload; seenLive]
  = [YouTubeScraper.stubOfItem FVideos upload; seenLive].
Proof.
  apply deduplicateVideos_distinct_unchanged.
  repeat constructor; simpl; intuition discriminate.
Defined.

Section LivesFeedWins.

Import YouTubeScraper.

(** Between two records of the feed scan, the newcomer replaces the kept
    record exactly when it comes from the lives feed and the kept record
    does not. *)
Lemma shouldReplace_stubs (v e : VideoInfo.t) :
  stubLike v -> stubLike e ->
  shouldReplace v e = VideoInfo.isLiveContent v && negb (VideoInfo.isLiveContent e).
Proof.
  unfold stubLike, shouldReplace.
  intros [Hl [Hu [Hc [Hnl Hns]]]] [Hl' [Hu' [Hc' [Hnl' Hns']]]].
  rewrite Hl, Hu, Hc, Hc'.
  destruct (VideoInfo.type v), (VideoInfo.type e); simpl; try reflexivity; congruence.
Qed.

Lemma stubOfItem_stubLike (feedType : FeedType) (item : RSSItem.t) :
  stubLike (stubOfItem feedType item).
Proof. unfold stubLike. destruct feedType; simpl; repeat split; discriminate. Qed.

Lemma seen_set_In_iff (v x : VideoInfo.t) (seen : SeenMap) :
  In (VideoInfo.videoId v) (ids seen) ->
  NoDup (ids seen) ->
  (In x (seen_set v seen)
   <-> x = v \/ (In x seen /\ VideoInfo.videoId x <> VideoInfo.videoId v)).
Proof.
  induction seen as [|e rest IH]; simpl; intros Hin N; [contradiction|].
  inversion N as [|? ? Hnotin N']. subst.
  destruct (String.eqb_spec (VideoInfo.videoId e) (VideoInfo.videoId v)) as [E|E].
  - simpl. split.
    + intros [H|H]; [auto|]. right. split; [auto|]. intros K.
      apply Hnotin. rewrite E, <- K. apply in_map. exact H.
    + intros [H|[[H|H] K]]; auto. congruence.
  - simpl. destruct Hin as [Hin|Hin]; [contradiction|].
    rewrite (IH Hin N'). split.
    + intros [H|[H|[H K]]]; auto. right. split; [auto|]. congruence.
    + intros [H|[[H|H] K]]; auto.
Qed.

Lemma dedup_step_livesKept (processed : list VideoInfo.t) (seen : SeenMap)
    (v : VideoInfo.t) :
  (forall x, In x processed -> stubLike x) -> stubLike v ->
  livesKept processed seen ->
  livesKept (processed ++ [v]) (dedup_step seen v).
Proof.
  intros Hstubs Hv [N [Hsub Hkept]].
  split; [apply dedup_step_NoDup; exact N|].
  unfold dedup_step.
  destruct (seen_get (VideoInfo.videoId v) seen) as [existing|] eqn:G.
  - apply seen_get_some in G. destruct G as [Hex Hid].
    assert (In (VideoInfo.videoId v) (ids seen)) as Hin.
    { rewrite <- Hid. apply in_map. exact Hex. }
    rewrite (shouldReplace_stubs v existing Hv (Hstubs _ (Hsub _ Hex))).
    destruct (VideoInfo.isLiveContent v && negb (VideoInfo.isLiveContent existing)) eqn:R.
    + apply andb_true_iff in R. destruct R as [Rv Re]. apply negb_true_iff in Re.
      split.
      * intros e He. apply in_or_app. apply (seen_set_In_iff v e seen Hin N) in He.
        destruct He as [->|[He _]]; [right; left; reflexivity | left; auto].
      * intros x Hx. apply in_app_or in Hx. destruct Hx as [Hx|[<-|[]]].
        -- destruct (Hkept x Hx) as [e [He [Eid Hlc]]].
           destruct (String.eqb_spec (VideoInfo.videoId e) (VideoInfo.videoId v)) as [K|K].
           ++ exists v. split; [apply (seen_set_In_iff v v seen Hin N); auto|].
              split; [congruence|]. intros _. exact Rv.
           ++ exists e. split; [apply (seen_set_In_iff v e seen Hin N); auto|]. auto.
        -- exists v. split; [apply (seen_set_In_iff v v seen Hin N); auto|]. auto.
    + split.
      * intros e He. apply in_or_app. left. auto.
      * intros x Hx. apply in_app_or in Hx. destruct Hx as [Hx|[<-|[]]]; [auto|].
        exists existing. split; [exact Hex|]. split; [exact Hid|].
        intros Hlc. rewrite Hlc in R. simpl in R. apply negb_false_iff in R. exact R.
  - apply seen_get_none in G. rewrite seen_set_fresh by exact G. split.
    + intros e He. apply in_app_or in He. apply in_or_app.
      destruct He as [He|He]; [left; auto | right; exact He].
    + intros x Hx. apply in_app_or in Hx. destruct Hx as [Hx|[<-|[]]].
      * destruct (Hkept x Hx) as [e [He H]]. exists e. split; [apply in_or_app; auto | exact H].
      * exists v. split; [apply in_or_app; right; left; reflexivity | auto].
Qed.

Lemma dedup_fold_livesKept (videos : list VideoInfo.t) :
  forall (processed : list VideoInfo.t) (seen : SeenMap),
    (forall x, In x (processed ++ videos) -> stubLike x) ->
    livesKept processed seen ->
    livesKept (processed ++ videos) (fold_left dedup_step videos seen).
Proof.
  induction videos as [|v videos IH]; intros processed seen Hstubs H; simpl.
  - rewrite app_nil_r. exact H.
  - replace (processed ++ v :: videos) with ((processed ++ [v]) ++ videos)
      by (rewrite <- app_assoc; reflexivity).
    apply IH.
    + rewrite <- app_assoc. exact Hstubs.
    + apply dedup_step_livesKept; [| |exact H].
      * intros x Hx. apply Hstubs, in_or_app. auto.
      * apply Hstubs, in_or_app. right. left. reflexivity.
Qed.

End LivesFeedWins.

(** X11. In the feed scan of a channel check, a video that is among the
    items taken from a lives feed is always returned as a recording (type
    [vod], was-live-recording set), in whatever order the feeds arrive and
    in whichever other feeds it also is; and only such a video is. *)
Theorem feed_scan_lives_feed_wins :
  forall (maxVideosPerFeed : nat) (feedResults : list (FeedType * list RSSItem.t))
         (v : VideoInfo.t),
    In v (YouTubeScraper.getChannelVideos_unclassified maxVideosPerFeed feedResults) ->
    (inLivesFeed maxVideosPerFeed feedResults (VideoInfo.videoId v)
     <-> VideoInfo.type v = TVod)
    /\ (VideoInfo.type v = TVod <-> VideoInfo.isLiveContent v = true).
Proof.
  intros maxVideosPerFeed feedResults v Hv.
  unfold YouTubeScraper.getChannelVideos_unclassified in Hv.
  set (stubs := flat_map
                  (fun '(feedType, items) =>
                     map (YouTubeScraper.stubOfItem feedType)
                         (firstn maxVideosPerFeed items)) feedResults) in *.
  assert (forall x, In x stubs ->
            exists feedType items item,
              In (feedType, items) feedResults
              /\ In item (firstn maxVideosPerFeed items)
              /\ x = YouTubeScraper.stubOfItem feedType item) as Hform.
  { intros x Hx. unfold stubs in Hx. apply in_flat_map in Hx.
    destruct Hx as [[feedType items] [Hf Hx]]. apply in_map_iff in Hx.
    destruct Hx as [item [E Hitem]]. exists feedType, items, item. auto. }
  assert (forall x, In x stubs -> stubLike x) as Hstubs.
  { intros x Hx. destruct (Hform x Hx) as [f [items [item [_ [_ ->]]]]].
    apply stubOfItem_stubLike. }
  assert (livesKept stubs (YouTubeScraper.deduplicateVideos stubs)) as Hkept.
  { apply (dedup_fold_livesKept stubs [] []); [exact Hstubs|].
    split; [constructor|]. split; intros x []. }
  destruct Hkept as [N [Hsub Hk]].
  assert (VideoInfo.type v = TVod <-> VideoInfo.isLiveContent v = true) as Htype.
  { destruct (Hstubs v (Hsub v Hv)) as [_ [_ [Hc _]]]. rewrite Hc.
    apply iff_sym, VideoType_eqb_eq. }
  split; [|exact Htype]. split.
  - intros [items [Hf Hid]]. apply in_map_iff in Hid. destruct Hid as [item [Eid Hitem]].
    assert (In (YouTubeScraper.stubOfItem FLives item) stubs) as Hx.
    { unfold stubs. apply in_flat_map. exists (FLives, items). split; [exact Hf|].
      apply in_map. exact Hitem. }
    destruct (Hk _ Hx) as [e [He [Eide Hlc]]].
    assert (e = v) as ->.
    { apply (NoDup_map_injective VideoInfo.videoId _ e v N He Hv).
      rewrite Eide. simpl. exact Eid. }
    apply Htype, Hlc. reflexivity.
  - intros Ht. destruct (Hform v (Hsub v Hv)) as [f [items [item [Hf [Hitem ->]]]]].
    destruct f; simpl in Ht; try discriminate.
    exists items. split; [exact Hf|]. simpl. apply in_map. exact Hitem.
Qed.

(** The upload, in the videos feed first and in the lives feed second. *)
Lemma feed_scan_lives_feed_wins_witness :
  inLivesFeed 15 [(FVideos, [upload]); (FLives, [upload])] "upload-0001"
  <-> VideoInfo.type (YouTubeScraper.stubOfItem FLives upload) = TVod.
Proof.
  apply (feed_scan_lives_feed_wins 15 [(FVideos, [upload]); (FLives, [upload])]
           (YouTubeScraper.stubOfItem FLives upload)).
  left. reflexivity.
Defined.

(** X12. In a channel check the guard on the identifiers of the shorts
    ([shortVideoIds.has(video.videoId)]) never decides anything: the
    identifiers of the merged list are pairwise distinct, so an identifier
    of that set belongs to a record typed [short], which the first guard has
    already skipped.  An item of the merged list reaches the upsert with the
    set as it would with an empty set; in particular a video that is in the
    videos feed first and in the shorts feed second is not held back by
    it. *)
Theorem shorts_id_guard_decides_nothing :
  forall (maxVideosPerFeed : nat) (feedResults : list (FeedType * list RSSItem.t)),
    let videos :=
      YouTubeScraper.getChannelVideos_unclassified maxVideosPerFeed feedResults in
    (forall v, In v videos ->
       YouTubeMonitor.reachesUpsert (YouTubeMonitor.shortIdsOf videos) v
       = YouTubeMonitor.reachesUpsert [] v)
    /\ (forall now channelId info acc,
          YouTubeMonitor.processFeedVideos now channelId info videos acc
          = fold_left (YouTubeMonitor.feedStep now channelId info []) videos acc).
Proof.
  intros maxVideosPerFeed feedResults videos.
  assert (NoDup (ids videos)) as N by apply deduplicateVideos_NoDup.
  assert (forall v, In v videos ->
            YouTubeMonitor.reachesUpsert (YouTubeMonitor.shortIdsOf videos) v
            = YouTubeMonitor.reachesUpsert [] v) as H.
  { intros v Hv. unfold YouTubeMonitor.reachesUpsert.
    destruct (VideoType_eqb (VideoInfo.type v) TShort) eqn:T; [reflexivity|].
    assert (existsb (String.eqb (VideoInfo.videoId v)) (YouTubeMonitor.shortIdsOf videos)
            = false) as Hno.
    { apply not_true_is_false. intros K. apply existsb_exists in K.
      destruct K as [k [Hk E]]. apply String.eqb_eq in E. subst k.
      unfold YouTubeMonitor.shortIdsOf in Hk. apply in_map_iff in Hk.
      destruct Hk as [s [Eid Hs]]. apply filter_In in Hs. destruct Hs as [Hs Ts].
      rewrite (NoDup_map_injective VideoInfo.videoId videos s v N Hs Hv Eid) in Ts.
      congruence. }
    rewrite Hno. reflexivity. }
  split; [exact H|].
  intros now channelId info acc. unfold YouTubeMonitor.processFeedVideos.
  assert (forall l acc, (forall v, In v l -> In v videos) ->
            fold_left (YouTubeMonitor.feedStep now channelId info
                         (YouTubeMonitor.shortIdsOf videos)) l acc
            = fold_left (YouTubeMonitor.feedStep now channelId info []) l acc) as Hfold.
  { induction l as [|v l IH]; intros a Hsub; simpl; [reflexivity|].
    assert (YouTubeMonitor.feedStep now channelId info (YouTubeMonitor.shortIdsOf videos) a v
            = YouTubeMonitor.feedStep now channelId info [] a v) as ->.
    { unfold YouTubeMonitor.feedStep. destruct a as [d em].
      rewrite (H v (Hsub v (or_introl eq_refl))). reflexivity. }
    apply IH. intros x Hx. apply Hsub. right. exact Hx. }
  apply Hfold. auto.
Qed.

(** The upload in the videos feed and then in the shorts feed: it is typed
    [video] and reaches the upsert. *)
Example upload_in_videos_and_shorts :
  let videos :=
    YouTubeScraper.getChannelVideos_unclassified 15
      [(FVideos, [upload]); (FShorts, [upload])] in
  map VideoInfo.type videos = [TVideo]
  /\ map (YouTubeMonitor.reachesUpsert (YouTubeMonitor.shortIdsOf videos)) videos = [true].
Proof. split; reflexivity. Qed.

(** ** The store, continued *)

Section UpsertRoundTrip.

Import DatabaseService.

Variable now : Z.

(** The row that [RETURNING *] gives: the updated row on a conflict, the
    proposed row otherwise. *)
Lemma insert_on_conflict_returned (excluded : DBVideo.t) (rows : list DBVideo.t) :
  snd (insert_on_conflict now excluded rows)
  = match find (fun r => String.eqb (DBVideo.video_id r) (DBVideo.video_id excluded)) rows with
    | Some r => conflict_update now r excluded
    | None => excluded
    end.
Proof.
  induction rows as [|x rest IH]; simpl; [reflexivity|].
  destruct (String.eqb (DBVideo.video_id x) (DBVideo.video_id excluded)); [reflexivity|].
  destruct (insert_on_conflict now excluded rest) as [rest' ret]. exact IH.
Qed.

Lemma upsertVideo_returned (video : VideoInfo.t) (channelId : string) (d : DB) :
  fst (snd (upsertVideo now video channelId d))
  = match getVideo (VideoInfo.videoId video) d with
    | Some r => conflict_update now r (proposed_row now video channelId d)
    | None => proposed_row now video channelId d
    end.
Proof.
  unfold upsertVideo, getVideo.
  pose proof (insert_on_conflict_returned (proposed_row now video channelId d) (videos d)) as R.
  destruct (insert_on_conflict _ _ _) as [rows ret]. simpl in R.
  destruct (determineEvent _ _); simpl; exact R.
Qed.

Lemma upsertVideo_getVideo (video : VideoInfo.t) (channelId : string) (d : DB) :
  getVideo (VideoInfo.videoId video) (fst (upsertVideo now video channelId d))
  = Some (fst (snd (upsertVideo now video channelId d))).
Proof.
  rewrite upsertVideo_returned. unfold getVideo at 1.
  rewrite upsertVideo_videos, insert_on_conflict_find. simpl DBVideo.video_id.
  unfold getVideo. destruct (find _ (videos d)) as [r|] eqn:F.
  - apply find_some in F. destruct F as [_ F]. rewrite F. reflexivity.
  - rewrite String.eqb_refl. reflexivity.
Qed.

End UpsertRoundTrip.

(** X13. For an upsert whose statements go through: afterwards [getVideo]
    on the identifier of the video finds the row that the upsert returned.
    Its title, thumbnail, type, duration and three signals are those of the
    incoming video, and the code reads its scheduled start back as the one
    that went in, moved by the zone offset of the process.  When the video
    was not stored, the row is in the given channel, unbookmarked, and its
    publication time reads back as that of the video, moved by the zone
    offset; when it was, the row keeps the stored [id], channel, publication
    time, creation time and bookmark: a re-sighting never moves a video to
    another channel and never changes its publication time. *)
Theorem upsertVideo_then_getVideo :
  forall (localOffset : Z -> Z) (now : Z) (video : VideoInfo.t) (channelId : string)
         (db : DatabaseService.DB),
    Database.accepts video channelId db = true ->
    let result := DatabaseService.upsertVideo now video channelId db in
    let row := fst (snd result) in
    let seen := Driver.videoRow localOffset row in
    DatabaseService.getVideo (VideoInfo.videoId video) (fst result) = Some row
    /\ DBVideo.video_id seen = VideoInfo.videoId video
    /\ DBVideo.title seen = VideoInfo.title video
    /\ DBVideo.thumbnail_url seen = VideoInfo.thumbnailUrl video
    /\ DBVideo.type seen = VideoInfo.type video
    /\ DBVideo.duration seen = DatabaseService.or_null (VideoInfo.duration video)
    /\ DBVideo.scheduled_start_time seen
       = option_map (Driver.read localOffset) (VideoInfo.scheduledStartTime video)
    /\ DBVideo.is_live seen = DatabaseService.flag (VideoInfo.isLive video)
    /\ DBVideo.is_live_content seen = DatabaseService.flag (VideoInfo.isLiveContent video)
    /\ DBVideo.is_upcoming seen = DatabaseService.flag (VideoInfo.isUpcoming video)
    /\ match DatabaseService.getVideo (VideoInfo.videoId video) db with
       | None =>
           DBVideo.id seen = DatabaseService.videos_id_seq db
           /\ DBVideo.channel_id seen = channelId
           /\ DBVideo.published_at seen
              = Driver.read localOffset (VideoInfo.publishedAt video)
           /\ DBVideo.bookmarked seen = 0
       | Some stored =>
           DBVideo.id seen = DBVideo.id stored
           /\ DBVideo.channel_id seen = DBVideo.channel_id stored
           /\ DBVideo.published_at row = DBVideo.published_at stored
           /\ DBVideo.bookmarked seen = DBVideo.bookmarked stored
           /\ DBVideo.created_at row = DBVideo.created_at stored
       end.
Proof.
  intros localOffset now video channelId db _ result row seen. subst seen row result.
  split; [apply upsertVideo_getVideo|].
  rewrite upsertVideo_returned.
  destruct (DatabaseService.getVideo (VideoInfo.videoId video) db) as [stored|] eqn:G.
  - unfold DatabaseService.getVideo in G. apply find_some in G.
    destruct G as [_ G]. apply String.eqb_eq in G. simpl. repeat split. exact G.
  - simpl. repeat split.
Qed.

(** An upload seen for the first time, read back three hours behind UTC. *)
Lemma upsertVideo_then_getVideo_witness :
  Database.accepts (YouTubeScraper.stubOfItem FVideos upload) "UC-live"
    (YouTubeMonitor.db twoLives) = true
  /\ DatabaseService.getVideo "upload-0001"
       (fst (DatabaseService.upsertVideo 1700000600000
               (YouTubeScraper.stubOfItem FVideos upload) "UC-live"
               (YouTubeMonitor.db twoLives)))
     = Some (fst (snd (DatabaseService.upsertVideo 1700000600000
                         (YouTubeScraper.stubOfItem FVideos upload) "UC-live"
                         (YouTubeMonitor.db twoLives)))).
Proof.
  split; [reflexivity|].
  exact (proj1 (upsertVideo_then_getVideo (fun _ => -10800000) 1700000600000
                  (YouTubeScraper.stubOfItem FVideos upload) "UC-live"
                  (YouTubeMonitor.db twoLives) eq_refl)).
Defined.

(** X14. A second upsert of the same video, right after a first one that
    went through, gives no event and adds no row to the [events] table: a
    sighting that repeats what is stored fires nothing. *)
Theorem upsertVideo_again_is_silent :
  forall (now now' : Z) (video : VideoInfo.t) (channelId channelId' : string)
         (db : DatabaseService.DB),
    Database.accepts video channelId db = true ->
    Database.accepts video channelId' db = true ->
    let once := fst (DatabaseService.upsertVideo now video channelId db) in
    let twice := DatabaseService.upsertVideo now' video channelId' once in
    Database.accepts video channelId' once = true
    /\ snd (snd twice) = None
    /\ DatabaseService.events (fst twice) = DatabaseService.events once.
Proof.
  intros now now' video channelId channelId' db _ Hsecond once twice. subst twice.
  assert (DatabaseService.determineEvent
            (DatabaseService.getVideo (VideoInfo.videoId video) once) video = None) as Hnone.
  { subst once. rewrite upsertVideo_getVideo, upsertVideo_returned.
    unfold DatabaseService.determineEvent.
    assert (forall b, truthy_int (DatabaseService.flag b) = b) as Hflag
        by (intros []; reflexivity).
    destruct (DatabaseService.getVideo (VideoInfo.videoId video) db); simpl;
      rewrite Hflag; destruct (VideoInfo.isLive video); simpl;
      rewrite String.eqb_refl;
      destruct (VideoInfo.type video); reflexivity. }
  split; [|split].
  - unfold Database.accepts, Database.channelStored in *. subst once.
    rewrite upsertVideo_channels. exact Hsecond.
  - rewrite upsertVideo_event. exact Hnone.
  - destruct (upsertVideo_events now' video channelId' once) as [added [E [T _]]].
    rewrite Hnone in T. destruct added; [|discriminate].
    rewrite E, app_nil_r. reflexivity.
Qed.

(** The upload of scenario A, seen twice. *)
Lemma upsertVideo_again_is_silent_witness :
  snd (snd (DatabaseService.upsertVideo 1700000600000
              (YouTubeScraper.stubOfItem FVideos upload) "UC-live"
              (YouTubeMonitor.db twoLives)))
  = Some new_video
  /\ snd (snd (DatabaseService.upsertVideo 1700000900000
                 (YouTubeScraper.stubOfItem FVideos upload) "UC-live"
                 (fst (DatabaseService.upsertVideo 1700000600000
                         (YouTubeScraper.stubOfItem FVideos upload) "UC-live"
                         (YouTubeMonitor.db twoLives)))))
     = None.
Proof.
  split; [reflexivity|].
  exact (proj1 (proj2 (upsertVideo_again_is_silent 1700000600000 1700000900000
                         (YouTubeScraper.stubOfItem FVideos upload) "UC-live" "UC-live"
                         (YouTubeMonitor.db twoLives) eq_refl eq_refl))).
Defined.

Section SelectByKey.

Context {A : Type}.

(** A selection that keeps every row of a key does not change the lookup of
    that key. *)
Lemma find_filter_keeps (wanted keep : A -> bool) :
  forall rows : list A,
    (forall r, wanted r = true -> keep r = true) ->
    find wanted (filter keep rows) = find wanted rows.
Proof.
  intros rows Himp. induction rows as [|x rows IH]; simpl; [reflexivity|].
  destruct (keep x) eqn:K; simpl.
  - rewrite IH. reflexivity.
  - destruct (wanted x) eqn:W; [|exact IH].
    rewrite (Himp x W) in K. discriminate.
Qed.

(** A selection that drops every row of a key finds none. *)
Lemma find_filter_drops (wanted keep : A -> bool) :
  forall rows : list A,
    (forall r, wanted r = true -> keep r = false) ->
    find wanted (filter keep rows) = None.
Proof.
  intros rows Himp. induction rows as [|x rows IH]; simpl; [reflexivity|].
  destruct (keep x) eqn:K; simpl; [|exact IH].
  destruct (wanted x) eqn:W; [|exact IH].
  rewrite (Himp x W) in K. discriminate.
Qed.

(** [rowCount > 0] of a [DELETE]: rows were dropped exactly when a row
    matched. *)
Lemma filter_shorter_iff (keep : A -> bool) :
  forall rows : list A,
    (List.length (filter keep rows) <= List.length rows)%nat
    /\ ((List.length (filter keep rows) <? List.length rows)%nat
        = match find (fun r => negb (keep r)) rows with Some _ => true | None => false end).
Proof.
  intros rows. induction rows as [|x rows [IH1 IH2]]; simpl; [split; [lia|reflexivity]|].
  destruct (keep x); simpl.
  - split; [lia|]. exact IH2.
  - split; [lia|]. apply Nat.ltb_lt. lia.
Qed.

End SelectByKey.

(** X15. [deleteVideo] removes the video and every event that names it, and
    nothing else: afterwards [getVideo] finds nothing under the identifier
    and no event carries it, every other video is found as before, the
    events of other videos stay in their order, and the channels are
    untouched.  The result is [true] exactly when the video was stored. *)
Theorem deleteVideo_removes_video_and_its_events :
  forall (videoId : string) (db : DatabaseService.DB),
    let result := DatabaseService.deleteVideo videoId db in
    DatabaseService.getVideo videoId (fst result) = None
    /\ (forall e, In e (DatabaseService.events (fst result))
                  <-> In e (DatabaseService.events db) /\ DBEvent.video_id e <> videoId)
    /\ (forall other, other <> videoId ->
          DatabaseService.getVideo other (fst result) = DatabaseService.getVideo other db
          /\ filter (fun e => String.eqb (DBEvent.video_id e) other)
                    (DatabaseService.events (fst result))
             = filter (fun e => String.eqb (DBEvent.video_id e) other)
                      (DatabaseService.events db))
    /\ snd result = stored videoId db
    /\ DatabaseService.channels (fst result) = DatabaseService.channels db.
Proof.
  intros videoId db result. subst result. unfold DatabaseService.deleteVideo. simpl.
  repeat split.
  - unfold DatabaseService.getVideo. simpl. apply find_filter_drops.
    intros r W. rewrite W. reflexivity.
  - apply filter_In in H. tauto.
  - apply filter_In in H. destruct H as [_ H]. apply negb_true_iff in H.
    apply String.eqb_neq. exact H.
  - intros [H1 H2]. apply filter_In. split; [exact H1|].
    apply negb_true_iff, String.eqb_neq. exact H2.
  - unfold DatabaseService.getVideo. simpl. apply find_filter_keeps.
    intros r W. apply String.eqb_eq in W. apply negb_true_iff, String.eqb_neq.
    congruence.
  - rewrite filter_filter. apply filter_ext. intros e.
    destruct (String.eqb_spec (DBEvent.video_id e) other) as [E|E];
      [|rewrite andb_false_r; reflexivity].
    rewrite andb_true_r. apply negb_true_iff, String.eqb_neq. congruence.
  - unfold stored, DatabaseService.getVideo.
    rewrite (proj2 (filter_shorter_iff _ (DatabaseService.videos db))).
    induction (DatabaseService.videos db) as [|x rows IH]; simpl; [reflexivity|].
    rewrite negb_involutive.
    destruct (String.eqb (DBVideo.video_id x) videoId); [reflexivity | exact IH].
Qed.

Section Bookmarks.

Import DatabaseService.

Variables (now value : Z) (videoId : string).

(** What a lookup gives after [UPDATE videos SET bookmarked = value WHERE
    video_id = videoId]. *)
Lemma set_bookmarked_getVideo (key : string) (d : DB) :
  match getVideo key d with
  | None => getVideo key (fst (set_bookmarked now value videoId d)) = None
  | Some r =>
      exists r', getVideo key (fst (set_bookmarked now value videoId d)) = Some r'
                 /\ if String.eqb key videoId then DBVideo.bookmarked r' = value
                    else r' = r
  end.
Proof.
  unfold getVideo, set_bookmarked. simpl.
  induction (videos d) as [|x rows IH]; simpl; [reflexivity|].
  destruct (String.eqb_spec (DBVideo.video_id x) videoId) as [E|E]; simpl.
  - destruct (String.eqb_spec (DBVideo.video_id x) key) as [K|K]; [|exact IH].
    eexists. split; [reflexivity|].
    replace (String.eqb key videoId) with true
      by (symmetry; apply String.eqb_eq; congruence).
    reflexivity.
  - destruct (String.eqb_spec (DBVideo.video_id x) key) as [K|K]; [|exact IH].
    eexists. split; [reflexivity|].
    replace (String.eqb key videoId) with false
      by (symmetry; apply String.eqb_neq; congruence).
    reflexivity.
Qed.

Lemma set_bookmarked_stored (key : string) (d : DB) :
  stored key (fst (set_bookmarked now value videoId d)) = stored key d.
Proof.
  unfold stored. pose proof (set_bookmarked_getVideo key d) as H.
  destruct (getVideo key d).
  - destruct H as [r' [-> _]]. reflexivity.
  - rewrite H. reflexivity.
Qed.

Lemma set_bookmarked_answer (d : DB) :
  snd (set_bookmarked now value videoId d) = stored videoId d.
Proof.
  unfold set_bookmarked, stored, getVideo. simpl.
  induction (videos d) as [|x rows IH]; simpl; [reflexivity|].
  destruct (String.eqb (DBVideo.video_id x) videoId); [reflexivity | exact IH].
Qed.

Lemma set_bookmarked_isBookmarked (key : string) (d : DB) :
  Database.isBookmarked key (fst (set_bookmarked now value videoId d))
  = if String.eqb key videoId then stored key d && (value =? 1)
    else Database.isBookmarked key d.
Proof.
  unfold Database.isBookmarked, stored.
  pose proof (set_bookmarked_getVideo key d) as H.
  destruct (getVideo key d) as [r|].
  - destruct H as [r' [-> H]]. destruct (String.eqb key videoId); [|subst r'; reflexivity].
    rewrite H. reflexivity.
  - rewrite H. destruct (String.eqb key videoId); reflexivity.
Qed.

Lemma set_bookmarked_ids (d : DB) :
  map DBVideo.video_id (videos (fst (set_bookmarked now value videoId d)))
  = map DBVideo.video_id (videos d).
Proof.
  unfold set_bookmarked. simpl. rewrite map_map. apply map_ext.
  intros r. destruct (String.eqb (DBVideo.video_id r) videoId); reflexivity.
Qed.

End Bookmarks.

(** X16. [bookmarkVideo] and [unbookmarkVideo] answer whether the video is
    stored.  After [bookmarkVideo] the video [isBookmarked] exactly when it
    is stored; after [unbookmarkVideo] it is not.  Neither changes what
    [getVideo] or [isBookmarked] give for another video, the identifiers in
    the table, or the events. *)
Theorem bookmark_then_isBookmarked :
  forall (now now' : Z) (videoId : string) (db : DatabaseService.DB),
    let marked := DatabaseService.bookmarkVideo now videoId db in
    let cleared := DatabaseService.unbookmarkVideo now' videoId (fst marked) in
    snd marked = stored videoId db
    /\ Database.isBookmarked videoId (fst marked) = stored videoId db
    /\ snd cleared = stored videoId db
    /\ Database.isBookmarked videoId (fst cleared) = false
    /\ (forall other, other <> videoId ->
          DatabaseService.getVideo other (fst marked) = DatabaseService.getVideo other db
          /\ Database.isBookmarked other (fst cleared) = Database.isBookmarked other db)
    /\ map DBVideo.video_id (DatabaseService.videos (fst cleared))
       = map DBVideo.video_id (DatabaseService.videos db)
    /\ DatabaseService.events (fst cleared) = DatabaseService.events db.
Proof.
  intros now now' videoId db marked cleared. subst cleared marked.
  unfold DatabaseService.bookmarkVideo, DatabaseService.unbookmarkVideo.
  repeat split.
  - apply set_bookmarked_answer.
  - rewrite set_bookmarked_isBookmarked, String.eqb_refl. apply andb_true_r.
  - rewrite set_bookmarked_answer. apply set_bookmarked_stored.
  - rewrite set_bookmarked_isBookmarked, String.eqb_refl. apply andb_false_r.
  - pose proof (set_bookmarked_getVideo now 1 videoId other db) as G.
    apply String.eqb_neq in H. rewrite H in G.
    destruct (DatabaseService.getVideo other db).
    + destruct G as [r' [-> ->]]. reflexivity.
    + exact G.
  - apply String.eqb_neq in H. rewrite !set_bookmarked_isBookmarked, H. reflexivity.
  - rewrite !set_bookmarked_ids. reflexivity.
Qed.

(** ** Retention, for every store and every limit *)

Section RetentionBound.

Import DatabaseService.

(** [beyond_limit_In] without a sign condition: a negative limit selects
    every unbookmarked row. *)
Lemma beyond_limit_selects (maxPerChannel : Z) (rows : list DBVideo.t) (r : DBVideo.t) :
  In r (beyond_limit maxPerChannel rows)
  <-> DBVideo.bookmarked r = 0
      /\ In r (skipn (Z.to_nat maxPerChannel)
                     (order_by_published_at_desc
                        (partition_of (DBVideo.channel_id r) rows))).
Proof.
  unfold beyond_limit. rewrite in_map_iff. split.
  - intros [[rn r'] [E H]]. simpl in E. subst r'.
    apply filter_In in H. destruct H as [H C].
    apply andb_true_iff in C. destruct C as [C1 C2].
    apply Z.ltb_lt in C1. apply Z.eqb_eq in C2.
    apply ranked_In in H. destruct H as [H1 H2].
    split; [exact C2|]. apply in_skipn_nth. exists (rn - 1)%nat. split; [lia|exact H2].
  - intros [B H]. apply in_skipn_nth in H. destruct H as [i [Hi H]].
    exists (S i, r). split; [reflexivity|]. apply filter_In. split.
    + apply ranked_In. split; [lia|]. simpl. rewrite Nat.sub_0_r. exact H.
    + apply andb_true_iff. split; [apply Z.ltb_lt; lia | apply Z.eqb_eq; exact B].
Qed.

Lemma skipn_In {A : Type} (m : nat) (l : list A) (x : A) :
  In x (skipn m l) -> In x l.
Proof.
  intros H. rewrite <- (firstn_skipn m l). apply in_or_app. right. exact H.
Qed.

Lemma cleanupOldVideos_kept (maxPerChannel : Z) (d : DB) :
  videos (fst (cleanupOldVideos maxPerChannel d))
  = filter (keptBy maxPerChannel d) (videos d).
Proof. reflexivity. Qed.

Lemma keptBy_not_selected (maxPerChannel : Z) (d : DB) (r : DBVideo.t) :
  keptBy maxPerChannel d r = true -> ~ In r (beyond_limit maxPerChannel (videos d)).
Proof.
  unfold keptBy. intros K H. apply negb_true_iff in K.
  assert (existsb (Z.eqb (DBVideo.id r))
                  (map DBVideo.id (beyond_limit maxPerChannel (videos d))) = true) as T.
  { apply existsb_exists. exists (DBVideo.id r).
    split; [apply in_map; exact H | apply Z.eqb_refl]. }
  congruence.
Qed.

(** No kept unbookmarked row stands after the first [maxPerChannel] of its
    window. *)
Lemma kept_unbookmarked_within (maxPerChannel : Z) (d : DB) (c : string) :
  filter (fun r => unbookmarked r && keptBy maxPerChannel d r)
         (skipn (Z.to_nat maxPerChannel)
                (order_by_published_at_desc (partition_of c (videos d))))
  = [].
Proof.
  apply filter_none. intros r Hr.
  destruct (unbookmarked r) eqn:U; [|reflexivity].
  destruct (keptBy maxPerChannel d r) eqn:K; [|reflexivity].
  exfalso. apply (keptBy_not_selected _ _ _ K).
  apply beyond_limit_selects. unfold unbookmarked in U. apply Z.eqb_eq in U.
  split; [exact U|].
  assert (DBVideo.channel_id r = c) as ->; [|exact Hr].
  apply skipn_In, order_by_In, partition_of_In in Hr. tauto.
Qed.

Lemma partition_of_kept (maxPerChannel : Z) (d : DB) (c : string) :
  partition_of c (videos (fst (cleanupOldVideos maxPerChannel d)))
  = filter (keptBy maxPerChannel d) (partition_of c (videos d)).
Proof.
  rewrite cleanupOldVideos_kept. unfold partition_of. rewrite !filter_filter.
  apply filter_ext. intros r. apply andb_comm.
Qed.

Lemma unbookmarkedOf_kept_length (maxPerChannel : Z) (d : DB) (c : string) :
  (List.length (unbookmarkedOf c (fst (cleanupOldVideos maxPerChannel d)))
   <= Z.to_nat maxPerChannel)%nat.
Proof.
  unfold unbookmarkedOf. rewrite partition_of_kept, filter_filter.
  set (q := fun r => keptBy maxPerChannel d r && unbookmarked r).
  set (window := order_by_published_at_desc (partition_of c (videos d))).
  rewrite <- (Permutation_length
                (filter_Permutation q _ _ (order_by_Permutation (partition_of c (videos d))))).
  fold window. rewrite <- (firstn_skipn (Z.to_nat maxPerChannel) window), filter_app, length_app.
  replace (filter q (skipn (Z.to_nat maxPerChannel) window)) with (@nil DBVideo.t).
  - simpl. rewrite Nat.add_0_r.
    eapply Nat.le_trans; [apply (proj1 (filter_shorter_iff q _))|].
    apply firstn_le_length.
  - symmetry. rewrite <- (kept_unbookmarked_within maxPerChannel d c).
    apply filter_ext. intros r. apply andb_comm.
Qed.

(** *** Running the cleanup again *)

Lemma insert_desc_newest (r : DBVideo.t) (l : list DBVideo.t) :
  (forall y, In y l -> DBVideo.published_at y <= DBVideo.published_at r) ->
  insert_desc r l = r :: l.
Proof.
  destruct l as [|x l]; simpl; intros H; [reflexivity|].
  destruct (Z.leb_spec (DBVideo.published_at x) (DBVideo.published_at r)) as [L|L];
    [reflexivity|].
  specialize (H x (or_introl eq_refl)). lia.
Qed.

(** The sort is stable, so it commutes with any selection of rows. *)
Lemma insert_desc_filter (keep : DBVideo.t -> bool) (r : DBVideo.t) (l : list DBVideo.t) :
  StronglySorted newerFirst l ->
  filter keep (insert_desc r l)
  = if keep r then insert_desc r (filter keep l) else filter keep l.
Proof.
  induction l as [|x l IH]; intros S.
  - simpl. destruct (keep r); reflexivity.
  - inversion S as [|? ? S' F]. subst. rewrite Forall_forall in F. simpl.
    destruct (Z.leb_spec (DBVideo.published_at x) (DBVideo.published_at r)) as [L|L].
    + simpl. destruct (keep r) eqn:Kr; [|reflexivity].
      destruct (keep x) eqn:Kx.
      * simpl. destruct (Z.leb_spec (DBVideo.published_at x) (DBVideo.published_at r));
          [reflexivity | lia].
      * symmetry. apply insert_desc_newest. intros y Hy.
        apply filter_In in Hy. destruct Hy as [Hy _].
        specialize (F y Hy). unfold newerFirst in F. lia.
    + simpl. rewrite (IH S'). destruct (keep x) eqn:Kx, (keep r) eqn:Kr; try reflexivity.
      simpl. destruct (Z.leb_spec (DBVideo.published_at x) (DBVideo.published_at r));
        [lia | reflexivity].
Qed.

Lemma order_by_filter (keep : DBVideo.t -> bool) (l : list DBVideo.t) :
  filter keep (order_by_published_at_desc l) = order_by_published_at_desc (filter keep l).
Proof.
  induction l as [|x l IH]; [reflexivity|].
  change (order_by_published_at_desc (x :: l))
    with (insert_desc x (order_by_published_at_desc l)).
  rewrite insert_desc_filter by apply order_by_sorted.
  simpl. destruct (keep x); rewrite IH; reflexivity.
Qed.

Lemma skipn_S_In {A : Type} (x : A) :
  forall (m : nat) (l : list A), In x (skipn (S m) l) -> In x (skipn m l).
Proof.
  induction m as [|m IH]; intros [|a l]; simpl; auto.
Qed.

(** A row that stands after place [m] in a selection stands after place [m]
    in the whole list. *)
Lemma skipn_filter_In {A : Type} (keep : A -> bool) (x : A) :
  forall (l : list A) (m : nat), In x (skipn m (filter keep l)) -> In x (skipn m l).
Proof.
  induction l as [|a l IH]; intros m; simpl.
  - rewrite !skipn_nil. auto.
  - destruct (keep a).
    + destruct m as [|m]; simpl.
      * intros [H|H]; [auto|]. right. apply filter_In in H. tauto.
      * apply IH.
    + intros H. apply IH in H. destruct m as [|m]; simpl.
      * right. exact H.
      * apply skipn_S_In. exact H.
Qed.

Lemma beyond_limit_after_cleanup (maxPerChannel : Z) (d : DB) :
  beyond_limit maxPerChannel (videos (fst (cleanupOldVideos maxPerChannel d))) = [].
Proof.
  destruct (beyond_limit maxPerChannel (videos (fst (cleanupOldVideos maxPerChannel d))))
    as [|r rest] eqn:E; [reflexivity|].
  exfalso.
  assert (In r (beyond_limit maxPerChannel
                  (videos (fst (cleanupOldVideos maxPerChannel d))))) as H
      by (rewrite E; left; reflexivity).
  apply beyond_limit_selects in H. destruct H as [B H].
  rewrite partition_of_kept, <- order_by_filter in H.
  pose proof (skipn_In _ _ _ H) as K. apply filter_In in K. destruct K as [_ K].
  apply skipn_filter_In in H.
  apply (keptBy_not_selected _ _ _ K). apply beyond_limit_selects. auto.
Qed.

Lemma filter_all {A : Type} (keep : A -> bool) (l : list A) :
  (forall x, keep x = true) -> filter keep l = l.
Proof.
  intros H. induction l as [|x l IH]; simpl; [reflexivity|].
  rewrite H, IH. reflexivity.
Qed.

Lemma cleanupOldVideos_twice (maxPerChannel : Z) (d : DB) :
  cleanupOldVideos maxPerChannel (fst (cleanupOldVideos maxPerChannel d))
  = (fst (cleanupOldVideos maxPerChannel d), 0%nat).
Proof.
  pose proof (beyond_limit_after_cleanup maxPerChannel d) as E.
  remember (fst (cleanupOldVideos maxPerChannel d)) as d1 eqn:D. clear D.
  unfold cleanupOldVideos. rewrite E. simpl.
  rewrite (filter_all _ (videos d1)) by reflexivity.
  rewrite (filter_all _ (events d1)) by reflexivity.
  rewrite Nat.sub_diag. destruct d1; reflexivity.
Qed.

End RetentionBound.

(** X17. After [cleanupOldVideos], every channel holds at most
    [maxPerChannel] unbookmarked videos (none when the limit is negative),
    for every store and every limit.  The cleanup adds no row, and its
    result is the number of rows that left the table. *)
Theorem cleanupOldVideos_bounds_each_channel :
  forall (maxPerChannel : Z) (db : DatabaseService.DB),
    let result := DatabaseService.cleanupOldVideos maxPerChannel db in
    (forall c, Z.of_nat (List.length (unbookmarkedOf c (fst result))) <= Z.max 0 maxPerChannel)
    /\ (forall r, In r (DatabaseService.videos (fst result)) -> In r (DatabaseService.videos db))
    /\ (List.length (DatabaseService.videos (fst result)) + snd result
        = List.length (DatabaseService.videos db))%nat.
Proof.
  intros maxPerChannel db result. subst result. repeat split.
  - intros c. pose proof (unbookmarkedOf_kept_length maxPerChannel db c). lia.
  - rewrite cleanupOldVideos_kept. intros r H. apply filter_In in H. tauto.
  - rewrite cleanupOldVideos_kept. unfold DatabaseService.cleanupOldVideos. simpl.
    fold (keptBy maxPerChannel db).
    pose proof (proj1 (filter_shorter_iff (keptBy maxPerChannel db)
                         (DatabaseService.videos db))). lia.
Qed.

(** X18. [cleanupOldVideos] is idempotent: a second run with the same limit
    deletes nothing and leaves the store as the first run left it. *)
Theorem cleanupOldVideos_second_run_deletes_nothing :
  forall (maxPerChannel : Z) (db : DatabaseService.DB),
    let once := fst (DatabaseService.cleanupOldVideos maxPerChannel db) in
    DatabaseService.cleanupOldVideos maxPerChannel once = (once, 0%nat).
Proof.
  intros maxPerChannel db once. apply cleanupOldVideos_twice.
Qed.

(** ** The three cleanups together *)

Section Cleanup.

Import DatabaseService.

Lemma stored_existsb (videoId : string) (d : DB) :
  stored videoId d = existsb (String.eqb videoId) (map DBVideo.video_id (videos d)).
Proof.
  unfold stored, getVideo.
  induction (videos d) as [|x rows IH]; simpl; [reflexivity|].
  rewrite (String.eqb_sym videoId). destruct (String.eqb (DBVideo.video_id x) videoId);
    [reflexivity | exact IH].
Qed.

Variables (now : Z) (maxVideosPerChannel maxEventDays : option Z).

Let maxVideos := match maxVideosPerChannel with Some n => n | None => 10 end.
Let maxDays := match maxEventDays with Some n => n | None => 3 end.

Lemma runCleanup_videos (d : DB) :
  videos (fst (Database.runCleanup now maxVideosPerChannel maxEventDays d))
  = videos (fst (cleanupOldVideos maxVideos d)).
Proof. reflexivity. Qed.

Lemma runCleanup_channels (d : DB) :
  channels (fst (Database.runCleanup now maxVideosPerChannel maxEventDays d)) = channels d.
Proof. reflexivity. Qed.

Lemma runCleanup_events (d : DB) (e : DBEvent.t) :
  In e (events (fst (Database.runCleanup now maxVideosPerChannel maxEventDays d))) ->
  In e (events d)
  /\ now - Database.day_ms * maxDays <= DBEvent.created_at e
  /\ stored (DBEvent.video_id e)
            (fst (Database.runCleanup now maxVideosPerChannel maxEventDays d)) = true.
Proof.
  rewrite stored_existsb, runCleanup_videos.
  unfold Database.runCleanup, Database.cleanupOrphanEvents, Database.cleanupOldEvents,
    cleanupOldVideos. simpl.
  fold maxVideos maxDays.
  rewrite !filter_In. intros [[[H1 _] H2] H3].
  split; [exact H1|]. split; [|exact H3].
  apply negb_true_iff, Z.ltb_ge in H2. exact H2.
Qed.

Lemma runCleanup_counts (d : DB) :
  let result := Database.runCleanup now maxVideosPerChannel maxEventDays d in
  (List.length (videos (fst result)) + fst (fst (snd result)) = List.length (videos d))%nat.
Proof.
  unfold Database.runCleanup, Database.cleanupOrphanEvents, Database.cleanupOldEvents,
    cleanupOldVideos. simpl. fold maxVideos.
  match goal with
  | |- (List.length (filter ?k ?l) + _ = _)%nat =>
      pose proof (proj1 (filter_shorter_iff k l))
  end.
  lia.
Qed.

End Cleanup.

(** X19. After [runCleanup], with the limits given or their defaults 10 and
    3: every channel holds at most [maxVideosPerChannel] unbookmarked
    videos, no event is older than [maxEventDays] days, and every event
    names a video that is still stored.  The cleanup adds no video and no
    event, leaves the channels alone, and [deletedVideos] is the number of
    videos that left the table. *)
Theorem runCleanup_end_state :
  forall (now : Z) (maxVideosPerChannel maxEventDays : option Z) (db : DatabaseService.DB),
    let maxVideos := match maxVideosPerChannel with Some n => n | None => 10 end in
    let maxDays := match maxEventDays with Some n => n | None => 3 end in
    let result := Database.runCleanup now maxVideosPerChannel maxEventDays db in
    (forall c, Z.of_nat (List.length (unbookmarkedOf c (fst result))) <= Z.max 0 maxVideos)
    /\ eventsWithin now maxDays (fst result)
    /\ noOrphanEvents (fst result)
    /\ (forall r, In r (DatabaseService.videos (fst result)) ->
                  In r (DatabaseService.videos db))
    /\ (forall e, In e (DatabaseService.events (fst result)) ->
                  In e (DatabaseService.events db))
    /\ DatabaseService.channels (fst result) = DatabaseService.channels db
    /\ (List.length (DatabaseService.videos (fst result)) + fst (fst (snd result))
        = List.length (DatabaseService.videos db))%nat.
Proof.
  intros now maxVideosPerChannel maxEventDays db maxVideos maxDays result.
  subst result. repeat split.
  - intros c. unfold unbookmarkedOf. rewrite runCleanup_videos.
    pose proof (unbookmarkedOf_kept_length maxVideos db c) as H.
    unfold unbookmarkedOf in H. subst maxVideos. lia.
  - intros e H. apply runCleanup_events in H. tauto.
  - intros e H. apply runCleanup_events in H. tauto.
  - rewrite runCleanup_videos, cleanupOldVideos_kept. intros r H.
    apply filter_In in H. tauto.
  - intros e H. apply runCleanup_events in H. tauto.
  - apply runCleanup_counts.
Qed.

(** ** One cycle over the active channels *)

Section Cycle.

Import DatabaseService.

Variable now : Z.

Lemma upsertsOfCheck_channels (channelId : string) (items : list VideoInfo.t)
    (liveNow : option VideoInfo.t) (info : option ChannelInfo.t) (d : DB) :
  channels (fst (YouTubeMonitor.upsertsOfCheck now channelId items liveNow info d))
  = channels d.
Proof.
  unfold YouTubeMonitor.upsertsOfCheck, YouTubeMonitor.processFeedVideos.
  set (shorts := YouTubeMonitor.shortIdsOf items). clearbody shorts.
  assert (channels (fst (YouTubeMonitor.upsertLiveNow now channelId liveNow info d))
          = channels d) as Hlive.
  { unfold YouTubeMonitor.upsertLiveNow. destruct liveNow as [live|], info as [i|]; auto.
    pose proof (upsertVideo_channels now live channelId d) as C.
    destruct (upsertVideo now live channelId d) as [d' [row event]]. exact C. }
  rewrite <- Hlive.
  generalize (YouTubeMonitor.upsertLiveNow now channelId liveNow info d).
  induction items as [|v rest IH]; intros acc; [reflexivity|].
  simpl fold_left. rewrite IH. destruct acc as [d0 emitted].
  unfold YouTubeMonitor.feedStep.
  destruct (YouTubeMonitor.reachesUpsert shorts v); [|reflexivity].
  pose proof (upsertVideo_channels now v channelId d0) as C.
  destruct (upsertVideo now v channelId d0) as [d' [row event]]. exact C.
Qed.

Lemma upsertsOfCheck_emits_videos (channelId : string) (items : list VideoInfo.t)
    (liveNow : option VideoInfo.t) (info : option ChannelInfo.t) (d : DB) :
  checkedOf (snd (YouTubeMonitor.upsertsOfCheck now channelId items liveNow info d)) = [].
Proof.
  unfold YouTubeMonitor.upsertsOfCheck, YouTubeMonitor.processFeedVideos.
  set (shorts := YouTubeMonitor.shortIdsOf items). clearbody shorts.
  assert (checkedOf (snd (YouTubeMonitor.upsertLiveNow now channelId liveNow info d)) = [])
    as Hlive.
  { unfold YouTubeMonitor.upsertLiveNow. destruct liveNow as [live|], info as [i|]; auto.
    destruct (upsertVideo now live channelId d) as [d' [row [event|]]]; reflexivity. }
  revert Hlive.
  generalize (YouTubeMonitor.upsertLiveNow now channelId liveNow info d).
  induction items as [|v rest IH]; intros acc Hacc; [exact Hacc|].
  simpl fold_left. apply IH. destruct acc as [d0 emitted].
  unfold YouTubeMonitor.feedStep.
  destruct (YouTubeMonitor.reachesUpsert shorts v); [|exact Hacc].
  destruct (upsertVideo now v channelId d0) as [d' [row event]]. simpl in *.
  unfold checkedOf in *. rewrite flat_map_app, Hacc.
  destruct event, info; reflexivity.
Qed.

Lemma cleanupEndedLives_channels (channelId : string) (currentLive : option VideoInfo.t)
    (d : DB) :
  channels (YouTubeMonitor.cleanupEndedLives channelId currentLive d) = channels d.
Proof.
  unfold YouTubeMonitor.cleanupEndedLives.
  generalize (getLiveVideos (Some channelId) d) as saved. intros saved. revert d.
  induction saved as [|s rest IH]; intros d; [reflexivity|].
  simpl fold_left. rewrite IH.
  destruct (match currentLive with
            | Some cur => negb (String.eqb (DBVideo.video_id s) (VideoInfo.videoId cur))
            | None => true
            end); reflexivity.
Qed.

(** A check stamps the channel and changes no other column of [channels]. *)
Lemma checkChannel_channels (maxVideosPerFeed : nat)
    (feedResults : list (FeedType * list RSSItem.t))
    (liveNow : option VideoInfo.t) (channelId : string) (st : YouTubeMonitor.State) :
  let after :=
    YouTubeMonitor.db
      (fst (fst (YouTubeMonitor.checkChannel now maxVideosPerFeed feedResults liveNow
                   channelId st))) in
  map DBChannel.channel_id (channels after)
  = map DBChannel.channel_id (channels (YouTubeMonitor.db st))
  /\ activeIds after = activeIds (YouTubeMonitor.db st).
Proof.
  intros after. subst after. rewrite checkChannel_db.
  destruct (getChannel channelId (YouTubeMonitor.db st)); [|split; reflexivity].
  unfold activeIds, Database.getActiveChannels, updateChannelLastChecked. simpl.
  rewrite cleanupEndedLives_channels. unfold storeBeforeCleanup.
  rewrite upsertsOfCheck_channels.
  induction (channels (YouTubeMonitor.db st)) as [|c rows [IH1 IH2]]; [split; reflexivity|].
  simpl. split.
  - f_equal; [|exact IH1]. destruct (String.eqb (DBChannel.channel_id c) channelId); reflexivity.
  - destruct (String.eqb (DBChannel.channel_id c) channelId); simpl;
      destruct (DBChannel.is_active c =? 1); simpl; rewrite IH2; reflexivity.
Qed.

(** A stored channel is checked: the one ['channel_checked'] of the check
    is for it. *)
Lemma checkChannel_checkedOf (maxVideosPerFeed : nat)
    (feedResults : list (FeedType * list RSSItem.t))
    (liveNow : option VideoInfo.t) (channelId : string) (st : YouTubeMonitor.State) :
  In channelId (map DBChannel.channel_id (channels (YouTubeMonitor.db st))) ->
  checkedOf (snd (fst (YouTubeMonitor.checkChannel now maxVideosPerFeed feedResults liveNow
                         channelId st)))
  = [channelId].
Proof.
  intros Hin. unfold YouTubeMonitor.checkChannel.
  destruct (getChannel channelId (YouTubeMonitor.db st)) eqn:G.
  - destruct (YouTubeMonitor.resolveChannelInfo channelId st) as [info cache].
    pose proof (upsertsOfCheck_emits_videos channelId
                  (YouTubeScraper.getChannelVideos_unclassified maxVideosPerFeed feedResults)
                  liveNow info (YouTubeMonitor.db st)) as E.
    destruct (YouTubeMonitor.upsertsOfCheck _ _ _ _ _ _) as [d emitted]. simpl in *.
    unfold checkedOf in *. rewrite flat_map_app, E. reflexivity.
  - exfalso. apply in_map_iff in Hin. destruct Hin as [c [E Hc]].
    unfold getChannel in G. apply (find_none _ _ G) in Hc.
    rewrite E, String.eqb_refl in Hc. discriminate.
Qed.

Variables (config : Monitor.Config)
          (feedsOf : string -> list (FeedType * list RSSItem.t))
          (liveOf : string -> option VideoInfo.t).

Lemma checkEach_snoc (chans : list DBChannel.t) (c : DBChannel.t)
    (st : YouTubeMonitor.State) :
  Monitor.checkEach now config feedsOf liveOf (chans ++ [c]) st
  = let '(st1, emitted, totalVideos) :=
      Monitor.checkEach now config feedsOf liveOf chans st in
    let '(st', emitted', videos) :=
      YouTubeMonitor.checkChannel now (Monitor.maxVideosPerFeed config)
        (feedsOf (DBChannel.channel_id c)) (liveOf (DBChannel.channel_id c))
        (DBChannel.channel_id c) st1 in
    (st', emitted ++ emitted', (totalVideos + List.length videos)%nat).
Proof.
  unfold Monitor.checkEach. rewrite fold_left_app. simpl.
  destruct (fold_left _ chans _) as [[st1 emitted] totalVideos]. reflexivity.
Qed.

Lemma checkEach_checks_each (st : YouTubeMonitor.State) :
  forall chans : list DBChannel.t,
    (forall c, In c chans -> In c (channels (YouTubeMonitor.db st))) ->
    let result := Monitor.checkEach now config feedsOf liveOf chans st in
    checkedOf (snd (fst result)) = map DBChannel.channel_id chans
    /\ map DBChannel.channel_id (channels (YouTubeMonitor.db (fst (fst result))))
       = map DBChannel.channel_id (channels (YouTubeMonitor.db st))
    /\ activeIds (YouTubeMonitor.db (fst (fst result))) = activeIds (YouTubeMonitor.db st).
Proof.
  intros chans. induction chans as [|c chans IH] using rev_ind; intros Hin result.
  - subst result. repeat split.
  - subst result. rewrite checkEach_snoc.
    destruct IH as [IH1 [IH2 IH3]].
    { intros x Hx. apply Hin, in_or_app. auto. }
    destruct (Monitor.checkEach now config feedsOf liveOf chans st)
      as [[st1 emitted] totalVideos]. simpl in IH1, IH2, IH3.
    pose proof (checkChannel_channels (Monitor.maxVideosPerFeed config)
                  (feedsOf (DBChannel.channel_id c)) (liveOf (DBChannel.channel_id c))
                  (DBChannel.channel_id c) st1) as [C1 C2].
    pose proof (checkChannel_checkedOf (Monitor.maxVideosPerFeed config)
                  (feedsOf (DBChannel.channel_id c)) (liveOf (DBChannel.channel_id c))
                  (DBChannel.channel_id c) st1) as C3.
    destruct (YouTubeMonitor.checkChannel _ _ _ _ _ _) as [[st' emitted'] videos].
    simpl in *. repeat split.
    + unfold checkedOf in *. rewrite flat_map_app, IH1, C3, map_app; [reflexivity|].
      rewrite IH2. apply in_map, Hin, in_or_app. right. left. reflexivity.
    + congruence.
    + congruence.
Qed.

End Cycle.

(** X20. One cycle of [checkAllChannels] checks every active channel once,
    in table order: its ['channel_checked'] emissions name exactly the
    channels that were active at its start, followed by one
    ['cycle_complete'] that counts them.  The cycle changes no channel's
    activity, and it ends in the state that [runCleanup] guarantees: at most
    [maxVideosPerChannel] unbookmarked videos per channel, no event older
    than [maxEventDays] days, no event without its video. *)
Theorem checkAllChannels_checks_each_active_channel :
  forall (now : Z) (config : Monitor.Config)
         (feedsOf : string -> list (FeedType * list RSSItem.t))
         (liveOf : string -> option VideoInfo.t) (st : YouTubeMonitor.State),
    let result := Monitor.checkAllChannels now config feedsOf liveOf st in
    let after := YouTubeMonitor.db (fst result) in
    checkedChannels (snd result) = activeIds (YouTubeMonitor.db st)
    /\ (exists videos events,
          last (snd result) (Monitor.CycleComplete 0 0 0)
          = Monitor.CycleComplete (List.length (activeIds (YouTubeMonitor.db st)))
                                  videos events)
    /\ activeIds after = activeIds (YouTubeMonitor.db st)
    /\ (forall c, Z.of_nat (List.length (unbookmarkedOf c after))
                  <= Z.max 0 (Monitor.maxVideosPerChannel config))
    /\ eventsWithin now (Monitor.maxEventDays config) after
    /\ noOrphanEvents after.
Proof.
  intros now config feedsOf liveOf st result after. subst after result.
  unfold Monitor.checkAllChannels.
  pose proof (checkEach_checks_each now config feedsOf liveOf st
                (Database.getActiveChannels (YouTubeMonitor.db st))) as H.
  destruct H as [H1 [H2 H3]].
  { intros c Hc. unfold Database.getActiveChannels in Hc. apply filter_In in Hc. tauto. }
  destruct (Monitor.checkEach _ _ _ _ _ _) as [[st1 emitted] totalVideos]. simpl in H1, H2, H3.
  pose proof (fun c => unbookmarkedOf_kept_length (Monitor.maxVideosPerChannel config)
                         (YouTubeMonitor.db st1) c) as R1.
  pose proof (runCleanup_events now (Some (Monitor.maxVideosPerChannel config))
                (Some (Monitor.maxEventDays config)) (YouTubeMonitor.db st1)) as R2.
  pose proof (runCleanup_videos now (Some (Monitor.maxVideosPerChannel config))
                (Some (Monitor.maxEventDays config)) (YouTubeMonitor.db st1)) as R3.
  pose proof (runCleanup_channels now (Some (Monitor.maxVideosPerChannel config))
                (Some (Monitor.maxEventDays config)) (YouTubeMonitor.db st1)) as R6.
  destruct (Database.runCleanup _ _ _ _) as [db2 counts]. simpl in R2, R6.
  change (DatabaseService.videos db2
          = DatabaseService.videos
              (fst (DatabaseService.cleanupOldVideos (Monitor.maxVideosPerChannel config)
                      (YouTubeMonitor.db st1)))) in R3.
  simpl.
  split; [|split; [|split; [|split; [|split]]]].
  - unfold checkedChannels. rewrite flat_map_app. simpl. rewrite app_nil_r.
    unfold activeIds at 1. rewrite <- H1. unfold checkedOf.
    clear. induction emitted as [|e rest IH]; simpl; [reflexivity|].
    rewrite IH. destruct e; reflexivity.
  - exists totalVideos. eexists. rewrite last_last. unfold activeIds.
    rewrite length_map. reflexivity.
  - rewrite <- H3. unfold activeIds, Database.getActiveChannels. rewrite R6. reflexivity.
  - intros c. specialize (R1 c). unfold unbookmarkedOf in *. rewrite R3. lia.
  - intros e He. apply R2 in He. tauto.
  - intros e He. apply R2 in He. tauto.
Qed.

(** ** Channels: adding, removing, adding again *)

Section Channels.

Import DatabaseService.

Variable now : Z.

Lemma insert_channel_returned (excluded : DBChannel.t) (rows : list DBChannel.t) :
  snd (Database.insert_channel_on_conflict now excluded rows)
  = match find (fun c => String.eqb (DBChannel.channel_id c) (DBChannel.channel_id excluded))
               rows with
    | Some old => Database.channel_conflict_update now old excluded
    | None => excluded
    end.
Proof.
  induction rows as [|x rest IH]; simpl; [reflexivity|].
  destruct (String.eqb (DBChannel.channel_id x) (DBChannel.channel_id excluded));
    [reflexivity|].
  destruct (Database.insert_channel_on_conflict now excluded rest) as [rest' ret]. exact IH.
Qed.

Lemma insert_channel_find (excluded : DBChannel.t) (rows : list DBChannel.t) (key : string) :
  find (fun c => String.eqb (DBChannel.channel_id c) key)
       (fst (Database.insert_channel_on_conflict now excluded rows))
  = if String.eqb (DBChannel.channel_id excluded) key
    then Some (snd (Database.insert_channel_on_conflict now excluded rows))
    else find (fun c => String.eqb (DBChannel.channel_id c) key) rows.
Proof.
  induction rows as [|x rest IH]; simpl.
  - destruct (String.eqb (DBChannel.channel_id excluded) key); reflexivity.
  - destruct (String.eqb_spec (DBChannel.channel_id x) (DBChannel.channel_id excluded))
      as [E|E]; simpl.
    + rewrite E. destruct (String.eqb (DBChannel.channel_id excluded) key); reflexivity.
    + destruct (Database.insert_channel_on_conflict now excluded rest) as [rest' ret].
      simpl in *. destruct (String.eqb_spec (DBChannel.channel_id x) key) as [K|K];
        [|exact IH].
      destruct (String.eqb_spec (DBChannel.channel_id excluded) key); [congruence|reflexivity].
Qed.

(** The statement neither activates nor deactivates a stored channel. *)
Lemma insert_channel_inactive (excluded : DBChannel.t) (rows : list DBChannel.t) :
  In (DBChannel.channel_id excluded) (map DBChannel.channel_id rows) ->
  (forall c, In c rows -> DBChannel.channel_id c = DBChannel.channel_id excluded ->
             DBChannel.is_active c = 0) ->
  forall c, In c (fst (Database.insert_channel_on_conflict now excluded rows)) ->
            DBChannel.channel_id c = DBChannel.channel_id excluded ->
            DBChannel.is_active c = 0.
Proof.
  induction rows as [|x rest IH]; simpl; intros Hin Hoff c Hc E; [contradiction|].
  destruct (String.eqb_spec (DBChannel.channel_id x) (DBChannel.channel_id excluded))
    as [X|X]; simpl in Hc.
  - destruct Hc as [<-|Hc]; [simpl; auto | auto].
  - destruct (Database.insert_channel_on_conflict now excluded rest) as [rest' ret] eqn:R.
    simpl in *. destruct Hin as [Hin|Hin]; [contradiction|].
    destruct Hc as [<-|Hc]; [contradiction|]. apply IH; auto.
Qed.

End Channels.

(** X21. [upsertChannel] gives the row that [getChannel] finds afterwards,
    with the title, description and thumbnail of the given channel.  For a
    channel that was stored it keeps [id], [created_at], [last_checked_at]
    and [is_active]: the statement never turns a channel on or off.  A
    channel that was not stored becomes active.  Other channels, the videos
    and the events are untouched. *)
Theorem upsertChannel_keeps_activity :
  forall (now serial : Z) (channel : ChannelInfo.t) (db : DatabaseService.DB),
    let result := Database.upsertChannel now serial channel db in
    let row := snd result in
    DatabaseService.getChannel (ChannelInfo.channelId channel) (fst result) = Some row
    /\ DBChannel.channel_id row = ChannelInfo.channelId channel
    /\ DBChannel.title row = ChannelInfo.title channel
    /\ DBChannel.description row = YouTubeMonitor.or_undefined (ChannelInfo.description channel)
    /\ DBChannel.thumbnail_url row
       = YouTubeMonitor.or_undefined (ChannelInfo.thumbnailUrl channel)
    /\ match DatabaseService.getChannel (ChannelInfo.channelId channel) db with
       | Some old =>
           DBChannel.is_active row = DBChannel.is_active old
           /\ DBChannel.last_checked_at row = DBChannel.last_checked_at old
           /\ DBChannel.id row = DBChannel.id old
           /\ DBChannel.created_at row = DBChannel.created_at old
       | None =>
           DBChannel.is_active row = 1
           /\ DBChannel.last_checked_at row = None
           /\ DBChannel.id row = serial
           /\ DBChannel.created_at row = now
       end
    /\ (forall other, other <> ChannelInfo.channelId channel ->
          DatabaseService.getChannel other (fst result) = DatabaseService.getChannel other db)
    /\ DatabaseService.videos (fst result) = DatabaseService.videos db
    /\ DatabaseService.events (fst result) = DatabaseService.events db.
Proof.
  intros now serial channel db result row. subst row result.
  unfold Database.upsertChannel, DatabaseService.getChannel.
  pose proof (insert_channel_returned now (Database.proposed_channel now serial channel)
                (DatabaseService.channels db)) as R.
  pose proof (insert_channel_find now (Database.proposed_channel now serial channel)
                (DatabaseService.channels db)) as F.
  destruct (Database.insert_channel_on_conflict _ _ _) as [rows ret]. simpl in *.
  split; [rewrite F, String.eqb_refl; reflexivity|].
  assert (forall other, other <> ChannelInfo.channelId channel ->
            find (fun c => String.eqb (DBChannel.channel_id c) other) rows
            = find (fun c => String.eqb (DBChannel.channel_id c) other)
                   (DatabaseService.channels db)) as Hother.
  { intros other Ho. rewrite F.
    destruct (String.eqb_spec (ChannelInfo.channelId channel) other); [congruence|reflexivity]. }
  destruct (find _ (DatabaseService.channels db)) as [old|] eqn:G; subst ret; simpl.
  - apply find_some in G. destruct G as [_ G]. apply String.eqb_eq in G.
    repeat split; auto.
  - repeat split; auto.
Qed.

(** X22. [removeChannel] takes the channel out of the active channels and
    out of the cache; the other channels keep their activity, and the
    videos and events stay.  The monitor's next cycle does not check it. *)
Theorem removeChannel_deactivates :
  forall (channelId : string) (st : YouTubeMonitor.State),
    let after := Monitor.removeChannel channelId st in
    filter (String.eqb channelId) (activeIds (YouTubeMonitor.db after)) = []
    /\ filter (fun c => negb (String.eqb channelId c)) (activeIds (YouTubeMonitor.db after))
       = filter (fun c => negb (String.eqb channelId c)) (activeIds (YouTubeMonitor.db st))
    /\ YouTubeMonitor.cache_get channelId (YouTubeMonitor.channelCache after) = None
    /\ map DBChannel.channel_id (DatabaseService.channels (YouTubeMonitor.db after))
       = map DBChannel.channel_id (DatabaseService.channels (YouTubeMonitor.db st))
    /\ DatabaseService.videos (YouTubeMonitor.db after)
       = DatabaseService.videos (YouTubeMonitor.db st)
    /\ DatabaseService.events (YouTubeMonitor.db after)
       = DatabaseService.events (YouTubeMonitor.db st).
Proof.
  intros channelId st after. subst after.
  unfold Monitor.removeChannel, activeIds, Database.getActiveChannels,
    Database.deactivateChannel. simpl.
  repeat split.
  - induction (DatabaseService.channels (YouTubeMonitor.db st)) as [|c rows IH];
      [reflexivity|].
    simpl. destruct (String.eqb_spec (DBChannel.channel_id c) channelId) as [E|E]; simpl.
    + exact IH.
    + destruct (DBChannel.is_active c =? 1); simpl; [|exact IH].
      destruct (String.eqb_spec channelId (DBChannel.channel_id c)); [congruence|exact IH].
  - induction (DatabaseService.channels (YouTubeMonitor.db st)) as [|c rows IH];
      [reflexivity|].
    simpl. destruct (String.eqb_spec (DBChannel.channel_id c) channelId) as [E|E]; simpl.
    + destruct (DBChannel.is_active c =? 1); simpl; [|exact IH].
      destruct (String.eqb_spec channelId (DBChannel.channel_id c)); [|congruence].
      simpl. exact IH.
    + destruct (DBChannel.is_active c =? 1); simpl; [|exact IH].
      rewrite IH. reflexivity.
  - unfold YouTubeMonitor.cache_get, YouTubeMonitor.cache_delete.
    rewrite find_filter_drops; [reflexivity|].
    intros r W. rewrite W. reflexivity.
  - rewrite map_map. apply map_ext. intros c.
    destruct (String.eqb (DBChannel.channel_id c) channelId); reflexivity.
Qed.

(** X23. Adding a removed channel again does not bring it back:
    [removeChannel] sets [is_active = 0], and the [upsertChannel] of
    [addChannel] updates the stored row without touching [is_active].  The
    channel stays out of [getActiveChannels], so no later cycle checks it. *)
Theorem removed_channel_stays_inactive_when_added_again :
  forall (now serial : Z) (channel : ChannelInfo.t) (st : YouTubeMonitor.State),
    knownChannel (ChannelInfo.channelId channel) (YouTubeMonitor.db st) ->
    let removed := Monitor.removeChannel (ChannelInfo.channelId channel) st in
    let added := fst (Database.upsertChannel now serial channel (YouTubeMonitor.db removed)) in
    filter (String.eqb (ChannelInfo.channelId channel)) (activeIds added) = []
    /\ knownChannel (ChannelInfo.channelId channel) added.
Proof.
  intros now serial channel st Hknown removed added. subst added removed.
  unfold knownChannel in *. unfold Database.upsertChannel.
  set (rows := DatabaseService.channels
                 (YouTubeMonitor.db (Monitor.removeChannel (ChannelInfo.channelId channel) st))).
  assert (In (ChannelInfo.channelId channel) (map DBChannel.channel_id rows)) as Hin.
  { subst rows. unfold Monitor.removeChannel, Database.deactivateChannel. simpl.
    rewrite map_map. erewrite map_ext; [exact Hknown|].
    intros c. simpl.
    destruct (String.eqb (DBChannel.channel_id c) (ChannelInfo.channelId channel));
      reflexivity. }
  assert (forall c, In c rows ->
                    DBChannel.channel_id c = ChannelInfo.channelId channel ->
                    DBChannel.is_active c = 0) as Hoff.
  { subst rows. unfold Monitor.removeChannel, Database.deactivateChannel. simpl.
    intros c Hc E. apply in_map_iff in Hc. destruct Hc as [x [Hx _]].
    destruct (String.eqb_spec (DBChannel.channel_id x) (ChannelInfo.channelId channel));
      subst c; [reflexivity | contradiction]. }
  pose proof (insert_channel_inactive now (Database.proposed_channel now serial channel)
                rows Hin Hoff) as Hafter.
  pose proof (insert_channel_find now (Database.proposed_channel now serial channel)
                rows (ChannelInfo.channelId channel)) as F.
  fold rows.
  destruct (Database.insert_channel_on_conflict _ _ rows) as [rows' ret]. simpl in *.
  split.
  - apply filter_none. intros c Hc. unfold activeIds, Database.getActiveChannels in Hc.
    simpl in Hc. apply in_map_iff in Hc. destruct Hc as [x [E Hx]].
    apply filter_In in Hx. destruct Hx as [Hx A].
    apply String.eqb_neq. intros K. rewrite (Hafter x Hx) in A by congruence. discriminate.
  - rewrite String.eqb_refl in F. apply find_some in F. destruct F as [F E].
    apply String.eqb_eq in E. rewrite <- E. apply in_map. exact F.
Qed.

Lemma removed_channel_stays_inactive_when_added_again_witness :
  knownChannel "UC-live" (YouTubeMonitor.db twoLives)
  /\ activeIds (YouTubeMonitor.db twoLives) = ["UC-live"%string]
  /\ filter (String.eqb "UC-live")
            (activeIds
               (fst (Database.upsertChannel 1700000000500 2 (someChannel "UC-live")
                       (YouTubeMonitor.db (Monitor.removeChannel "UC-live" twoLives)))))
     = [].
Proof.
  assert (knownChannel "UC-live" (YouTubeMonitor.db twoLives)) as K
      by (left; reflexivity).
  split; [exact K|]. split; [reflexivity|].
  exact (proj1 (removed_channel_stays_inactive_when_added_again
                  1700000000500 2 (someChannel "UC-live") twoLives K)).
Defined.

(** ** Queries *)

(** X24. [getChannelVideos] of the store gives the newest videos of the
    channel, newest first: as many as the limit allows, all of the channel,
    and every video of the channel that is left out is no newer than any
    video that is given. *)
Theorem getChannelVideos_gives_the_newest :
  forall (channelId : string) (limit : nat) (db : DatabaseService.DB),
    let result := Database.getChannelVideos channelId limit db in
    List.length result
    = Nat.min limit
              (List.length (DatabaseService.partition_of channelId (DatabaseService.videos db)))
    /\ StronglySorted newerFirst result
    /\ (forall r, In r result ->
                  In r (DatabaseService.videos db) /\ DBVideo.channel_id r = channelId)
    /\ (forall r w, In r result ->
                    In w (DatabaseService.videos db) -> DBVideo.channel_id w = channelId ->
                    ~ In w result ->
                    DBVideo.published_at w <= DBVideo.published_at r).
Proof.
  intros channelId limit db result. subst result. unfold Database.getChannelVideos.
  set (window := DatabaseService.order_by_published_at_desc
                   (DatabaseService.partition_of channelId (DatabaseService.videos db))).
  assert (StronglySorted newerFirst (firstn limit window ++ skipn limit window)) as S
      by (rewrite firstn_skipn; apply order_by_sorted).
  repeat split.
  - rewrite length_firstn. unfold window. rewrite order_by_length. reflexivity.
  - clear S. generalize (order_by_sorted
                           (DatabaseService.partition_of channelId (DatabaseService.videos db))).
    fold window. generalize window as l. clear window. intros l. revert l.
    induction limit as [|n IH]; intros [|x l] S; simpl; try constructor.
    + apply IH. inversion S; assumption.
    + inversion S as [|? ? _ F]. subst. rewrite Forall_forall in *.
      intros y Hy. apply F. rewrite <- (firstn_skipn n l). apply in_or_app. auto.
  - rewrite <- (firstn_skipn limit window) in S.
    assert (In r window) as Hw
        by (rewrite <- (firstn_skipn limit window); apply in_or_app; auto).
    apply order_by_In, partition_of_In in Hw. tauto.
  - rewrite <- (firstn_skipn limit window) in S.
    assert (In r window) as Hw
        by (rewrite <- (firstn_skipn limit window); apply in_or_app; auto).
    apply order_by_In, partition_of_In in Hw. tauto.
  - intros r w Hr Hw Hc Hout.
    assert (In w window) as Hwin by (apply order_by_In, partition_of_In; auto).
    rewrite <- (firstn_skipn limit window) in Hwin. apply in_app_or in Hwin.
    destruct Hwin as [Hwin|Hwin]; [contradiction|].
    exact (StronglySorted_app_order newerFirst _ _ r w S Hr Hwin).
Qed.

(** ** The live probe *)

(** X25. A record that [checkLiveStatus] gives is always a live one: type
    [live], live now, not a recording, not upcoming, without duration,
    published at the time of the probe, whatever else the page says.  An
    upsert of it that goes through therefore fires [live_started] when the
    video is not stored or stored as not live, [video_updated] when it is
    stored as live under another type or title, and nothing otherwise; it
    never fires [new_video], [scheduled_live] or [live_ended], and the
    stored row is live. *)
Theorem checkLiveStatus_gives_live_records :
  forall (extractPlayerResponse : string -> YTPlayerResponse.t)
         (findVideoId : string -> string -> option string)
         (findTitle : string -> string)
         (now : Z) (channelId : string) (fetched : HttpClient.Result) (v : VideoInfo.t),
    Scraping.checkLiveStatus extractPlayerResponse findVideoId findTitle now channelId fetched
    = Some v ->
    (VideoInfo.type v = TLive
     /\ VideoInfo.isLive v = true
     /\ VideoInfo.isLiveContent v = false
     /\ VideoInfo.isUpcoming v = false
     /\ VideoInfo.duration v = None
     /\ VideoInfo.publishedAt v = now)
    /\ (exists html, fetched = HttpClient.Returns html
                     /\ findVideoId html channelId = Some (VideoInfo.videoId v)
                     /\ VideoInfo.title v = Text.decodeHtmlEntities (findTitle html))
    /\ (forall now' channelId' db,
          Database.accepts v channelId' db = true ->
          let result := DatabaseService.upsertVideo now' v channelId' db in
          snd (snd result)
          = match DatabaseService.getVideo (VideoInfo.videoId v) db with
            | None => Some live_started
            | Some old =>
                if DBVideo.is_live old =? 0 then Some live_started
                else if VideoType_eqb (DBVideo.type old) TLive
                        && String.eqb (DBVideo.title old) (VideoInfo.title v)
                     then None
                     else Some video_updated
            end
          /\ DBVideo.is_live (fst (snd result)) = 1
          /\ DBVideo.type (fst (snd result)) = TLive).
Proof.
  intros extractPlayerResponse findVideoId findTitle now channelId fetched v H.
  unfold Scraping.checkLiveStatus in H.
  destruct fetched as [html|e]; [|discriminate].
  destruct (truthy_flag (YTPlayerResponse.isLive (extractPlayerResponse html)));
    [|discriminate].
  destruct (findVideoId html channelId) as [correctVideoId|] eqn:F; [|discriminate].
  inversion H. subst v. clear H. simpl.
  split; [repeat split|]. split; [exists html; auto|].
  intros now' channelId' db _. rewrite upsertVideo_event, upsertVideo_returned.
  unfold DatabaseService.determineEvent, truthy_int. simpl.
  destruct (DatabaseService.getVideo correctVideoId db) as [old|]; simpl.
  - split; [|split; reflexivity].
    destruct (DBVideo.is_live old =? 0); simpl; [reflexivity|].
    destruct (VideoType_eqb (DBVideo.type old) TLive), (String.eqb (DBVideo.title old) _);
      reflexivity.
  - repeat split.
Qed.

Lemma checkLiveStatus_gives_live_records_witness :
  Scraping.checkLiveStatus livePage firstVideoOf titleOf 1700000500000 "UC-live"
    (HttpClient.Returns "page")
  = Some {| VideoInfo.videoId := "live-000003";
            VideoInfo.title := "Rock & Roll";
            VideoInfo.publishedAt := 1700000500000;
            VideoInfo.thumbnailUrl := "https://i.ytimg.com/vi/live-000003/maxresdefault.jpg";
            VideoInfo.type := TLive;
            VideoInfo.duration := None;
            VideoInfo.scheduledStartTime := None;
            VideoInfo.isLive := true;
            VideoInfo.isLiveContent := false;
            VideoInfo.isUpcoming := false |}
  /\ snd (snd (DatabaseService.upsertVideo 1700000500000
                 {| VideoInfo.videoId := "live-000003";
                    VideoInfo.title := "Rock & Roll";
                    VideoInfo.publishedAt := 1700000500000;
                    VideoInfo.thumbnailUrl :=
                      "https://i.ytimg.com/vi/live-000003/maxresdefault.jpg";
                    VideoInfo.type := TLive;
                    VideoInfo.duration := None;
                    VideoInfo.scheduledStartTime := None;
                    VideoInfo.isLive := true;
                    VideoInfo.isLiveContent := false;
                    VideoInfo.isUpcoming := false |}
                 "UC-live" (YouTubeMonitor.db twoLives)))
     = Some live_started.
Proof.
  assert (Scraping.checkLiveStatus livePage firstVideoOf titleOf 1700000500000 "UC-live"
            (HttpClient.Returns "page")
          = Some {| VideoInfo.videoId := "live-000003";
                    VideoInfo.title := "Rock & Roll";
                    VideoInfo.publishedAt := 1700000500000;
                    VideoInfo.thumbnailUrl :=
                      "https://i.ytimg.com/vi/live-000003/maxresdefault.jpg";
                    VideoInfo.type := TLive;
                    VideoInfo.duration := None;
                    VideoInfo.scheduledStartTime := None;
                    VideoInfo.isLive := true;
                    VideoInfo.isLiveContent := false;
                    VideoInfo.isUpcoming := false |}) as H by (vm_compute; reflexivity).
  split; [exact H|].
  exact (proj1 (proj2 (proj2 (checkLiveStatus_gives_live_records
                                livePage firstVideoOf titleOf 1700000500000 "UC-live"
                                (HttpClient.Returns "page") _ H))
                      1700000500000 "UC-live"%string (YouTubeMonitor.db twoLives)
                      eq_refl)).
Defined.

(** ** Reading the store back *)

(** X26. [dbVideoToVideoInfo] of the row that an [upsertVideo] that went
    through returns, as the code gets that row, gives the video back in
    part: identifier, title, thumbnail, type and the three signals are those
    that went in.  Three fields can differ.  A duration of 0 comes back as
    none.  The scheduled start comes back moved by the zone offset of the
    process, and so does the publication time, which is moreover that of
    the row stored first: the two come back as they went in only where
    that offset is 0.  [getLiveVideos] of the monitor lists the video right
    after the upsert exactly when it went in as live. *)
Theorem dbVideoToVideoInfo_gives_back_the_video :
  forall (localOffset : Z -> Z) (now : Z) (video : VideoInfo.t) (channelId : string)
         (st : YouTubeMonitor.State),
    Database.accepts video channelId (YouTubeMonitor.db st) = true ->
    let result := DatabaseService.upsertVideo now video channelId (YouTubeMonitor.db st) in
    let back :=
      Monitor.dbVideoToVideoInfo (Driver.videoRow localOffset (fst (snd result))) in
    let st' := {| YouTubeMonitor.db := fst result;
                  YouTubeMonitor.channelCache := YouTubeMonitor.channelCache st |} in
    back
    = {| VideoInfo.videoId := VideoInfo.videoId video;
         VideoInfo.title := VideoInfo.title video;
         VideoInfo.publishedAt :=
           Driver.read localOffset
             match DatabaseService.getVideo (VideoInfo.videoId video)
                     (YouTubeMonitor.db st) with
             | Some stored => DBVideo.published_at stored
             | None => VideoInfo.publishedAt video
             end;
         VideoInfo.thumbnailUrl := VideoInfo.thumbnailUrl video;
         VideoInfo.type := VideoInfo.type video;
         VideoInfo.duration := DatabaseService.or_null (VideoInfo.duration video);
         VideoInfo.scheduledStartTime :=
           option_map (Driver.read localOffset) (VideoInfo.scheduledStartTime video);
         VideoInfo.isLive := VideoInfo.isLive video;
         VideoInfo.isLiveContent := VideoInfo.isLiveContent video;
         VideoInfo.isUpcoming := VideoInfo.isUpcoming video |}
    /\ (DatabaseService.getVideo (VideoInfo.videoId video) (YouTubeMonitor.db st) = None ->
        (VideoInfo.publishedAt back = VideoInfo.publishedAt video
         <-> localOffset (VideoInfo.publishedAt video) = 0))
    /\ (In back (Monitor.getLiveVideos localOffset st') <-> VideoInfo.isLive video = true).
Proof.
  intros localOffset now video channelId st _ result back st'.
  assert (forall b, (DatabaseService.flag b =? 1) = b) as Hflag by (intros []; reflexivity).
  assert (forall d, DatabaseService.or_null (DatabaseService.or_null d)
                    = DatabaseService.or_null d) as Hnull.
  { intros [d|]; [|reflexivity]. unfold DatabaseService.or_null.
    destruct (d =? 0) eqn:E; [reflexivity|]. rewrite E. reflexivity. }
  assert (back = {| VideoInfo.videoId := VideoInfo.videoId video;
         VideoInfo.title := VideoInfo.title video;
         VideoInfo.publishedAt :=
           Driver.read localOffset
             match DatabaseService.getVideo (VideoInfo.videoId video)
                     (YouTubeMonitor.db st) with
             | Some stored => DBVideo.published_at stored
             | None => VideoInfo.publishedAt video
             end;
         VideoInfo.thumbnailUrl := VideoInfo.thumbnailUrl video;
         VideoInfo.type := VideoInfo.type video;
         VideoInfo.duration := DatabaseService.or_null (VideoInfo.duration video);
         VideoInfo.scheduledStartTime :=
           option_map (Driver.read localOffset) (VideoInfo.scheduledStartTime video);
         VideoInfo.isLive := VideoInfo.isLive video;
         VideoInfo.isLiveContent := VideoInfo.isLiveContent video;
         VideoInfo.isUpcoming := VideoInfo.isUpcoming video |}) as Hback.
  { subst back result. rewrite upsertVideo_returned.
    unfold Monitor.dbVideoToVideoInfo, Driver.videoRow.
    destruct (DatabaseService.getVideo (VideoInfo.videoId video) (YouTubeMonitor.db st))
      as [stored0|] eqn:G; simpl; rewrite !Hflag, Hnull.
    - apply find_some in G. destruct G as [_ G]. apply String.eqb_eq in G.
      rewrite G. reflexivity.
    - reflexivity. }
  split; [exact Hback|]. split.
  - intros G. rewrite Hback, G. simpl. unfold Driver.read. lia.
  - unfold Monitor.getLiveVideos, DatabaseService.getLiveVideos. subst st'. simpl.
    rewrite in_map_iff. split.
    + intros [r [E Hr]]. apply filter_In in Hr. destruct Hr as [_ L].
      rewrite Hback in E. apply (f_equal VideoInfo.isLive) in E. simpl in E.
      rewrite L in E. auto.
    + intros L. exists (fst (snd result)). split; [reflexivity|].
      apply filter_In. split.
      * pose proof (upsertVideo_getVideo now video channelId (YouTubeMonitor.db st)) as G.
        unfold DatabaseService.getVideo in G. apply find_some in G. tauto.
      * subst result. rewrite upsertVideo_returned.
        destruct (DatabaseService.getVideo _ _); simpl; rewrite L; reflexivity.
Qed.

(** An upload seen for the first time by a process three hours behind UTC:
    its publication time comes back three hours later. *)
Lemma dbVideoToVideoInfo_gives_back_the_video_witness :
  Database.accepts (YouTubeScraper.stubOfItem FVideos upload) "UC-live"
    (YouTubeMonitor.db twoLives) = true
  /\ Monitor.dbVideoToVideoInfo
       (Driver.videoRow (fun _ => -10800000)
          (fst (snd (DatabaseService.upsertVideo 1700000600000
                       (YouTubeScraper.stubOfItem FVideos upload) "UC-live"
                       (YouTubeMonitor.db twoLives)))))
     = {| VideoInfo.videoId := "upload-0001";
          VideoInfo.title := "A new upload";
          VideoInfo.publishedAt := 1700000400000 + 10800000;
          VideoInfo.thumbnailUrl := "";
          VideoInfo.type := TVideo;
          VideoInfo.duration := None;
          VideoInfo.scheduledStartTime := None;
          VideoInfo.isLive := false;
          VideoInfo.isLiveContent := false;
          VideoInfo.isUpcoming := false |}.
Proof.
  split; [reflexivity|].
  exact (proj1 (dbVideoToVideoInfo_gives_back_the_video (fun _ => -10800000) 1700000600000
                  (YouTubeScraper.stubOfItem FVideos upload) "UC-live" twoLives eq_refl)).
Defined.

(** ** The timer *)

Section Timer.

Variable config : Monitor.Config.

Lemma endsWithStart_snoc (calls : list RunCall) (call : RunCall) :
  endsWithStart (calls ++ [call]) = match call with Start => true | Stop => false end.
Proof. unfold endsWithStart. rewrite last_last. reflexivity. Qed.

Lemma everStarted_snoc (calls : list RunCall) (call : RunCall) :
  everStarted (calls ++ [call])
  = everStarted calls || match call with Start => true | Stop => false end.
Proof. unfold everStarted. rewrite existsb_app. simpl. rewrite orb_false_r. reflexivity. Qed.

Lemma startsFrom_snoc (call : RunCall) :
  forall (calls : list RunCall) (running : bool),
    startsFrom running (calls ++ [call])
    = (startsFrom running calls
       + match call with
         | Start =>
             if match calls with [] => running | _ :: _ => endsWithStart calls end
             then 0 else 1
         | Stop => 0
         end)%nat.
Proof.
  induction calls as [|x rest IH]; intros running.
  - simpl. destruct call; [destruct running|]; reflexivity.
  - simpl app. destruct x; simpl startsFrom; rewrite IH.
    + destruct rest as [|y rest]; [destruct call; simpl; lia|].
      change (endsWithStart (Start :: y :: rest)) with (endsWithStart (y :: rest)). lia.
    + destruct rest as [|y rest]; [destruct call; simpl; lia|].
      change (endsWithStart (Stop :: y :: rest)) with (endsWithStart (y :: rest)). lia.
Qed.

Lemma startsFrom_stopped_snoc (calls : list RunCall) (call : RunCall) :
  startsFrom false (calls ++ [call])
  = (startsFrom false calls
     + match call with
       | Start => if endsWithStart calls then 0 else 1
       | Stop => 0
       end)%nat.
Proof. rewrite startsFrom_snoc. destruct calls; reflexivity. Qed.

(** What every sequence of calls keeps true. *)
Lemma runCalls_invariant (firstTimer : nat) (calls : list RunCall) :
  let s := fst (runCalls config firstTimer calls) in
  let effects := snd (runCalls config firstTimer calls) in
  armedTimers effects
  = match Monitor.pollingTimer s with Some timer => [timer] | None => [] end
  /\ Monitor.isRunning s = defined (Monitor.pollingTimer s)
  /\ Monitor.isRunning s = endsWithStart calls
  /\ Monitor.initialized s = everStarted calls
  /\ (connects effects = if everStarted calls then 1 else 0)%nat
  /\ cyclesRun effects = startsFrom false calls
  /\ timersSet effects = seq firstTimer (startsFrom false calls)
  /\ intervalsSet effects
     = repeat (Monitor.pollingInterval config) (startsFrom false calls)
  /\ Monitor.nextTimer s = (firstTimer + startsFrom false calls)%nat.
Proof.
  induction calls as [|call calls IH] using rev_ind.
  - simpl. rewrite Nat.add_0_r. repeat split; reflexivity.
  - rewrite endsWithStart_snoc, everStarted_snoc, startsFrom_stopped_snoc.
    unfold runCalls in *. rewrite fold_left_app. simpl fold_left.
    destruct (fold_left (runStep config) calls (Monitor.created firstTimer, []))
      as [s effects]. simpl in IH. destruct IH as [A [R [L [I [C [Y [T [V N]]]]]]]].
    unfold runStep, armedTimers, connects, cyclesRun, timersSet, intervalsSet in *.
    rewrite <- L, <- I.
    destruct call; unfold Monitor.start, Monitor.stop; rewrite ?andb_false_r.
    + destruct (Monitor.isRunning s) eqn:Run; simpl.
      * rewrite app_nil_r, Nat.add_0_r. rewrite orb_true_r.
        assert (Monitor.initialized s = true) as Hinit.
        { rewrite I. destruct calls as [|c calls] using rev_ind; [discriminate|].
          rewrite endsWithStart_snoc in L. rewrite everStarted_snoc.
          destruct c; [apply orb_true_r | discriminate]. }
        rewrite <- I in C. rewrite Hinit in *.
        repeat split; auto; congruence.
      * rewrite !fold_left_app, !filter_app, !length_app, !flat_map_app, A.
        destruct (Monitor.pollingTimer s); [discriminate|].
        rewrite <- I in C. rewrite orb_true_r.
        rewrite T, Y, V, N, seq_app, repeat_app.
        destruct (Monitor.initialized s); simpl in *; rewrite ?C;
          repeat split; auto; try congruence; lia.
    + destruct (Monitor.isRunning s) eqn:Run; simpl.
      * rewrite !fold_left_app, !filter_app, !length_app, !flat_map_app, A.
        destruct (Monitor.pollingTimer s) as [timer|]; [|discriminate].
        simpl. destruct (Nat.eq_dec timer timer); [|contradiction].
        rewrite orb_false_r, !Nat.add_0_r, !app_nil_r. rewrite <- I in C.
        repeat split; auto; try congruence; lia.
      * rewrite app_nil_r, orb_false_r, Nat.add_0_r. rewrite <- I in C.
        repeat split; auto; try congruence; lia.
Qed.

End Timer.

(** X27. Over any sequence of [start] and [stop] calls on a new monitor,
    each run to its end before the next, with a store that can be reached
    (a [start] that cannot reach the store asks for it and leaves the
    monitor as it was).  The monitor is running exactly
    when the last call was a [start], and exactly then it holds a polling
    timer; at most one timer is set and not cleared, and it is the one
    held.  The store is connected once if some call was a [start] and never
    otherwise.  Every [start] that finds the monitor stopped runs one cycle
    and sets one new timer, with the polling interval of the configuration,
    and no other call does; a [stop] on a running monitor clears the timer
    held.  A [start] on a running monitor and a [stop] on a stopped one do
    nothing. *)
Theorem start_stop_hold_at_most_one_timer :
  forall (config : Monitor.Config) (firstTimer : nat) (calls : list RunCall),
    let s := fst (runCalls config firstTimer calls) in
    let effects := snd (runCalls config firstTimer calls) in
    armedTimers effects
    = match Monitor.pollingTimer s with Some timer => [timer] | None => [] end
    /\ Monitor.isRunning s = defined (Monitor.pollingTimer s)
    /\ Monitor.isRunning s = endsWithStart calls
    /\ Monitor.initialized s = everStarted calls
    /\ (connects effects = if everStarted calls then 1 else 0)%nat
    /\ cyclesRun effects = startsFrom false calls
    /\ timersSet effects = seq firstTimer (startsFrom false calls)
    /\ intervalsSet effects
       = repeat (Monitor.pollingInterval config) (startsFrom false calls)
    /\ snd (runCalls config firstTimer [Start; Stop; Start])
       = [Monitor.GetDatabase; Monitor.RunCycle;
          Monitor.SetInterval firstTimer (Monitor.pollingInterval config);
          Monitor.ClearInterval firstTimer;
          Monitor.RunCycle;
          Monitor.SetInterval (S firstTimer) (Monitor.pollingInterval config)]
    /\ (forall s0,
          Monitor.isRunning s0 = false -> Monitor.initialized s0 = false ->
          Monitor.start config false s0 = (s0, [Monitor.GetDatabase]))
    /\ runCalls config firstTimer (calls ++ [Start; Start])
       = runCalls config firstTimer (calls ++ [Start])
    /\ runCalls config firstTimer (calls ++ [Stop; Stop])
       = runCalls config firstTimer (calls ++ [Stop]).
Proof.
  intros config firstTimer calls s effects. subst s effects.
  pose proof (runCalls_invariant config firstTimer calls)
    as [A [R [L [I [C [Y [T [V _]]]]]]]].
  split; [exact A|]. split; [exact R|]. split; [exact L|]. split; [exact I|].
  split; [exact C|]. split; [exact Y|]. split; [exact T|]. split; [exact V|].
  split; [reflexivity|].
  split; [intros s0 H1 H2; unfold Monitor.start; rewrite H1, H2; reflexivity|].
  unfold runCalls. rewrite !fold_left_app.
  destruct (fold_left (runStep config) calls (Monitor.created firstTimer, []))
    as [s effects]. simpl. unfold Monitor.start, Monitor.stop.
  split.
  - rewrite ?andb_false_r.
    destruct (Monitor.isRunning s) eqn:Run; simpl; unfold Monitor.start; simpl;
      rewrite ?Run; simpl; rewrite ?app_nil_r; reflexivity.
  - destruct (Monitor.isRunning s) eqn:Run; simpl; unfold Monitor.stop; simpl;
      rewrite ?Run; simpl; rewrite ?app_nil_r; reflexivity.
Qed.

(** ** The scan with classification *)

Section ClassifiedScan.

Variable extractPlayerResponse : string -> YTPlayerResponse.t.

Lemma classifyStub_keeps (feedHints : list (string * FeedHint)) (video : VideoInfo.t)
    (fetched : HttpClient.Result) :
  let v := Scraping.classifyStub extractPlayerResponse feedHints video fetched in
  VideoInfo.videoId v = VideoInfo.videoId video
  /\ VideoInfo.title v = VideoInfo.title video
  /\ VideoInfo.publishedAt v = VideoInfo.publishedAt video
  /\ VideoInfo.thumbnailUrl v = VideoInfo.thumbnailUrl video.
Proof.
  unfold Scraping.classifyStub.
  destruct (VideoClassification.getVideoClassification _ _ _) as [type props].
  repeat split.
Qed.

Lemma classifyVideosList_nth (feedHints : list (string * FeedHint))
    (fetched : nat -> HttpClient.Result) (v : VideoInfo.t) :
  forall (videos : list VideoInfo.t) (k : nat),
    In v (Scraping.classifyVideosList_from extractPlayerResponse feedHints fetched k videos) ->
    exists i stub,
      nth_error videos i = Some stub
      /\ v = Scraping.classifyStub extractPlayerResponse feedHints stub (fetched (k + i)%nat).
Proof.
  induction videos as [|x rest IH]; intros k; simpl; [contradiction|].
  intros [H|H].
  - exists 0%nat, x. rewrite Nat.add_0_r. auto.
  - apply IH in H. destruct H as [i [stub [N E]]].
    exists (S i), stub. rewrite Nat.add_succ_r. auto.
Qed.

Lemma classifyVideosList_ids (feedHints : list (string * FeedHint))
    (fetched : nat -> HttpClient.Result) :
  forall (videos : list VideoInfo.t) (k : nat),
    ids (Scraping.classifyVideosList_from extractPlayerResponse feedHints fetched k videos)
    = ids videos.
Proof.
  induction videos as [|x rest IH]; intros k; simpl; [reflexivity|].
  rewrite IH. f_equal. apply classifyStub_keeps.
Qed.

Lemma stubsOf_listed (maxVideosPerFeed : nat)
    (feedResults : list (FeedType * list RSSItem.t)) :
  ids (Scraping.stubsOf maxVideosPerFeed feedResults)
  = map RSSItem.videoId (listed maxVideosPerFeed feedResults)
  /\ forall stub, In stub (Scraping.stubsOf maxVideosPerFeed feedResults) ->
                  exists item, In item (listed maxVideosPerFeed feedResults)
                               /\ feedItemOf stub item.
Proof.
  unfold Scraping.stubsOf, listed, ids.
  induction feedResults as [|[feedType items] rest [IH1 IH2]]; simpl.
  - split; [reflexivity | contradiction].
  - split.
    + rewrite !map_app, IH1, map_map. reflexivity.
    + intros stub H. apply in_app_or in H. destruct H as [H|H].
      * apply in_map_iff in H. destruct H as [item [<- Hi]].
        exists item. split; [apply in_or_app; auto | repeat split].
      * destruct (IH2 stub H) as [item [Hi F]]. exists item.
        split; [apply in_or_app; auto | exact F].
Qed.

Lemma scanned_ids (classifyVideos : bool) (maxVideosPerFeed : nat)
    (feedResults : list (FeedType * list RSSItem.t)) (fetched : nat -> HttpClient.Result) :
  ids (if classifyVideos
       then Scraping.classifyVideosList_from extractPlayerResponse
              (Scraping.feedHintsOf maxVideosPerFeed feedResults) fetched 0
              (Scraping.stubsOf maxVideosPerFeed feedResults)
       else Scraping.stubsOf maxVideosPerFeed feedResults)
  = map RSSItem.videoId (listed maxVideosPerFeed feedResults).
Proof.
  destruct classifyVideos; [rewrite classifyVideosList_ids|]; apply stubsOf_listed.
Qed.

End ClassifiedScan.

Section Hints.

Lemma hints_get_set (videoId key : string) (hint : FeedHint)
    (hints : list (string * FeedHint)) :
  Scraping.hints_get key (Scraping.hints_set videoId hint hints)
  = if String.eqb videoId key then Some hint else Scraping.hints_get key hints.
Proof.
  unfold Scraping.hints_get. induction hints as [|[k h] rest IH]; simpl.
  - destruct (String.eqb videoId key); reflexivity.
  - destruct (String.eqb_spec k videoId) as [E|E]; simpl.
    + subst k. destruct (String.eqb videoId key); reflexivity.
    + destruct (String.eqb_spec k key) as [K|K]; simpl.
      * destruct (String.eqb_spec videoId key); [congruence | reflexivity].
      * exact IH.
Qed.

Lemma hints_of_feed (feedType : FeedType) (key : string) :
  forall (items : list RSSItem.t) (hints : list (string * FeedHint)),
    Scraping.hints_get key
      (fold_left
         (fun hints item =>
            match feedType with
            | FShorts => Scraping.hints_set (RSSItem.videoId item) HintShorts hints
            | FLives => Scraping.hints_set (RSSItem.videoId item) HintLives hints
            | FVideos => hints
            end)
         items hints)
    = if existsb (String.eqb key) (map RSSItem.videoId items)
      then match hintOfFeed feedType with
           | Some hint => Some hint
           | None => Scraping.hints_get key hints
           end
      else Scraping.hints_get key hints.
Proof.
  induction items as [|item rest IH]; intros hints; simpl; [reflexivity|].
  rewrite IH. rewrite (String.eqb_sym key).
  destruct feedType; simpl; rewrite ?hints_get_set;
    destruct (String.eqb (RSSItem.videoId item) key); simpl;
    destruct (existsb _ _); reflexivity.
Qed.

End Hints.

(** X28. The scan of the feeds, with or without classification, gives one
    record for every video among the first [maxVideosPerFeed] items of the
    feeds and no other, and every record carries the identifier, title,
    publication time and thumbnail of a feed item: classification changes
    only the type, the duration, the scheduled start and the three signals,
    which it takes from the page of the video fetched with the hint of the
    video.  Without classification the scan is the merge of the feed
    stubs. *)
Theorem getChannelVideos_keeps_feed_data :
  forall (extractPlayerResponse : string -> YTPlayerResponse.t)
         (classifyVideos : bool) (maxVideosPerFeed : nat)
         (feedResults : list (FeedType * list RSSItem.t))
         (fetched : nat -> HttpClient.Result),
    let result :=
      Scraping.getChannelVideos extractPlayerResponse classifyVideos maxVideosPerFeed
        feedResults fetched in
    NoDup (ids result)
    /\ (forall videoId,
          In videoId (ids result)
          <-> In videoId (map RSSItem.videoId (listed maxVideosPerFeed feedResults)))
    /\ (forall v, In v result ->
          exists item, In item (listed maxVideosPerFeed feedResults) /\ feedItemOf v item)
    /\ (List.length result <= List.length (listed maxVideosPerFeed feedResults))%nat
    /\ (forall v, classifyVideos = true -> In v result ->
          exists i stub,
            nth_error (Scraping.stubsOf maxVideosPerFeed feedResults) i = Some stub
            /\ v = Scraping.classifyStub extractPlayerResponse
                     (Scraping.feedHintsOf maxVideosPerFeed feedResults) stub (fetched i))
    /\ Scraping.getChannelVideos extractPlayerResponse false maxVideosPerFeed
         feedResults fetched
       = YouTubeScraper.getChannelVideos_unclassified maxVideosPerFeed feedResults.
Proof.
  intros extractPlayerResponse classifyVideos maxVideosPerFeed feedResults fetched result.
  subst result. unfold Scraping.getChannelVideos.
  pose proof (scanned_ids extractPlayerResponse classifyVideos maxVideosPerFeed
                feedResults fetched) as Hids.
  split; [apply deduplicateVideos_NoDup|].
  split; [intros videoId; rewrite deduplicateVideos_ids, Hids; reflexivity|].
  split; [|split; [|split]].
  - intros v Hv. apply deduplicateVideos_In in Hv. destruct classifyVideos.
    + apply classifyVideosList_nth in Hv. destruct Hv as [i [stub [N ->]]].
      apply nth_error_In in N.
      destruct (proj2 (stubsOf_listed maxVideosPerFeed feedResults) stub N)
        as [item [Hi [F1 [F2 [F3 F4]]]]].
      exists item. split; [exact Hi|].
      destruct (classifyStub_keeps extractPlayerResponse
                  (Scraping.feedHintsOf maxVideosPerFeed feedResults) stub (fetched (0 + i)%nat))
        as [K1 [K2 [K3 K4]]].
      unfold feedItemOf. rewrite K1, K2, K3, K4. auto.
    + apply (proj2 (stubsOf_listed maxVideosPerFeed feedResults)). exact Hv.
  - rewrite <- (length_map RSSItem.videoId), <- (length_map VideoInfo.videoId).
    apply NoDup_incl_length; [apply deduplicateVideos_NoDup|].
    intros k Hk. apply (proj1 (deduplicateVideos_ids _ _)) in Hk. rewrite <- Hids. exact Hk.
  - intros v -> Hv. apply deduplicateVideos_In in Hv.
    apply classifyVideosList_nth in Hv. exact Hv.
  - reflexivity.
Qed.

(** X29. Which hint a video gets.  The hints are set feed by feed in the
    order in which the feeds stand in the map, and a later feed overwrites:
    a video among the first [maxVideosPerFeed] items of the last feed gets
    the hint of that feed when it is the shorts or the lives feed, and every
    other video keeps the hint it had.  So a video that stands in both the
    shorts and the lives feed is hinted by whichever of the two comes
    later, and a video in neither has no hint. *)
Theorem feedHints_last_feed_wins :
  forall (maxVideosPerFeed : nat) (feedResults : list (FeedType * list RSSItem.t))
         (feedType : FeedType) (items : list RSSItem.t) (videoId : string),
    Scraping.hints_get videoId
      (Scraping.feedHintsOf maxVideosPerFeed (feedResults ++ [(feedType, items)]))
    = (if listedIn maxVideosPerFeed items videoId
       then match hintOfFeed feedType with
            | Some hint => Some hint
            | None => Scraping.hints_get videoId
                        (Scraping.feedHintsOf maxVideosPerFeed feedResults)
            end
       else Scraping.hints_get videoId (Scraping.feedHintsOf maxVideosPerFeed feedResults))
    /\ Scraping.hints_get videoId (Scraping.feedHintsOf maxVideosPerFeed []) = None
    /\ (forall shorts lives,
          listedIn maxVideosPerFeed shorts videoId = true ->
          listedIn maxVideosPerFeed lives videoId = true ->
          Scraping.hints_get videoId
            (Scraping.feedHintsOf maxVideosPerFeed
               (feedResults ++ [(FShorts, shorts); (FLives, lives)]))
          = Some HintLives
          /\ Scraping.hints_get videoId
               (Scraping.feedHintsOf maxVideosPerFeed
                  (feedResults ++ [(FLives, lives); (FShorts, shorts)]))
             = Some HintShorts).
Proof.
  intros maxVideosPerFeed feedResults feedType items videoId.
  assert (forall feeds ft its,
            Scraping.hints_get videoId
              (Scraping.feedHintsOf maxVideosPerFeed (feeds ++ [(ft, its)]))
            = (if listedIn maxVideosPerFeed its videoId
               then match hintOfFeed ft with
                    | Some hint => Some hint
                    | None => Scraping.hints_get videoId
                                (Scraping.feedHintsOf maxVideosPerFeed feeds)
                    end
               else Scraping.hints_get videoId
                      (Scraping.feedHintsOf maxVideosPerFeed feeds))) as Hsnoc.
  { intros feeds ft its. unfold Scraping.feedHintsOf. rewrite fold_left_app. simpl.
    apply hints_of_feed. }
  split; [apply Hsnoc|]. split; [reflexivity|].
  intros shorts lives Hs Hl. split.
  - change (feedResults ++ [(FShorts, shorts); (FLives, lives)])
      with (feedResults ++ [(FShorts, shorts)] ++ [(FLives, lives)]).
    rewrite app_assoc, Hsnoc, Hl. reflexivity.
  - change (feedResults ++ [(FLives, lives); (FShorts, shorts)])
      with (feedResults ++ [(FLives, lives)] ++ [(FShorts, shorts)]).
    rewrite app_assoc, Hsnoc, Hs. reflexivity.
Qed.

(** ** The probed live and the feed item of the same video *)

Section ProbeThenFeed.

Import DatabaseService YouTubeMonitor.

Variables (now : Z) (channelId : string).


Variables (info : option ChannelInfo.t) (shortVideoIds : list string).




End ProbeThenFeed.

Section ProbeThenFeedCheck.

Import DatabaseService YouTubeMonitor.

Variables (now : Z) (channelId : string).


End ProbeThenFeedCheck.


